(** * CleosTelegramBot: a shallow embedding of [bot.py]

    The bot collects five amounts (Cash, Card, Uber, Deliveroo, App) over a
    conversation and appends one row to a spreadsheet; a Flask application
    answers liveness probes.

    Layout of the development:
    - [PyText]       Python [str] values as sequences of Unicode code points;
    - [PyFloat]      the builtin [float()] on the values the bot can pass to it;
    - [is_number], the handlers [start], [cash], [card], [uber], [deliveroo],
      [app_amount], [cancel], the [ConversationHandler] that dispatches
      them, and the bot with the conversations of every chat and user;
    - [Health]       the Flask liveness routes;
    - [FloatSyntax]  the grammar of [float()] and the number of the
      specification;
    - [Startup]      the configuration read from the environment, the
      credentials and the connection to the sheet;
    - [PyInt], [Server], [IntSyntax]  the builtin [int()], the port
      [run_health_server] serves on, and the grammar of [int()];
    - the lemmas and the theorems.

    What is modelled and what is not:
    - [float()] follows CPython: [PyFloat_FromString] with its helpers. The
      value read is kept as an exact decimal; its rounding to a binary64 is
      not modelled, [is_number] discards the value. CPython refuses a numeral
      of more than 10^9 digits; no chat message is that long and the model has
      no such bound.
    - A handler is a function of the update, of the environment (the clock,
      whether the sheet can be written) and of the world ([context.user_data]
      and the effects so far: replies, prints, calls of [sheet.append_row]);
      it returns a state or raises, and what it did before raising stays done.
    - The [ConversationHandler] is the one of python-telegram-bot 20 with
      its defaults: entry points are tried only when no conversation is in
      progress, then the handlers of the current state, then the fallbacks;
      a callback that raises leaves the state as it was.
    - An update is a new message or an edited one. The handlers of the bot
      take both, and [update.message] is [None] for an edited message: every
      callback raises [AttributeError] where it reads it. Updates of other
      kinds are updates with neither; no handler takes them. Every message
      has a sender: one without gives the update no user, and the
      [ConversationHandler] does not dispatch such an update.
    - The bot keeps one conversation state per chat and user and one
      [user_data] per user, as python-telegram-bot does: the conversations of
      one user in several chats work on the same [user_data]. The
      properties of one update, or of updates of one conversation with
      nothing in between, are stated on the state and the world that one
      update finds ([config]); the properties of everything the bot can
      reach are stated on the bot ([Bot], [process_update], [reachable]).
    - The start-up calls libraries (base64, json, oauth2client, gspread); they
      are a record of functions of their arguments that return or raise, so a
      call does not change what a later call does; nothing else is assumed of
      them. What the start-up prints is kept line by line.
    - [int()] follows CPython: [PyLong_FromUnicodeObject] in base ten, with
      the interpreter's limit on the digits of a numeral as a parameter.
      [run_health_server] is modelled up to its call of [health_app.run];
      what Flask does with the port is not. *)

From Stdlib Require Import ZArith NArith Ascii String List Bool Lia.
From stdpp Require Import gmap strings list fin_maps pretty.
Import ListNotations.

Local Open Scope N_scope.

(** ** Python text *)

Module PyText.

(** A Python [str] is a sequence of Unicode code points. *)
Definition pystr : Type := list N.

(** The code points of an ASCII literal. *)
Definition str_of (s : string) : pystr :=
  map N_of_ascii (list_ascii_of_string s).

Definition c_tab : N := 9.         (* '\t' *)
Definition c_cr : N := 13.         (* '\r' *)
Definition c_space : N := 32.      (* ' ' *)
Definition c_plus : N := 43.       (* '+' *)
Definition c_minus : N := 45.      (* '-' *)
Definition c_dot : N := 46.        (* '.' *)
Definition c_zero : N := 48.       (* '0' *)
Definition c_nine : N := 57.       (* '9' *)
Definition c_question : N := 63.   (* '?' *)
Definition c_upper_A : N := 65.    (* 'A' *)
Definition c_upper_E : N := 69.    (* 'E' *)
Definition c_upper_Z : N := 90.    (* 'Z' *)
Definition c_underscore : N := 95. (* '_' *)
Definition c_lower_e : N := 101.   (* 'e' *)

(** [Py_ISSPACE]: the C locale's white space, '\t' '\n' '\v' '\f' '\r' ' '. *)
Definition Py_ISSPACE (c : N) : bool :=
  (c =? c_space) || ((c_tab <=? c) && (c <=? c_cr)).

(** ['0' <= c && c <= '9']. *)
Definition is_digit (c : N) : bool := (c_zero <=? c) && (c <=? c_nine).

(** [Py_TOLOWER]: ASCII letters only. *)
Definition Py_TOLOWER (c : N) : N :=
  if (c_upper_A <=? c) && (c <=? c_upper_Z) then c + 32 else c.

(** The Unicode Character Database as CPython 3.11 ships it (version 14.0):
    the code points with [str.isspace()], and the code point of the digit zero
    of every run of ten decimal digits (general category Nd). No theorem
    below depends on which code points the two tables list. *)
Definition unicode_whitespace : list N :=
  [ 0x9; 0xa; 0xb; 0xc; 0xd; 0x1c; 0x1d; 0x1e; 0x1f; 0x20; 0x85; 0xa0;
    0x1680; 0x2000; 0x2001; 0x2002; 0x2003; 0x2004; 0x2005; 0x2006; 0x2007;
    0x2008; 0x2009; 0x200a; 0x2028; 0x2029; 0x202f; 0x205f; 0x3000 ].

Definition unicode_decimal_zeros : list N :=
  [ 0x30; 0x660; 0x6f0; 0x7c0; 0x966; 0x9e6; 0xa66; 0xae6; 0xb66; 0xbe6;
    0xc66; 0xce6; 0xd66; 0xde6; 0xe50; 0xed0; 0xf20; 0x1040; 0x1090; 0x17e0;
    0x1810; 0x1946; 0x19d0; 0x1a80; 0x1a90; 0x1b50; 0x1bb0; 0x1c40; 0x1c50;
    0xa620; 0xa8d0; 0xa900; 0xa9d0; 0xa9f0; 0xaa50; 0xabf0; 0xff10; 0x104a0;
    0x10d30; 0x11066; 0x110f0; 0x11136; 0x111d0; 0x112f0; 0x11450; 0x114d0;
    0x11650; 0x116c0; 0x11730; 0x118e0; 0x11950; 0x11c50; 0x11d50; 0x11da0;
    0x16a60; 0x16ac0; 0x16b50; 0x1d7ce; 0x1d7d8; 0x1d7e2; 0x1d7ec; 0x1d7f6;
    0x1e140; 0x1e2f0; 0x1e950; 0x1fbf0 ].

Definition Py_UNICODE_ISSPACE (c : N) : bool :=
  existsb (N.eqb c) unicode_whitespace.

(** The decimal value of a code point, [None] where C returns -1. *)
Definition Py_UNICODE_TODECIMAL (c : N) : option N :=
  match List.find (fun z => (z <=? c) && (c <? z + 10)) unicode_decimal_zeros with
  | Some z => Some (c - z)
  | None => None
  end.

(** [_PyUnicode_TransformDecimalAndSpaceToASCII]: an ASCII string is returned
    as it is; otherwise every code point from 127 on becomes a space or its
    ASCII digit, and the first one that is neither becomes '?' and ends the
    result. *)
Fixpoint transform_chars (s : pystr) : pystr :=
  match s with
  | [] => []
  | c :: r =>
      if c <? 127 then c :: transform_chars r
      else if Py_UNICODE_ISSPACE c then c_space :: transform_chars r
      else match Py_UNICODE_TODECIMAL c with
           | Some d => (c_zero + d) :: transform_chars r
           | None => [c_question]
           end
  end.

Definition TransformDecimalAndSpaceToASCII (s : pystr) : pystr :=
  if forallb (fun c => c <? 128) s then s else transform_chars s.

End PyText.

Import PyText.

(** ** Exceptions and results *)

Inductive exn : Type :=
| ValueError
| TypeError
| OverflowError
| KeyError
| AttributeError
| SheetError.   (* whatever [sheet.append_row] raises: an [Exception] *)

Inductive result (A : Type) : Type :=
| Ok (a : A)
| Raise (e : exn).

Arguments Ok {A} a.
Arguments Raise {A} e.

(** The Python values the model knows: what a message text can be ([None] or
    a [str]) and the two numeric kinds an ordinary caller can pass. *)
Inductive pyval : Type :=
| PNone
| PBool (b : bool)
| PInt (z : Z)
| PStr (s : pystr).

(** ** The builtin [float()] *)

Module PyFloat.

(** What [float()] has read. For a numeral it is the exact decimal
    [(-1)^negative * coefficient * 10^exponent]; Python then rounds it to the
    nearest binary64 (to an infinity beyond the range). That rounding is not
    modelled: [is_number] discards the value. *)
Inductive pyfloat : Type :=
| FNan
| FInf (negative : bool)
| FDec (negative : bool) (coefficient : N) (exponent : Z).

(** An optional sign: [switch (c) { case '-': sign = 1; case '+': c = *++s; }]. *)
Definition scan_sign (s : pystr) : bool * pystr :=
  match s with
  | c :: r =>
      if c =? c_minus then (true, r)
      else if c =? c_plus then (false, r)
      else (false, s)
  | [] => (false, [])
  end.

(** [while ('0' <= c && c <= '9') c = *++s;]: the digits read and the rest. *)
Fixpoint scan_digits (s : pystr) : pystr * pystr :=
  match s with
  | c :: r =>
      if is_digit c
      then let '(d, t) := scan_digits r in (c :: d, t)
      else ([], s)
  | [] => ([], [])
  end.

Definition digits_value (d : pystr) : N :=
  fold_left (fun acc c => 10 * acc + (c - c_zero)) d 0.

(** The exponent of [_Py_dg_strtod]: 'e' or 'E', an optional sign, digits;
    without a digit the scan backs up to the 'e' ([s = s00]). *)
Definition scan_exponent (s : pystr) : Z * pystr :=
  match s with
  | c :: r =>
      if (c =? c_lower_e) || (c =? c_upper_E) then
        let '(neg, r1) := scan_sign r in
        let '(d, r2) := scan_digits r1 in
        match d with
        | [] => (0%Z, s)
        | _ :: _ =>
            let e := Z.of_N (digits_value d) in
            ((if neg then - e else e)%Z, r2)
        end
      else (0%Z, s)
  | [] => (0%Z, [])
  end.

(** [_Py_dg_strtod]: sign, digits, an optional point and digits, an optional
    exponent. [None] is its [parse_error] (no digit at all); otherwise the
    value and the unread rest ([*se]). *)
Definition dg_strtod (s : pystr) : option (pyfloat * pystr) :=
  let '(neg, s1) := scan_sign s in
  let '(ip, s2) := scan_digits s1 in
  let '(fp, s3) :=
    match s2 with
    | c :: r => if c =? c_dot then scan_digits r else ([], s2)
    | [] => ([], s2)
    end in
  match ip ++ fp with
  | [] => None
  | _ :: _ =>
      let '(e, s4) := scan_exponent s3 in
      Some (FDec neg (digits_value (ip ++ fp)) (e - Z.of_nat (length fp)), s4)
  end.

(** [case_insensitive_match(s, t)]: the rest of [s] after [t], when [s]
    begins with [t] up to ASCII letter case. *)
Fixpoint case_insensitive_match (s t : pystr) {struct t} : option pystr :=
  match t with
  | [] => Some s
  | x :: t' =>
      match s with
      | c :: s' => if Py_TOLOWER c =? x then case_insensitive_match s' t' else None
      | [] => None
      end
  end.

(** [_Py_parse_inf_or_nan]. *)
Definition parse_inf_or_nan (s : pystr) : option (pyfloat * pystr) :=
  let '(neg, s1) := scan_sign s in
  match case_insensitive_match s1 (str_of "inf") with
  | Some r =>
      match case_insensitive_match r (str_of "inity") with
      | Some r' => Some (FInf neg, r')
      | None => Some (FInf neg, r)
      end
  | None =>
      match case_insensitive_match s1 (str_of "nan") with
      | Some r => Some (FNan, r)
      | None => None
      end
  end.

(** [_PyOS_ascii_strtod]: a numeral, and when nothing was read an inf or nan. *)
Definition ascii_strtod (s : pystr) : option (pyfloat * pystr) :=
  match dg_strtod s with
  | Some r => Some r
  | None => parse_inf_or_nan s
  end.

Fixpoint lstrip (s : pystr) : pystr :=
  match s with
  | c :: r => if Py_ISSPACE c then lstrip r else s
  | [] => []
  end.

Definition rstrip (s : pystr) : pystr := rev (lstrip (rev s)).

(** [float_from_string_inner]: strip leading white space (an empty rest is an
    error), strip trailing white space but never the first character left,
    convert, and require that the conversion read everything. *)
Definition float_from_string_inner (s : pystr) : result pyfloat :=
  match lstrip s with
  | [] => Raise ValueError
  | c :: r =>
      match ascii_strtod (c :: rstrip r) with
      | Some (x, []) => Ok x
      | _ => Raise ValueError
      end
  end.

(** The loop of [_Py_string_to_number_with_underscores]: an underscore is
    allowed only after a digit and before a digit; the result is the text
    without its underscores ([dup]). [prev] starts as NUL. *)
Fixpoint copy_without_underscores (prev : N) (s : pystr) : option pystr :=
  match s with
  | [] => if prev =? c_underscore then None else Some []
  | c :: r =>
      if c =? c_underscore then
        if is_digit prev then copy_without_underscores c r else None
      else if (prev =? c_underscore) && negb (is_digit c) then None
      else option_map (cons c) (copy_without_underscores c r)
  end.

Definition string_to_number_with_underscores (s : pystr) : result pyfloat :=
  if existsb (N.eqb c_underscore) s then
    match copy_without_underscores 0 s with
    | Some dup => float_from_string_inner dup
    | None => Raise ValueError
    end
  else float_from_string_inner s.

(** [PyFloat_FromString] on a [str]. *)
Definition PyFloat_FromString (s : pystr) : result pyfloat :=
  string_to_number_with_underscores (TransformDecimalAndSpaceToASCII s).

(** An [int] converts when it rounds (to nearest, ties to even) to a finite
    binary64, that is below [2^1024 - 2^970] in absolute value. *)
Definition int_fits_double (z : Z) : bool :=
  (Z.abs z <? 2 ^ 1024 - 2 ^ 970)%Z.

(** [float(value)]. *)
Definition float (value : pyval) : result pyfloat :=
  match value with
  | PNone => Raise TypeError
  | PBool b => Ok (FDec false (if b then 1 else 0) 0)
  | PInt z =>
      if int_fits_double z
      then Ok (FDec (z <? 0)%Z (Z.to_N (Z.abs z)) 0)
      else Raise OverflowError
  | PStr s => PyFloat_FromString s
  end.

End PyFloat.

(** ** The builtin [int()] *)

Module PyInt.

(** The digit loop of [PyLong_FromString] in base ten: digits and
    underscores are read, two underscores in a row or an underscore at the
    end are errors; the digits read and the rest. [prev] starts as NUL. *)
Fixpoint scan_long_digits (prev : N) (s : pystr) : option (pystr * pystr) :=
  match s with
  | c :: r =>
      if c =? c_underscore then
        if prev =? c_underscore then None else scan_long_digits c r
      else if is_digit c then
        match scan_long_digits c r with
        | Some (d, t) => Some (c :: d, t)
        | None => None
        end
      else if prev =? c_underscore then None else Some ([], s)
  | [] => if prev =? c_underscore then None else Some ([], [])
  end.

(** [_PY_LONG_MAX_STR_DIGITS_THRESHOLD]: below it the limit is not looked at. *)
Definition PY_LONG_MAX_STR_DIGITS_THRESHOLD : Z := 640.

(** [digits > threshold && max_str_digits > 0 && digits > max_str_digits],
    with the interpreter's [int_max_str_digits] (4300 unless configured,
    0 for no limit). *)
Definition too_many_digits (max_str_digits : Z) (digits : Z) : bool :=
  (PY_LONG_MAX_STR_DIGITS_THRESHOLD <? digits)%Z
  && (0 <? max_str_digits)%Z && (max_str_digits <? digits)%Z.

(** [PyLong_FromString(str, &end, 10)]: white space, a sign, digits (no
    underscore first), white space, and then the end of the C string, which
    is the end of the text or a NUL in it; the value and what [end] is left
    pointing at. *)
Definition PyLong_FromString (max_str_digits : Z) (s : pystr)
  : result (Z * pystr) :=
  let '(negative, s1) := PyFloat.scan_sign (PyFloat.lstrip s) in
  match s1 with
  | c :: _ =>
      if c =? c_underscore then Raise ValueError
      else
        match scan_long_digits 0 s1 with
        | None => Raise ValueError
        | Some (d, rest) =>
            if too_many_digits max_str_digits (Z.of_nat (length d))
            then Raise ValueError
            else
              match d with
              | [] => Raise ValueError
              | _ :: _ =>
                  let z := Z.of_N (PyFloat.digits_value d) in
                  let z := if negative then (- z)%Z else z in
                  match PyFloat.lstrip rest with
                  | [] => Ok (z, [])
                  | c' :: r' =>
                      if c' =? 0 then Ok (z, c' :: r') else Raise ValueError
                  end
              end
        end
  | [] => Raise ValueError
  end.

(** [PyLong_FromUnicodeObject(u, 10)]: the conversion must have read the
    whole text. *)
Definition PyLong_FromUnicodeObject (max_str_digits : Z) (u : pystr) : result Z :=
  match PyLong_FromString max_str_digits (TransformDecimalAndSpaceToASCII u) with
  | Ok (z, []) => Ok z
  | Ok (_, _ :: _) => Raise ValueError
  | Raise e => Raise e
  end.

(** [int(value)]. *)
Definition int (max_str_digits : Z) (value : pyval) : result Z :=
  match value with
  | PNone => Raise TypeError
  | PBool b => Ok (if b then 1 else 0)%Z
  | PInt z => Ok z
  | PStr s => PyLong_FromUnicodeObject max_str_digits s
  end.

End PyInt.

(** ** The bot *)

(** [try: body / except: handler], the bare [except] that catches every
    exception. *)
Definition try_except {A : Type} (body : result A) (handler : exn -> result A)
  : result A :=
  match body with
  | Ok a => Ok a
  | Raise e => handler e
  end.

Definition is_number (value : pyval) : result bool :=
  try_except
    (match PyFloat.float value with
     | Ok _ => Ok true
     | Raise e => Raise e
     end)
    (fun _ => Ok false).

(** *** Messages, updates and the world a handler runs in *)

Local Open Scope string_scope.
Local Open Scope list_scope.
Local Open Scope N_scope.

Record User : Type := { user_id : Z; full_name : pystr }.

Record Chat : Type := { chat_id : Z }.

(** The bot command a message starts with ([entities[0]] is a [bot_command]
    at offset 0): its name, lower-cased and without the slash, and whether it
    is addressed to this bot (no [@name] suffix, or this bot's). *)
Record BotCommand : Type := {
  command_name : string;
  addressed_to_bot : bool
}.

(** A message with a sender. A message without one (a channel post) gives
    the update no [effective_user], and the [ConversationHandler] does not
    dispatch such an update. *)
Record Message : Type := {
  text : option pystr;
  leading_command : option BotCommand;
  from_user : User;
  chat : Chat
}.

(** An update carries at most one of its optional fields: a new message in
    [message], the new version of an edited one in [edited_message]. With
    neither it is of another kind (a channel post, a callback query, ...),
    which no handler of the conversation takes. *)
Record Update : Type := {
  message : option Message;
  edited_message : option Message
}.

(** [update.effective_message] *)
Definition effective_message (update : Update) : option Message :=
  match message update with
  | Some m => Some m
  | None => edited_message update
  end.

(** What the outside world decides while one update is handled: the local
    time as [strftime("%Y-%m-%d %H:%M:%S")] prints it, and whether
    [sheet.append_row] raises. *)
Record Env : Type := {
  now : pystr;
  append_row_raises : bool
}.

(** The effects of a handler, in the order they happen. *)
Inductive effect : Type :=
| reply_text (msg : string)
| print (label : string) (values : list pyval)
| print_exception (label : string) (e : exn)
| append_row (row : list pystr) (raised : bool).

Record World : Type := {
  user_data : gmap string pyval;   (* [context.user_data] *)
  effects : list effect
}.

(** Handlers read the environment, change the world and return or raise;
    what was done before an exception stays done. *)
Definition M (A : Type) : Type := Env -> World -> result A * World.

Definition ret {A : Type} (a : A) : M A := fun _ w => (Ok a, w).

Definition bind {A B : Type} (c : M A) (k : A -> M B) : M B :=
  fun env w =>
    match c env w with
    | (Ok a, w') => k a env w'
    | (Raise e, w') => (Raise e, w')
    end.

Declare Scope handler_scope.
Delimit Scope handler_scope with handler.
Notation "x <- c ;; k" := (bind c (fun x => k))
  (at level 100, c at next level, k at level 200, right associativity)
  : handler_scope.
Notation "c ;; k" := (bind c (fun _ => k))
  (at level 100, k at level 200, right associativity) : handler_scope.
Local Open Scope handler_scope.

Definition lift {A : Type} (r : result A) : M A := fun _ w => (r, w).

Definition emit (e : effect) : M unit :=
  fun _ w => (Ok tt, {| user_data := user_data w; effects := effects w ++ [e] |}).

(** [context.user_data[key] = value] *)
Definition set_item (key : string) (value : pyval) : M unit :=
  fun _ w => (Ok tt, {| user_data := <[key := value]> (user_data w);
                        effects := effects w |}).

(** [context.user_data[key]], a [KeyError] when the key is missing. *)
Definition get_item (key : string) : M pyval :=
  fun _ w => match user_data w !! key with
             | Some v => (Ok v, w)
             | None => (Raise KeyError, w)
             end.

(** [context.user_data.clear()] *)
Definition user_data_clear : M unit :=
  fun _ w => (Ok tt, {| user_data := ∅; effects := effects w |}).

(** [datetime.now().strftime("%Y-%m-%d %H:%M:%S")] *)
Definition strftime_now : M pystr := fun env w => (Ok (now env), w).

(** [sheet.append_row(row)] *)
Definition sheet_append_row (row : list pystr) : M unit :=
  fun env w =>
    let w' := {| user_data := user_data w;
                 effects := effects w ++ [append_row row (append_row_raises env)] |} in
    if append_row_raises env then (Raise SheetError, w') else (Ok tt, w').

(** [try: body / except Exception as e: handler]; every exception of the
    model is an [Exception]. *)
Definition try_except_Exception {A : Type} (body : M A) (handler : exn -> M A) : M A :=
  fun env w =>
    match body env w with
    | (Ok a, w') => (Ok a, w')
    | (Raise e, w') => handler e env w'
    end.

(** [str(value)] *)
Definition py_str (value : pyval) : pystr :=
  match value with
  | PStr s => s
  | PNone => str_of "None"
  | PBool b => str_of (if b then "True" else "False")
  | PInt z => str_of (pretty z)
  end.

(** The value of [update.message.text] where the update has a message.
    Where it has none the handlers raise and never get a value; [None]
    stands in here. *)
Definition message_text (update : Update) : pyval :=
  match message update with
  | Some m => match text m with
              | Some s => PStr s
              | None => PNone
              end
  | None => PNone
  end.

(** The value of [update.message.from_user.full_name], likewise. *)
Definition sender_name (update : Update) : pystr :=
  match message update with
  | Some m => full_name (from_user m)
  | None => []
  end.

(** [update.message], about to be dereferenced: [None] has no attribute. *)
Definition update_message (update : Update) : M Message :=
  match message update with
  | Some m => ret m
  | None => lift (Raise AttributeError)
  end.

(** [update.message.text] *)
Definition update_message_text (update : Update) : M pyval :=
  update_message update ;;
  ret (message_text update).

(** [update.message.from_user.full_name] *)
Definition update_message_from_user_full_name (update : Update) : M pystr :=
  update_message update ;;
  ret (sender_name update).

(** [await update.message.reply_text(msg)] *)
Definition update_message_reply_text (update : Update) (msg : string) : M unit :=
  update_message update ;;
  emit (reply_text msg).

(** *** States *)

Definition CASH : Z := 0.
Definition CARD : Z := 1.
Definition UBER : Z := 2.
Definition DELIVEROO : Z := 3.
Definition APP : Z := 4.
(** [ConversationHandler.END] *)
Definition END : Z := -1.

(** *** Conversation flow *)

Definition start (update : Update) : M Z :=
  update_message_reply_text update "Enter Cash amount:" ;;
  ret CASH.

Definition cash (update : Update) : M Z :=
  value <- update_message_text update ;;
  ok <- lift (is_number value) ;;
  if negb ok then
    update_message_reply_text update "❌ Please enter a valid number for Cash." ;;
    ret CASH
  else
    set_item "Cash" value ;;
    update_message_reply_text update "Enter Card amount:" ;;
    ret CARD.

Definition card (update : Update) : M Z :=
  value <- update_message_text update ;;
  ok <- lift (is_number value) ;;
  if negb ok then
    update_message_reply_text update "❌ Please enter a valid number for Card." ;;
    ret CARD
  else
    set_item "Card" value ;;
    update_message_reply_text update "Enter Uber amount:" ;;
    ret UBER.

Definition uber (update : Update) : M Z :=
  value <- update_message_text update ;;
  ok <- lift (is_number value) ;;
  if negb ok then
    update_message_reply_text update "❌ Please enter a valid number for Uber." ;;
    ret UBER
  else
    set_item "Uber" value ;;
    update_message_reply_text update "Enter Deliveroo amount:" ;;
    ret DELIVEROO.

Definition deliveroo (update : Update) : M Z :=
  value <- update_message_text update ;;
  ok <- lift (is_number value) ;;
  if negb ok then
    update_message_reply_text update "❌ Please enter a valid number for Deliveroo." ;;
    ret DELIVEROO
  else
    set_item "Deliveroo" value ;;
    update_message_reply_text update "Enter App amount:" ;;
    ret APP.

Definition app_amount (update : Update) : M Z :=
  value <- update_message_text update ;;
  ok <- lift (is_number value) ;;
  if negb ok then
    update_message_reply_text update "❌ Please enter a valid number for App." ;;
    ret APP
  else
    set_item "App" value ;;
    timestamp <- strftime_now ;;
    staff_name <- update_message_from_user_full_name update ;;
    v1 <- get_item "Cash" ;;
    v2 <- get_item "Card" ;;
    v3 <- get_item "Uber" ;;
    v4 <- get_item "Deliveroo" ;;
    v5 <- get_item "App" ;;
    emit (print "DEBUG: Writing to sheet:"
            [PStr timestamp; PStr staff_name; v1; v2; v3; v4; v5]) ;;
    try_except_Exception
      (c1 <- get_item "Cash" ;;
       c2 <- get_item "Card" ;;
       c3 <- get_item "Uber" ;;
       c4 <- get_item "Deliveroo" ;;
       c5 <- get_item "App" ;;
       sheet_append_row
         [py_str (PStr timestamp); py_str (PStr staff_name);
          py_str c1; py_str c2; py_str c3; py_str c4; py_str c5] ;;
       update_message_reply_text update "✅ All values saved successfully!")
      (fun e =>
         emit (print_exception "Error saving to sheet:" e) ;;
         update_message_reply_text update
           "❌ Error saving to Google Sheet. Check logs.") ;;
    user_data_clear ;;
    ret END.

Definition cancel (update : Update) : M Z :=
  user_data_clear ;;
  update_message_reply_text update "Entry cancelled." ;;
  ret END.

(** *** The handlers of python-telegram-bot *)

Record Handler : Type := {
  check_update : Update -> bool;
  callback : Update -> M Z
}.

(** [filters.TEXT]: the message has a non-empty text. *)
Definition filters_TEXT (m : Message) : bool :=
  match text m with
  | Some (_ :: _) => true
  | _ => false
  end.

(** [filters.COMMAND]: the message starts with a bot command. *)
Definition filters_COMMAND (m : Message) : bool :=
  match leading_command m with
  | Some _ => true
  | None => false
  end.

(** [filters.TEXT & ~filters.COMMAND] *)
Definition filters_TEXT_and_not_COMMAND (m : Message) : bool :=
  filters_TEXT m && negb (filters_COMMAND m).

(** [MessageHandler(filter, callback)]: a message filter looks at the
    effective message of a new or an edited message. *)
Definition MessageHandler (filter : Message -> bool) (cb : Update -> M Z) : Handler :=
  {| check_update := fun u =>
       match effective_message u with
       | Some m => filter m
       | None => false
       end;
     callback := cb |}.

(** The message is a text that starts with this command, addressed to this
    bot. *)
Definition is_command (command : string) (m : Message) : bool :=
  match leading_command m with
  | Some c =>
      filters_TEXT m && addressed_to_bot c && String.eqb (command_name c) command
  | None => false
  end.

(** [CommandHandler(command, callback)]: by default it takes new messages
    and edited ones, [filters.UpdateType.MESSAGES]. *)
Definition CommandHandler (command : string) (cb : Update -> M Z) : Handler :=
  {| check_update := fun u =>
       match effective_message u with
       | Some m => is_command command m
       | None => false
       end;
     callback := cb |}.

(** [ConversationHandler(entry_points, states, fallbacks)] with its defaults
    (no re-entry). *)
Record ConversationHandler : Type := {
  entry_points : list Handler;
  states : gmap Z (list Handler);
  fallbacks : list Handler
}.

Definition first_match (hs : list Handler) (u : Update) : option Handler :=
  List.find (fun h => check_update h u) hs.

(** [ConversationHandler.check_update]: without a conversation only the entry
    points are tried; within one, the handlers of the current state and then
    the fallbacks. [None]: the update is not handled. *)
Definition conv_check_update (ch : ConversationHandler) (state : option Z)
    (u : Update) : option Handler :=
  match state with
  | None => first_match (entry_points ch) u
  | Some s =>
      match first_match (default [] (states ch !! s)) u with
      | Some h => Some h
      | None => first_match (fallbacks ch) u
      end
  end.

(** What the [ConversationHandler] and a handler see of the bot while one
    update is handled: the state kept for the update's chat and user ([None]
    when they have no conversation in progress), and the world, with the
    [user_data] of the update's user. *)
Definition config : Type := option Z * World.

(** [ConversationHandler.handle_update]: run the callback and record the
    state it returns, [END] ending the conversation; a callback that raises
    leaves the state as it was. *)
Definition conv_handle_update (ch : ConversationHandler) (c : config)
    (u : Update) (env : Env) : config :=
  match conv_check_update ch (fst c) u with
  | None => c
  | Some h =>
      match callback h u env (snd c) with
      | (Ok new_state, w') =>
          (if (new_state =? END)%Z then None else Some new_state, w')
      | (Raise _, w') => (fst c, w')
      end
  end.

Definition conv_handler : ConversationHandler :=
  {| entry_points := [CommandHandler "start" start];
     states :=
       <[CASH := [MessageHandler filters_TEXT_and_not_COMMAND cash]]>
       (<[CARD := [MessageHandler filters_TEXT_and_not_COMMAND card]]>
       (<[UBER := [MessageHandler filters_TEXT_and_not_COMMAND uber]]>
       (<[DELIVEROO := [MessageHandler filters_TEXT_and_not_COMMAND deliveroo]]>
       (<[APP := [MessageHandler filters_TEXT_and_not_COMMAND app_amount]]> ∅))));
     fallbacks := [CommandHandler "cancel" cancel] |}.

(** Updates handled one after the other in one conversation, when nothing
    else touches the [user_data] of its user in between. *)
Fixpoint run (c : config) (events : list (Update * Env)) : config :=
  match events with
  | [] => c
  | (u, env) :: rest => run (conv_handle_update conv_handler c u env) rest
  end.

(** *** The bot: every chat and every user *)

(** The conversations of the [ConversationHandler], one state per chat and
    user; [application.user_data], one dictionary per user (an empty one for
    a user not seen yet); and the effects so far. *)
Record Bot : Type := {
  conversations : gmap (Z * Z) Z;
  users_data : gmap Z (gmap string pyval);
  log : list effect
}.

(** [ConversationHandler._get_key]: the chat and the user of the update. *)
Definition conversation_key (u : Update) : option (Z * Z) :=
  match effective_message u with
  | Some m => Some (chat_id (chat m), user_id (from_user m))
  | None => None
  end.

(** [context.user_data] for a user. *)
Definition user_data_of (b : Bot) (user : Z) : gmap string pyval :=
  default ∅ (users_data b !! user).

(** The bot as the update of a chat and a user finds it. *)
Definition view (b : Bot) (key : Z * Z) : config :=
  (conversations b !! key,
   {| user_data := user_data_of b (snd key); effects := log b |}).

(** [Application.process_update] with the one handler it has: an update the
    [ConversationHandler] takes is handled with the state of its chat and
    user and the [user_data] of its user, whatever chat it comes from. An
    exception of a callback is logged by the application and goes no
    further. *)
Definition process_update (b : Bot) (u : Update) (env : Env) : Bot :=
  match conversation_key u with
  | None => b
  | Some key =>
      match conv_check_update conv_handler (conversations b !! key) u with
      | None => b
      | Some _ =>
          let c := conv_handle_update conv_handler (view b key) u env in
          {| conversations :=
               match fst c with
               | Some s => <[key := s]> (conversations b)
               | None => delete key (conversations b)
               end;
             users_data := <[snd key := user_data (snd c)]> (users_data b);
             log := effects (snd c) |}
      end
  end.

Fixpoint run_bot (b : Bot) (events : list (Update * Env)) : Bot :=
  match events with
  | [] => b
  | (u, env) :: rest => run_bot (process_update b u env) rest
  end.

(** *** Notions the properties are stated with *)

(** A private chat has the id of its user. *)
Definition private_chat (user : User) : Chat := {| chat_id := user_id user |}.

(** A plain text: a text and no leading command. *)
Definition plain_text (t : pystr) (sender : User) (c : Chat) : Message :=
  {| text := Some t; leading_command := None; from_user := sender; chat := c |}.

(** The text [/name], addressed to this bot. *)
Definition command_text (name : string) (sender : User) (c : Chat) : Message :=
  {| text := Some (str_of (String "/" name));
     leading_command := Some {| command_name := name; addressed_to_bot := true |};
     from_user := sender;
     chat := c |}.

(** The update of a new message, and the update of a message that was
    edited to [m]. *)
Definition new_message (m : Message) : Update :=
  {| message := Some m; edited_message := None |}.

Definition edited (m : Message) : Update :=
  {| message := None; edited_message := Some m |}.

(** A plain text message and the message [/name], sent to the bot in the
    private chat of their sender. *)
Definition text_message (t : pystr) (sender : User) : Update :=
  new_message (plain_text t sender (private_chat sender)).

Definition command_message (name : string) (sender : User) : Update :=
  new_message (command_text name sender (private_chat sender)).

(** The world [w] with session [ud] and the further effects [es]. *)
Definition with_effects (w : World) (ud : gmap string pyval) (es : list effect)
  : World :=
  {| user_data := ud; effects := effects w ++ es |}.

(** What the last handler does after the row was offered to the sheet. *)
Definition after_append (raised : bool) : list effect :=
  if raised
  then [print_exception "Error saving to sheet:" SheetError;
        reply_text "❌ Error saving to Google Sheet. Check logs."]
  else [reply_text "✅ All values saved successfully!"].

(** The three kinds of new message the conversation reacts to: the start
    command, the cancel command, and a text that is no command. *)
Definition is_start (u : Update) : bool :=
  match message u with
  | Some m => is_command "start" m
  | None => false
  end.

Definition is_cancel (u : Update) : bool :=
  match message u with
  | Some m => is_command "cancel" m
  | None => false
  end.

Definition is_amount_message (u : Update) : bool :=
  match message u with
  | Some m => filters_TEXT_and_not_COMMAND m
  | None => false
  end.

(** An update without a message whose effective message (an edited one) is
    the cancel command. *)
Definition is_edited_cancel (u : Update) : bool :=
  match message u, edited_message u with
  | None, Some m => is_command "cancel" m
  | _, _ => false
  end.

(** The five states in which an amount is awaited. *)
Definition awaiting_states : list Z := [CASH; CARD; UBER; DELIVEROO; APP].

(** The calls of [sheet.append_row] among some effects: the row, and whether
    the call raised. *)
Definition sink_calls (es : list effect) : list (list pystr * bool) :=
  flat_map (fun e => match e with
                     | append_row row raised => [(row, raised)]
                     | _ => []
                     end) es.

(** The keys of the session, in the order they are asked for. *)
Definition field_names : list string := ["Cash"; "Card"; "Uber"; "Deliveroo"; "App"].

(** The field a state asks for, and the prompt that refuses a text there. *)
Definition field_of (s : Z) : string := nth (Z.to_nat s) field_names "".

Definition refusal_prompt (s : Z) : string :=
  "❌ Please enter a valid number for " +:+ field_of s +:+ ".".




(** One amount as it arrives: the text, its sender and the moment. *)
Record entry : Type := {
  entry_text : pystr;
  entry_sender : User;
  entry_env : Env
}.

Definition entry_event (a : entry) : Update * Env :=
  (text_message (entry_text a) (entry_sender a), entry_env a).

(** The states a conversation goes through, one per update. *)
Fixpoint run_states (c : config) (events : list (Update * Env)) : list (option Z) :=
  match events with
  | [] => []
  | (u, env) :: rest =>
      let c' := conv_handle_update conv_handler c u env in
      fst c' :: run_states c' rest
  end.

(** Sample data for the examples. *)
Definition ann : User := {| user_id := 7; full_name := str_of "Ann" |}.

(** A group chat Ann is a member of. *)
Definition kitchen : Chat := {| chat_id := (-100) |}.

Definition noon : Env :=
  {| now := str_of "2024-05-01 12:00:00"; append_row_raises := false |}.

Definition sheet_down : Env :=
  {| now := str_of "2024-05-01 12:00:00"; append_row_raises := true |}.

Definition empty_world : World := {| user_data := ∅; effects := [] |}.

(** A session with the first four amounts entered. *)
Definition four_amounts : gmap string pyval :=
  <["Deliveroo" := PStr (str_of "5")]>
    (<["Uber" := PStr (str_of "10")]>
       (<["Card" := PStr (str_of "20")]>
          (<["Cash" := PStr (str_of "50")]> ∅))).

(** The bot starts without a conversation and without any [user_data]. *)
Definition bot_initial : Bot :=
  {| conversations := ∅; users_data := ∅; log := [] |}.

(** The bot after /start and "50" from Ann in her private chat. *)
Definition cash_entered : Bot :=
  run_bot bot_initial [(command_message "start" ann, noon);
                       (text_message (str_of "50") ann, noon)].

(** The states the bot can be in between two updates: any update, new or
    edited, of any user in any chat, at any time and whether the sheet can be
    written or not. *)
Inductive reachable : Bot -> Prop :=
| reachable_initial : reachable bot_initial
| reachable_update b u env :
    reachable b -> reachable (process_update b u env).

(** The key of an update that has one. *)
Definition key_of (u : Update) : Z * Z :=
  default (0%Z, 0%Z) (conversation_key u).

(** A user has no conversation in progress, in any chat. *)
Definition idle_everywhere (b : Bot) (user : Z) : Prop :=
  forall c, conversations b !! (c, user) = None.

(** The state of a conversation is one of the five awaiting states, or
    there is no conversation. *)
Definition known_state (st : option Z) : Prop :=
  st = None \/ exists s, st = Some s /\ In s awaiting_states.

(** The four fields [app_amount] reads besides the one it has just set. *)
Definition earlier_fields : list string := ["Cash"; "Card"; "Uber"; "Deliveroo"].




(** The bot after one complete entry by Ann. *)
Definition one_entry : Bot :=
  run_bot bot_initial
    [(command_message "start" ann, noon);
     (text_message (str_of "50") ann, noon);
     (text_message (str_of "20") ann, noon);
     (text_message (str_of "10") ann, noon);
     (text_message (str_of "5") ann, noon);
     (text_message (str_of "15") ann, noon)].

(** Ann, with Cash entered in her private chat, sends /start in the group. *)
Definition started_in_kitchen : Bot :=
  process_update cash_entered (new_message (command_text "start" ann kitchen)) noon.

(** *** The conversation as a transition table *)

(** The prompt that asks for the amount of a state. *)
Definition ask_prompt (s : Z) : string := "Enter " +:+ field_of s +:+ " amount:".

(** What one update does to the state and the world it finds, case by
    case. An update that is ignored is not handled, or its handler raised
    before it had done anything (an edited message). *)
Inductive transition (u : Update) (env : Env) : config -> config -> Prop :=
| transition_start w :
    is_start u = true ->
    transition u env (None, w)
      (Some CASH, with_effects w (user_data w) [reply_text (ask_prompt CASH)])
| transition_idle w :
    is_start u = false ->
    transition u env (None, w) (None, w)
| transition_refused s w :
    In s awaiting_states ->
    is_amount_message u = true ->
    is_number (message_text u) = Ok false ->
    transition u env (Some s, w)
      (Some s, with_effects w (user_data w) [reply_text (refusal_prompt s)])
| transition_accepted s w :
    In s [CASH; CARD; UBER; DELIVEROO] ->
    is_amount_message u = true ->
    is_number (message_text u) = Ok true ->
    transition u env (Some s, w)
      (Some (s + 1)%Z,
       with_effects w (<[field_of s := message_text u]> (user_data w))
         [reply_text (ask_prompt (s + 1))])
| transition_flush w v1 v2 v3 v4 :
    is_amount_message u = true ->
    is_number (message_text u) = Ok true ->
    user_data w !! "Cash" = Some v1 ->
    user_data w !! "Card" = Some v2 ->
    user_data w !! "Uber" = Some v3 ->
    user_data w !! "Deliveroo" = Some v4 ->
    transition u env (Some APP, w)
      (None,
       with_effects w ∅
         ([print "DEBUG: Writing to sheet:"
             [PStr (now env); PStr (sender_name u);
              v1; v2; v3; v4; message_text u];
           append_row
             [now env; sender_name u;
              py_str v1; py_str v2; py_str v3; py_str v4;
              py_str (message_text u)]
             (append_row_raises env)]
          ++ after_append (append_row_raises env)))
| transition_missing w k :
    is_amount_message u = true ->
    is_number (message_text u) = Ok true ->
    In k earlier_fields ->
    user_data w !! k = None ->
    transition u env (Some APP, w)
      (Some APP,
       {| user_data := <["App" := message_text u]> (user_data w);
          effects := effects w |})
| transition_cancel s w :
    In s awaiting_states ->
    is_cancel u = true ->
    transition u env (Some s, w)
      (None, with_effects w ∅ [reply_text "Entry cancelled."])
| transition_edited_cancel s w :
    In s awaiting_states ->
    is_edited_cancel u = true ->
    transition u env (Some s, w)
      (Some s, {| user_data := ∅; effects := effects w |})
| transition_ignored s w :
    In s awaiting_states ->
    is_amount_message u = false ->
    is_cancel u = false ->
    is_edited_cancel u = false ->
    transition u env (Some s, w) (Some s, w).

(** The texts sent to the user among some effects. *)
Definition replies (es : list effect) : list string :=
  flat_map (fun e => match e with
                     | reply_text msg => [msg]
                     | _ => []
                     end) es.

(** A callback that answers once when it returns and not at all when it
    raises. *)
Definition answers_once (f : Update -> M Z) : Prop :=
  forall u env w,
    (exists s w' msg,
       f u env w = (Ok s, w') /\
       replies (effects w') = replies (effects w) ++ [msg]) \/
    (exists e w',
       f u env w = (Raise e, w') /\
       replies (effects w') = replies (effects w)).

(** A world without its past effects. *)
Definition forget (w : World) : World :=
  {| user_data := user_data w; effects := [] |}.

(** A computation that neither reads nor drops the effects so far: it does
    what it does without them, after them. *)
Definition uniform {A : Type} (m : M A) : Prop :=
  forall env w,
    m env w
    = (fst (m env (forget w)),
       {| user_data := user_data (snd (m env (forget w)));
          effects := effects w ++ effects (snd (m env (forget w))) |}).

(** Two configurations with the same state, the same session and the same
    calls of the sheet; their replies and prints may differ. *)
Definition same_session (c1 c2 : config) : Prop :=
  fst c1 = fst c2 /\
  user_data (snd c1) = user_data (snd c2) /\
  sink_calls (effects (snd c1)) = sink_calls (effects (snd c2)).

(** An amount message whose text [is_number] refuses. *)
Definition refused (e : Update * Env) : bool :=
  is_amount_message (fst e)
  && match is_number (message_text (fst e)) with
     | Ok false => true
     | _ => false
     end.

(** A row of the sheet: seven cells, the last five of them texts that
    [is_number] accepts. *)
Definition row_ok (call : list pystr * bool) : Prop :=
  length (fst call) = 7%nat /\
  Forall (fun cell => is_number (PStr cell) = Ok true) (drop 2 (fst call)).

(** Every value of the session is a text that [is_number] accepts. *)
Definition session_valid (ud : gmap string pyval) : Prop :=
  map_Forall (fun _ v => exists t, v = PStr t /\ is_number (PStr t) = Ok true) ud.

(** ** The health check server *)

Module Health.

Inductive http_method : Type := GET | HEAD | OPTIONS | POST | PUT | DELETE | PATCH.

(** [def health(): return 'OK', 200] *)
Definition health (_ : unit) : string * Z := ("OK", 200%Z).

Record Rule : Type := {
  rule : string;
  endpoint : string;
  view_func : unit -> string * Z
}.

(** [@health_app.route(rule)] on a view function: the rule answers GET (and
    Flask adds HEAD and OPTIONS). *)
Definition route (r : string) (name : string) (f : unit -> string * Z) : Rule :=
  {| rule := r; endpoint := name; view_func := f |}.

(** The three decorators on [health], applied from the innermost outwards. *)
Definition health_app : list Rule :=
  [route "/healthz" "health" health;
   route "/health" "health" health;
   route "/" "health" health].

Inductive response : Type :=
| view_response (body : string) (status : Z)
| head_response (status : Z)
| options_response
| not_found
| method_not_allowed.

Definition match_rule (app : list Rule) (path : string) : option Rule :=
  List.find (fun r => String.eqb (rule r) path) app.

Definition dispatch_request (app : list Rule) (method : http_method)
    (path : string) : response :=
  match match_rule app path with
  | None => not_found
  | Some r =>
      match method with
      | GET => let '(body, status) := view_func r tt in view_response body status
      | HEAD => let '(_, status) := view_func r tt in head_response status
      | OPTIONS => options_response
      | _ => method_not_allowed
      end
  end.

End Health.

(** ** The texts [float()] accepts, stated as a grammar

    The language reference gives the syntax of [float(str)]:
    [floatvalue ::= [sign] (floatnumber | infinity | nan)] with
    [floatnumber ::= number [exponent]],
    [number ::= [digitpart] "." digitpart | digitpart ["."]] and
    [exponent ::= ("e" | "E") [sign] digitpart], letter case ignored in
    [inf], [infinity] and [nan], white space allowed around the value and
    single underscores allowed between digits. *)

Module FloatSyntax.

Definition digits (d : pystr) : Prop := Forall (fun c => is_digit c = true) d.

Definition sign (p : pystr) : Prop := p = [] \/ p = [c_plus] \/ p = [c_minus].

Definition number (m : pystr) : Prop :=
  exists ip fp, digits ip /\ digits fp /\
    ((m = ip /\ ip <> []) \/ (m = ip ++ c_dot :: fp /\ ip ++ fp <> [])).

Definition exponent (e : pystr) : Prop :=
  exists c sg d, e = c :: sg ++ d /\ (c = c_lower_e \/ c = c_upper_E) /\
    sign sg /\ digits d /\ d <> [].

Definition floatnumber (a : pystr) : Prop :=
  exists m e, a = m ++ e /\ number m /\ (e = [] \/ exponent e).

Definition special (a : pystr) : Prop :=
  map Py_TOLOWER a = str_of "inf" \/
  map Py_TOLOWER a = str_of "infinity" \/
  map Py_TOLOWER a = str_of "nan".

Definition floatvalue (b : pystr) : Prop :=
  exists sg a, b = sg ++ a /\ sign sg /\ (floatnumber a \/ special a).

Definition spaces (l : pystr) : Prop := Forall (fun c => Py_ISSPACE c = true) l.

(** Every underscore stands between two digits. *)
Definition underscores_between_digits (t : pystr) : Prop :=
  forall p q, t = p ++ c_underscore :: q ->
    (exists p' a, p = p' ++ [a] /\ is_digit a = true) /\
    (exists b q', q = b :: q' /\ is_digit b = true).

Definition without_underscores (t : pystr) : pystr :=
  List.filter (fun c => negb (c =? c_underscore)) t.

(** A text [float()] converts: once non-ASCII spaces and decimal digits are
    written in ASCII, every underscore is between digits and, without the
    underscores, the text is a float value between white space. *)
Definition float_text (s : pystr) : Prop :=
  let t := TransformDecimalAndSpaceToASCII s in
  underscores_between_digits t /\
  exists l b r, without_underscores t = l ++ b ++ r /\
    spaces l /\ spaces r /\ floatvalue b.

(** The number of the specification: "integer or decimal, optionally signed;
    no locale-specific grouping", a finite real number written in digits. *)
Definition spec_real_number (s : pystr) : Prop :=
  exists sg m, s = sg ++ m /\ sign sg /\ number m.

(** *** Auxiliary notions for the proofs *)

(** The first character of [a], if any, is no sign. *)
Definition no_sign_ahead (a : pystr) : Prop :=
  match a with
  | [] => True
  | c :: _ => c <> c_minus /\ c <> c_plus
  end.

(** The first character of [r], if any, is no digit. *)
Definition no_digit_ahead (r : pystr) : Prop :=
  match r with
  | [] => True
  | c :: _ => is_digit c = false
  end.

(** No character is white space. *)
Definition nonspaces (l : pystr) : Prop := Forall (fun c => Py_ISSPACE c = false) l.

(** The loop's condition on [prev] and the characters still to read. *)
Fixpoint underscores_ok (prev : N) (t : pystr) : Prop :=
  match t with
  | [] => prev <> c_underscore
  | c :: r =>
      (c = c_underscore -> is_digit prev = true) /\
      (prev = c_underscore -> is_digit c = true) /\
      underscores_ok c r
  end.

(** A digit follows. *)
Definition digit_ahead (q : pystr) : Prop :=
  exists b q', q = b :: q' /\ is_digit b = true.

(** Every underscore of [t] follows a digit ([prev] when it is the first
    character) and precedes one. *)
Definition underscores_after (prev : N) (t : pystr) : Prop :=
  forall p q, t = p ++ c_underscore :: q ->
    is_digit (List.last p prev) = true /\ digit_ahead q.

(** The characters of a plain number. *)
Definition plain_char (c : N) : Prop :=
  is_digit c = true \/ c = c_dot \/ c = c_plus \/ c = c_minus.

(** The ASCII characters a text that [float()] converts can hold: digits, the
    signs, the point, the underscore, white space, and the letters of the
    exponent and of inf, infinity and nan in either case. *)
Definition float_ascii (c : N) : Prop :=
  c < 127 /\
  (is_digit c = true \/ c = c_plus \/ c = c_minus \/ c = c_dot \/
   c = c_underscore \/ Py_ISSPACE c = true \/
   In (Py_TOLOWER c) (str_of "aefinty")).

(** The characters such a text can hold: those, and beyond ASCII the spaces
    and the decimal digits of Unicode. *)
Definition float_char (c : N) : Prop :=
  float_ascii c \/
  (127 <= c /\ (Py_UNICODE_ISSPACE c = true \/ Py_UNICODE_TODECIMAL c <> None)).

End FloatSyntax.

(** ** Start-up: configuration and the spreadsheet

    The module reads its configuration from the environment and connects to
    the spreadsheet before any handler runs. What base64, json, oauth2client
    and gspread do is not this program's: their functions are parameters. *)

Module Startup.

Inductive outcome (E A : Type) : Type :=
| Returned (a : A)
| Raised (e : E).

Arguments Returned {E A} a.
Arguments Raised {E A} e.

(** The libraries the start-up calls. *)
Record Libraries : Type := {
  lib_exn : Type;       (* the exceptions they raise, all of them [Exception]s *)
  bytes : Type;
  json : Type;
  credentials : Type;
  gclient : Type;
  worksheet : Type;
  (** [base64.b64decode] *)
  b64decode : pystr -> outcome lib_exn bytes;
  (** [bytes.decode('utf-8')] *)
  decode_utf8 : bytes -> outcome lib_exn pystr;
  (** [json.loads] *)
  json_loads : pystr -> outcome lib_exn json;
  (** [ServiceAccountCredentials.from_json_keyfile_dict] *)
  from_json_keyfile_dict : json -> list pystr -> outcome lib_exn credentials;
  (** [creds.service_account_email], when [hasattr] finds it *)
  service_account_email : credentials -> option pystr;
  (** [gspread.authorize] *)
  authorize : credentials -> outcome lib_exn gclient;
  (** [client.openall()], as the titles of the spreadsheets *)
  openall : gclient -> outcome lib_exn (list pystr);
  (** [client.open(name).sheet1] *)
  open_sheet1 : gclient -> pystr -> outcome lib_exn worksheet
}.

(** The exceptions of the start-up: the three the module raises itself, by
    their messages, and those of the libraries. *)
Inductive startup_exn (E : Type) : Type :=
| NoToken         (* ValueError: No TELEGRAM_BOT_TOKEN found in environment variables *)
| NoSheetName     (* ValueError: No SHEET_NAME found in environment variables *)
| NoCredentials   (* Exception: No Google credentials found in environment variables! *)
| Library (e : E).

Arguments NoToken {E}.
Arguments NoSheetName {E}.
Arguments NoCredentials {E}.
Arguments Library {E} e.

(** What is printed. *)
Inductive line (E : Type) : Type :=
| say (msg : string)
| say_text (msg : string) (value : pystr)          (* an f-string with a text *)
| say_list (msg : string) (values : list pystr)    (* an f-string with a list *)
| say_error (msg : string) (e : startup_exn E).    (* an f-string with the exception *)

Arguments say {E} msg.
Arguments say_text {E} msg value.
Arguments say_list {E} msg values.
Arguments say_error {E} msg e.

(** A computation of the start-up: how it ends and what it printed. *)
Definition Out (E A : Type) : Type :=
  outcome (startup_exn E) A * list (line E).

Definition out_ret {E A : Type} (a : A) : Out E A := (Returned a, []).

Definition out_raise {E A : Type} (e : startup_exn E) : Out E A := (Raised e, []).

Definition out_bind {E A B : Type} (c : Out E A) (k : A -> Out E B) : Out E B :=
  match c with
  | (Returned a, ls) => let '(r, ls') := k a in (r, ls ++ ls')
  | (Raised e, ls) => (Raised e, ls)
  end.

Definition out_print {E : Type} (l : line E) : Out E unit := (Returned tt, [l]).

(** A call of a library function. *)
Definition call {E A : Type} (r : outcome E A) : Out E A :=
  match r with
  | Returned a => (Returned a, [])
  | Raised e => (Raised (Library e), [])
  end.

(** [try: body / except Exception as e: print(...); raise] *)
Definition try_print_raise {E A : Type} (body : Out E A)
    (on_error : startup_exn E -> list (line E)) : Out E A :=
  match body with
  | (Raised e, ls) => (Raised e, ls ++ on_error e)
  | r => r
  end.

(** [try: body / except Exception as e: print(...)] *)
Definition try_print {E : Type} (body : Out E unit)
    (on_error : startup_exn E -> list (line E)) : Out E unit :=
  match body with
  | (Raised e, ls) => (Returned tt, ls ++ on_error e)
  | r => r
  end.

Declare Scope startup_scope.
Delimit Scope startup_scope with startup.
Notation "x <- c ;; k" := (out_bind c (fun x => k))
  (at level 100, c at next level, k at level 200, right associativity)
  : startup_scope.
Notation "c ;; k" := (out_bind c (fun _ => k))
  (at level 100, k at level 200, right associativity) : startup_scope.
Local Open Scope startup_scope.

(** [os.environ.get(key)], and the environment with a variable set or unset. *)
Definition getenv (environ : gmap string pystr) (key : string) : option pystr :=
  environ !! key.

Definition setenv (key : string) (value : pystr) (environ : gmap string pystr)
  : gmap string pystr :=
  <[key := value]> environ.

Definition unsetenv (key : string) (environ : gmap string pystr)
  : gmap string pystr :=
  delete key environ.

(** A variable that is unset or empty is false for [if]. *)
Definition truthy (value : option pystr) : bool :=
  match value with
  | Some (_ :: _) => true
  | _ => false
  end.

Definition scope : list pystr :=
  [str_of "https://spreadsheets.google.com/feeds";
   str_of "https://www.googleapis.com/auth/drive"].

Definition get_google_credentials (L : Libraries) (environ : gmap string pystr)
  : Out (lib_exn L) (credentials L) :=
  match getenv environ "GOOGLE_CREDENTIALS_BASE64" with
  | Some (c :: rest) =>
      try_print_raise
        (let encoded_creds := c :: rest in
         decoded_bytes <- call (b64decode L encoded_creds) ;;
         decoded_creds <- call (decode_utf8 L decoded_bytes) ;;
         credentials_info <- call (json_loads L decoded_creds) ;;
         out_print (say "✅ Using base64 encoded credentials from env var") ;;
         call (from_json_keyfile_dict L credentials_info scope))
        (fun e => [say_error "❌ Error loading base64 credentials:" e])
  | _ =>
      match getenv environ "GOOGLE_CREDENTIALS" with
      | Some (c :: rest) =>
          try_print_raise
            (credentials_info <- call (json_loads L (c :: rest)) ;;
             out_print (say "✅ Using JSON credentials from env var") ;;
             call (from_json_keyfile_dict L credentials_info scope))
            (fun e => [say_error "❌ Error loading JSON credentials:" e])
      | _ => out_raise NoCredentials
      end
  end.

(** The block that authorizes and opens the first worksheet of [SHEET_NAME]. *)
Definition connect (L : Libraries) (environ : gmap string pystr)
    (SHEET_NAME : pystr) : Out (lib_exn L) (worksheet L) :=
  try_print_raise
    (creds <- get_google_credentials L environ ;;
     match service_account_email L creds with
     | Some email => out_print (say_text "🔑 Using service account:" email)
     | None => out_ret tt
     end ;;
     client <- call (authorize L creds) ;;
     try_print
       (all_sheets <- call (openall L client) ;;
        match all_sheets with
        | _ :: _ => out_print (say_list "Available sheets:" all_sheets)
        | [] => out_ret tt
        end)
       (fun e => [say_error "Note: Could not list all sheets:" e]) ;;
     sheet <- call (open_sheet1 L client SHEET_NAME) ;;
     out_print (say_text "✅ Successfully connected to sheet:" SHEET_NAME) ;;
     out_ret sheet)
    (fun e =>
       [say_error "❌ Failed to connect to Google Sheets:" e;
        say "Make sure you've set up GOOGLE_CREDENTIALS_BASE64 or GOOGLE_CREDENTIALS in Render env vars"]).

(** The configuration of the module, in the order it is read: the token, the
    name of the sheet, then the connection. *)
Definition configuration (L : Libraries) (environ : gmap string pystr)
  : Out (lib_exn L) (pystr * pystr * worksheet L) :=
  match getenv environ "TELEGRAM_BOT_TOKEN" with
  | Some (c :: rest) =>
      let TOKEN := c :: rest in
      match getenv environ "SHEET_NAME" with
      | Some (c' :: rest') =>
          let SHEET_NAME := c' :: rest' in
          sheet <- connect L environ SHEET_NAME ;;
          out_ret (TOKEN, SHEET_NAME, sheet)
      | _ => out_raise NoSheetName
      end
  | _ => out_raise NoToken
  end.

(** The variables the configuration reads. *)
Definition configuration_variables : list string :=
  ["TELEGRAM_BOT_TOKEN"; "SHEET_NAME"; "GOOGLE_CREDENTIALS_BASE64";
   "GOOGLE_CREDENTIALS"].

(** The same libraries with another [client.openall]. *)
Definition with_openall (L : Libraries)
    (f : gclient L -> outcome (lib_exn L) (list pystr)) : Libraries :=
  {| lib_exn := lib_exn L; bytes := bytes L; json := json L;
     credentials := credentials L; gclient := gclient L; worksheet := worksheet L;
     b64decode := b64decode L; decode_utf8 := decode_utf8 L;
     json_loads := json_loads L;
     from_json_keyfile_dict := from_json_keyfile_dict L;
     service_account_email := service_account_email L;
     authorize := authorize L; openall := f; open_sheet1 := open_sheet1 L |}.

(** Libraries for the examples: every call returns, and a worksheet is its
    name. *)
Definition sample_libraries : Libraries :=
  {| lib_exn := unit; bytes := pystr; json := pystr; credentials := pystr;
     gclient := pystr; worksheet := pystr;
     b64decode := fun s => Returned s;
     decode_utf8 := fun b => Returned b;
     json_loads := fun s => Returned s;
     from_json_keyfile_dict := fun j _ => Returned j;
     service_account_email := fun _ => None;
     authorize := fun c => Returned c;
     openall := fun _ => Returned [];
     open_sheet1 := fun _ name => Returned name |}.

(** A complete environment for the examples. *)
Definition sample_environ : gmap string pystr :=
  setenv "GOOGLE_CREDENTIALS" (str_of "{}")
    (setenv "SHEET_NAME" (str_of "Takings")
       (setenv "TELEGRAM_BOT_TOKEN" (str_of "123:abc") ∅)).

End Startup.

(** ** The health server's port *)

Module Server.

Import Startup.

(** What [run_health_server] does: a line printed, and the call of
    [health_app.run]. *)
Inductive server_effect : Type :=
| printed (text : pystr)
| app_run (host : string) (port : Z).

(** [os.environ.get('PORT', 10000)] *)
Definition environ_get_PORT (environ : gmap string pystr) : pyval :=
  match getenv environ "PORT" with
  | Some text => PStr text
  | None => PInt 10000
  end.

(** [f"Starting health check server on port {port}..."] *)
Definition starting_line (port : Z) : pystr :=
  str_of "Starting health check server on port " ++ py_str (PInt port)
  ++ str_of "...".

(** [run_health_server()]: what it did, and the exception of [int()] if it
    raised. [max_str_digits] is the interpreter's limit on the digits of a
    numeral. *)
Definition run_health_server (max_str_digits : Z) (environ : gmap string pystr)
  : result unit * list server_effect :=
  match PyInt.int max_str_digits (environ_get_PORT environ) with
  | Ok port => (Ok tt, [printed (starting_line port); app_run "0.0.0.0" port])
  | Raise e => (Raise e, [])
  end.

(** The server announced and started on [port]. *)
Definition served (port : Z) : result unit * list server_effect :=
  (Ok tt, [printed (starting_line port); app_run "0.0.0.0" port]).

End Server.

(** ** The texts [int()] converts *)

Module IntSyntax.

Import FloatSyntax.

(** What can follow the first digit: [(["_"] digit)*]. *)
Inductive digit_tail : pystr -> Prop :=
| tail_end : digit_tail []
| tail_digit c t :
    is_digit c = true -> digit_tail t -> digit_tail (c :: t)
| tail_underscore c t :
    is_digit c = true -> digit_tail t -> digit_tail (c_underscore :: c :: t).

(** [digit (["_"] digit)*]: digits with single underscores between them. *)
Definition digitpart (d : pystr) : Prop :=
  exists c t, d = c :: t /\ is_digit c = true /\ digit_tail t.

(** The integer a sign and a digit part stand for. *)
Definition integer_value (sg d : pystr) : Z :=
  let z := Z.of_N (PyFloat.digits_value (without_underscores d)) in
  if decide (sg = [c_minus]) then (- z)%Z else z.

(** A text [int()] converts to [z]: once non-ASCII spaces and decimal digits
    are written in ASCII it is a sign and a digit part between white space,
    with no more digits than the interpreter allows. *)
Definition integer_text (max_str_digits : Z) (s : pystr) (z : Z) : Prop :=
  exists l sg d r,
    TransformDecimalAndSpaceToASCII s = l ++ sg ++ d ++ r /\
    spaces l /\ sign sg /\ digitpart d /\ spaces r /\
    PyInt.too_many_digits max_str_digits
      (Z.of_nat (length (without_underscores d))) = false /\
    z = integer_value sg d.

(** The decimal numeral of a natural number, as [str()] writes it. *)
Definition numeral (n : N) : pystr := str_of (pretty n).

(** *** Auxiliary notions for the proofs *)

(** Nothing the digit loop reads follows. *)
Definition no_digit_or_underscore_ahead (r : pystr) : Prop :=
  match r with
  | [] => True
  | c :: _ => is_digit c = false /\ c <> c_underscore
  end.

End IntSyntax.

(** ** Scanning lemmas *)

Section Scanning.

Import PyFloat FloatSyntax.

#[local] Arguments is_digit : simpl never.
#[local] Arguments Py_ISSPACE : simpl never.
#[local] Arguments Py_TOLOWER : simpl never.

Lemma str_inf : str_of "inf" = [105; 110; 102].
Proof. reflexivity. Qed.

Lemma str_inity : str_of "inity" = [105; 110; 105; 116; 121].
Proof. reflexivity. Qed.

Lemma str_infinity : str_of "infinity" = [105; 110; 102; 105; 110; 105; 116; 121].
Proof. reflexivity. Qed.

Lemma str_nan : str_of "nan" = [110; 97; 110].
Proof. reflexivity. Qed.

(** Unfold the character tests into arithmetic. *)
Ltac chars :=
  unfold is_digit, Py_ISSPACE, Py_TOLOWER, c_tab, c_cr, c_space, c_plus,
    c_minus, c_dot, c_zero, c_nine, c_question, c_upper_A, c_upper_E,
    c_upper_Z, c_underscore, c_lower_e in *.

Ltac char_cases :=
  chars;
  repeat match goal with
         | |- context [N.eqb ?a ?b] => destruct (N.eqb_spec a b)
         | |- context [N.leb ?a ?b] => destruct (N.leb_spec a b)
         | H : context [N.eqb ?a ?b] |- _ => destruct (N.eqb_spec a b)
         | H : context [N.leb ?a ?b] |- _ => destruct (N.leb_spec a b)
         end;
  simpl in *; try congruence; try lia.

Lemma digit_not_space c : is_digit c = true -> Py_ISSPACE c = false.
Proof. char_cases. Qed.

Lemma digit_not_sign c : is_digit c = true -> c <> c_minus /\ c <> c_plus.
Proof. char_cases. Qed.

Lemma digit_not_underscore c : is_digit c = true -> c <> c_underscore.
Proof. char_cases. Qed.

Lemma scan_sign_spec s neg r :
  scan_sign s = (neg, r) -> exists sg, s = sg ++ r /\ sign sg.
Proof.
  unfold scan_sign, sign. destruct s as [|c s'].
  - intros [= <- <-]. exists []. auto.
  - destruct (N.eqb_spec c c_minus) as [->|].
    + intros [= <- <-]. exists [c_minus]. auto.
    + destruct (N.eqb_spec c c_plus) as [->|].
      * intros [= <- <-]. exists [c_plus]. auto.
      * intros [= <- <-]. exists []. auto.
Qed.

Lemma scan_sign_app sg a :
  sign sg -> no_sign_ahead a -> exists neg, scan_sign (sg ++ a) = (neg, a).
Proof.
  intros [-> | [-> | ->]] Ha; unfold scan_sign; simpl.
  - destruct a as [|c a']; [eauto|]. destruct Ha as [H1 H2].
    destruct (N.eqb_spec c c_minus); [done|].
    destruct (N.eqb_spec c c_plus); [done|]. eauto.
  - eauto.
  - eauto.
Qed.

Lemma scan_digits_spec s d r :
  scan_digits s = (d, r) -> s = d ++ r /\ digits d /\ no_digit_ahead r.
Proof.
  revert d r. induction s as [|c s IH]; intros d r; simpl.
  - intros [= <- <-]. repeat split. constructor.
  - destruct (is_digit c) eqn:Hc.
    + destruct (scan_digits s) as [d' t] eqn:Hs. intros [= <- <-].
      destruct (IH _ _ eq_refl) as (-> & Hd & Hr).
      repeat split; [by constructor | done].
    + intros [= <- <-]. repeat split; [constructor | done].
Qed.

Lemma scan_digits_app d r :
  digits d -> no_digit_ahead r -> scan_digits (d ++ r) = (d, r).
Proof.
  intros Hd Hr. induction Hd as [|c d Hc _ IH]; simpl.
  - destruct r as [|c r']; [done|]. simpl in *. by rewrite Hr.
  - by rewrite Hc, IH.
Qed.

Lemma case_insensitive_match_spec t s r :
  case_insensitive_match s t = Some r <->
  exists p, s = p ++ r /\ map Py_TOLOWER p = t.
Proof.
  revert s. induction t as [|x t IH]; intros s; simpl.
  - split.
    + intros [= <-]. by exists [].
    + intros (p & -> & Hp). by destruct p.
  - destruct s as [|c s'].
    + split; [done|]. intros (p & Hs & Hp). by destruct p.
    + destruct (N.eqb_spec (Py_TOLOWER c) x) as [Hx|Hx].
      * rewrite IH. split.
        -- intros (p & -> & Hp). exists (c :: p). simpl. by rewrite Hx, Hp.
        -- intros (p & Hs & Hp). destruct p as [|c' p]; [done|].
           simpl in *. injection Hs as <- ->. injection Hp as _ Hp. eauto.
      * split; [done|]. intros (p & Hs & Hp). destruct p as [|c' p]; [done|].
        simpl in *. injection Hs as <- ->. by injection Hp as Hp' _.
Qed.

Lemma scan_exponent_all s z :
  scan_exponent s = (z, []) -> s = [] \/ exponent s.
Proof.
  unfold scan_exponent. destruct s as [|c r]; [auto|].
  destruct ((c =? c_lower_e) || (c =? c_upper_E)) eqn:Hc; [|done].
  destruct (scan_sign r) as [neg r1] eqn:Hsg.
  destruct (scan_digits r1) as [d r2] eqn:Hd.
  destruct d as [|d0 d]; [done|]. intros [= _ ->]. right.
  apply scan_sign_spec in Hsg as (sg & -> & Hsg).
  apply scan_digits_spec in Hd as (-> & Hd & _).
  exists c, sg, (d0 :: d). rewrite app_nil_r. repeat split; try done.
  apply orb_true_iff in Hc as [Hc|Hc]; apply N.eqb_eq in Hc; auto.
Qed.

Lemma digits_no_sign_ahead d : digits d -> no_sign_ahead d.
Proof.
  intros [|c d' Hc _]; simpl; [done|]. by apply digit_not_sign.
Qed.

Lemma scan_exponent_ok e :
  e = [] \/ exponent e -> exists z, scan_exponent e = (z, []).
Proof.
  intros [-> | (c & sg & d & -> & Hc & Hsg & Hd & Hne)];
    unfold scan_exponent; [eauto|].
  replace ((c =? c_lower_e) || (c =? c_upper_E)) with true
    by (destruct Hc as [-> | ->]; reflexivity).
  destruct (scan_sign_app sg d Hsg (digits_no_sign_ahead d Hd)) as [neg ->].
  assert (scan_digits d = (d, [])) as ->.
  { pose proof (scan_digits_app d [] Hd I) as H. by rewrite app_nil_r in H. }
  destruct d; [done|]. eauto.
Qed.

(** The first character of an exponent, or of nothing, is neither a digit nor
    a point. *)
Lemma exponent_ahead e :
  e = [] \/ exponent e ->
  no_digit_ahead e /\ match e with [] => True | c :: _ => c <> c_dot end.
Proof.
  intros [-> | (c & sg & d & -> & Hc & _)]; simpl; [done|].
  destruct Hc as [-> | ->]; done.
Qed.

Lemma dg_strtod_all b x : dg_strtod b = Some (x, []) -> floatvalue b.
Proof.
  unfold dg_strtod.
  destruct (scan_sign b) as [neg s1] eqn:Hsg.
  destruct (scan_digits s1) as [ip s2] eqn:Hip.
  apply scan_sign_spec in Hsg as (sg & -> & Hsg).
  apply scan_digits_spec in Hip as (-> & Hip & _).
  intros H. exists sg, (ip ++ s2). split; [done|]. split; [done|]. left.
  destruct s2 as [|c r].
  - (* digits only *)
    rewrite app_nil_r in H. destruct ip as [|i0 ip]; [done|].
    exists (i0 :: ip), []. split; [by rewrite !app_nil_r|]. split; [|auto].
    exists (i0 :: ip), []. split; [done|]. split; [constructor|]. by left.
  - destruct (N.eqb_spec c c_dot) as [->|Hc].
    + (* a point and the fraction *)
      destruct (scan_digits r) as [fp s3] eqn:Hfp.
      apply scan_digits_spec in Hfp as (-> & Hfp & _).
      destruct (ip ++ fp) as [|m0 m] eqn:Hm; [done|].
      destruct (scan_exponent s3) as [e s4] eqn:He.
      injection H as _ ->. apply scan_exponent_all in He.
      exists (ip ++ c_dot :: fp), s3. split; [by rewrite <- app_assoc|].
      split; [|done]. exists ip, fp. split; [done|]. split; [done|].
      right. split; [done|]. by rewrite Hm.
    + (* no point: the rest is the exponent *)
      rewrite app_nil_r in H. destruct ip as [|i0 ip]; [done|].
      destruct (scan_exponent (c :: r)) as [e s4] eqn:He.
      injection H as _ ->. apply scan_exponent_all in He.
      exists (i0 :: ip), (c :: r). split; [done|]. split; [|done].
      exists (i0 :: ip), []. split; [done|]. split; [constructor|]. by left.
Qed.

Lemma number_no_sign_ahead m e : number m -> no_sign_ahead (m ++ e).
Proof.
  intros (ip & fp & Hip & Hfp & [[-> Hne] | [-> Hne]]).
  - destruct Hip as [|c ip' Hc _]; [done|]. simpl. by apply digit_not_sign.
  - destruct Hip as [|c ip' Hc _]; simpl; [done|]. by apply digit_not_sign.
Qed.

Lemma dg_strtod_floatnumber sg a :
  sign sg -> floatnumber a -> exists x, dg_strtod (sg ++ a) = Some (x, []).
Proof.
  intros Hsg (m & e & -> & Hm & He). unfold dg_strtod.
  destruct (scan_sign_app sg (m ++ e) Hsg (number_no_sign_ahead m e Hm)) as [neg ->].
  destruct (exponent_ahead e He) as [Hnd Hndot].
  destruct (scan_exponent_ok e He) as [z Hz].
  destruct Hm as (ip & fp & Hip & Hfp & [[-> Hne] | [-> Hne]]).
  - rewrite (scan_digits_app ip e Hip Hnd).
    destruct ip as [|i0 ip]; [done|].
    destruct e as [|c r].
    + simpl. eauto.
    + destruct (N.eqb_spec c c_dot); [done|].
      cbn [app]. rewrite app_nil_r, Hz. eauto.
  - rewrite <- app_assoc. simpl.
    rewrite (scan_digits_app ip (c_dot :: fp ++ e) Hip); [|done].
    simpl. rewrite (scan_digits_app fp e Hfp Hnd).
    destruct (ip ++ fp); [done|]. rewrite Hz. eauto.
Qed.

(** Rewrite with the known lower-cased characters, one comparison at a time. *)
Ltac lower_all :=
  repeat match goal with
         | H : Py_TOLOWER _ = _ |- _ => rewrite H; simpl
         end.

Lemma letter_head c x :
  Py_TOLOWER c = x -> 97 <= x <= 122 ->
  c <> c_minus /\ c <> c_plus /\ is_digit c = false /\ c <> c_dot /\
  Py_ISSPACE c = false.
Proof. char_cases; repeat split; lia. Qed.

Lemma parse_inf_or_nan_all b x :
  parse_inf_or_nan b = Some (x, []) -> floatvalue b.
Proof.
  unfold parse_inf_or_nan.
  destruct (scan_sign b) as [neg s1] eqn:Hsg.
  apply scan_sign_spec in Hsg as (sg & -> & Hsg).
  intros H. exists sg, s1. split; [done|]. split; [done|]. right.
  unfold special.
  destruct (case_insensitive_match s1 (str_of "inf")) as [r|] eqn:Hinf.
  - apply case_insensitive_match_spec in Hinf as (p & -> & Hp).
    destruct (case_insensitive_match r (str_of "inity")) as [r'|] eqn:Hity.
    + injection H as _ ->.
      apply case_insensitive_match_spec in Hity as (p' & -> & Hp').
      right; left. by rewrite !map_app, Hp, Hp'.
    + injection H as _ ->. left. by rewrite app_nil_r.
  - destruct (case_insensitive_match s1 (str_of "nan")) as [r|] eqn:Hnan; [|done].
    injection H as _ ->.
    apply case_insensitive_match_spec in Hnan as (p & -> & Hp).
    right; right. by rewrite app_nil_r.
Qed.

(** The first character of a special value is a letter. *)
Lemma special_head a :
  special a ->
  exists c a', a = c :: a' /\ c <> c_minus /\ c <> c_plus /\
    is_digit c = false /\ c <> c_dot.
Proof.
  unfold special. rewrite str_inf, str_infinity, str_nan.
  intros [H | [H | H]]; destruct a as [|c a']; try done;
    injection H as Hc _; exists c, a'; split; try done;
    apply letter_head in Hc as (? & ? & ? & ? & _); done.
Qed.

Lemma special_dg_strtod sg a :
  sign sg -> special a -> dg_strtod (sg ++ a) = None.
Proof.
  intros Hsg Ha. destruct (special_head a Ha) as (c & a' & -> & H1 & H2 & H3 & H4).
  unfold dg_strtod.
  destruct (scan_sign_app sg (c :: a') Hsg) as [neg ->]; [done|].
  simpl. rewrite H3. by destruct (N.eqb_spec c c_dot).
Qed.

Lemma special_parse_inf_or_nan sg a :
  sign sg -> special a -> exists x, parse_inf_or_nan (sg ++ a) = Some (x, []).
Proof.
  intros Hsg Ha. destruct (special_head a Ha) as (c & a' & Hca & H1 & H2 & _).
  unfold parse_inf_or_nan.
  destruct (scan_sign_app sg a Hsg) as [neg ->]; [by rewrite Hca|].
  clear Hca H1 H2. revert Ha. unfold special.
  rewrite str_inf, str_infinity, str_nan, str_inity.
  intros [H | [H | H]].
  - destruct a as [|c1 [|c2 [|c3 [|]]]]; try done.
    injection H as H1 H2 H3. simpl. lower_all. eauto.
  - destruct a as [|c1 [|c2 [|c3 [|c4 [|c5 [|c6 [|c7 [|c8 [|]]]]]]]]]; try done.
    injection H as H1 H2 H3 H4 H5 H6 H7 H8. simpl. lower_all. eauto.
  - destruct a as [|c1 [|c2 [|c3 [|]]]]; try done.
    injection H as H1 H2 H3. simpl. lower_all. eauto.
Qed.

(** [_PyOS_ascii_strtod] reads a whole text exactly when it is a float value. *)
Lemma ascii_strtod_floatvalue b :
  (exists x, ascii_strtod b = Some (x, [])) <-> floatvalue b.
Proof.
  unfold ascii_strtod. split.
  - intros [x H]. destruct (dg_strtod b) as [[y r]|] eqn:Hdg.
    + injection H as -> ->. eapply dg_strtod_all, Hdg.
    + eapply parse_inf_or_nan_all, H.
  - intros (sg & a & -> & Hsg & [Ha | Ha]).
    + destruct (dg_strtod_floatnumber sg a Hsg Ha) as [x ->]. eauto.
    + rewrite (special_dg_strtod sg a Hsg Ha).
      apply special_parse_inf_or_nan; done.
Qed.

(** *** White space around the value *)

Lemma lstrip_spec s : exists l, s = l ++ lstrip s /\ spaces l.
Proof.
  induction s as [|c s (l & Hs & Hl)]; simpl.
  - exists []. split; [done|constructor].
  - destruct (Py_ISSPACE c) eqn:Hc.
    + exists (c :: l). split; [by rewrite Hs at 1|by constructor].
    + exists []. split; [done|constructor].
Qed.

Lemma lstrip_app l x : spaces l -> lstrip (l ++ x) = lstrip x.
Proof. induction 1 as [|c l Hc _ IH]; simpl; [done|by rewrite Hc]. Qed.

Lemma lstrip_id x : nonspaces x -> lstrip x = x.
Proof. intros [|c x' Hc _]; simpl; [done|by rewrite Hc]. Qed.

Lemma rstrip_spec r : exists l, r = rstrip r ++ l /\ spaces l.
Proof.
  unfold rstrip. destruct (lstrip_spec (rev r)) as (l & Hr & Hl).
  exists (rev l). split; [|by apply Forall_rev].
  rewrite <- rev_app_distr, <- Hr. by rewrite rev_involutive.
Qed.

Lemma rstrip_app b r : nonspaces b -> spaces r -> rstrip (b ++ r) = b.
Proof.
  intros Hb Hr. unfold rstrip. rewrite rev_app_distr, lstrip_app.
  - rewrite lstrip_id; [apply rev_involutive|by apply Forall_rev].
  - by apply Forall_rev.
Qed.

Lemma digits_nonspaces d : digits d -> nonspaces d.
Proof.
  intros Hd. eapply Forall_impl; [exact Hd|]. intros c. apply digit_not_space.
Qed.

Lemma sign_nonspaces sg : sign sg -> nonspaces sg.
Proof. intros [-> | [-> | ->]]; repeat constructor. Qed.

Lemma number_nonspaces m : number m -> nonspaces m.
Proof.
  intros (ip & fp & Hip & Hfp & [[-> _] | [-> _]]).
  - by apply digits_nonspaces.
  - apply Forall_app. split; [by apply digits_nonspaces|].
    constructor; [done|by apply digits_nonspaces].
Qed.

Lemma exponent_nonspaces e : e = [] \/ exponent e -> nonspaces e.
Proof.
  intros [-> | (c & sg & d & -> & Hc & Hsg & Hd & _)]; [constructor|].
  constructor; [by destruct Hc as [-> | ->]|].
  apply Forall_app. split; [by apply sign_nonspaces|by apply digits_nonspaces].
Qed.

Lemma lower_letters_nonspaces a w :
  map Py_TOLOWER a = w -> Forall (fun x => 97 <= x <= 122) w -> nonspaces a.
Proof.
  revert w. induction a as [|c a IH]; intros w Hw Hall; [constructor|].
  destruct w as [|x w]; [done|]. injection Hw as Hc Ha.
  apply Forall_cons in Hall as [Hx Hall]. constructor; [|by eapply IH].
  by apply (letter_head c x Hc) in Hx as (_ & _ & _ & _ & ?).
Qed.

Lemma special_nonspaces a : special a -> nonspaces a.
Proof.
  unfold special. rewrite str_inf, str_infinity, str_nan.
  intros [H | [H | H]]; apply (lower_letters_nonspaces _ _ H);
    repeat constructor; lia.
Qed.

Lemma floatvalue_nonspaces b : floatvalue b -> nonspaces b.
Proof.
  intros (sg & a & -> & Hsg & Ha). apply Forall_app.
  split; [by apply sign_nonspaces|]. destruct Ha as [(m & e & -> & Hm & He) | Ha].
  - apply Forall_app. split; [by apply number_nonspaces|by apply exponent_nonspaces].
  - by apply special_nonspaces.
Qed.

Lemma floatvalue_nonempty b : floatvalue b -> b <> [].
Proof.
  intros (sg & a & -> & _ & Ha) Hnil. apply app_eq_nil in Hnil as [_ ->].
  destruct Ha as [(m & e & Hme & Hm & _) | Ha].
  - symmetry in Hme. apply app_eq_nil in Hme as [-> _].
    destruct Hm as (ip & fp & _ & _ & [[<- Hne] | [Habs _]]); [done|].
    by destruct ip.
  - by destruct (special_head [] Ha) as (? & ? & ? & _).
Qed.

(** [float_from_string_inner] converts exactly the float values between
    white space. *)
Lemma float_from_string_inner_spec s :
  (exists x, float_from_string_inner s = Ok x) <->
  exists l b r, s = l ++ b ++ r /\ spaces l /\ spaces r /\ floatvalue b.
Proof.
  unfold float_from_string_inner. split.
  - intros [x H]. destruct (lstrip_spec s) as (l & Hs & Hl).
    destruct (lstrip s) as [|c r]; [done|].
    destruct (rstrip_spec r) as (l' & Hr & Hl').
    destruct (ascii_strtod (c :: rstrip r)) as [[y rest]|] eqn:Hy; [|done].
    destruct rest; [|done].
    exists l, (c :: rstrip r), l'. split; [|split; [done|split; [done|]]].
    + rewrite Hs. simpl. by rewrite <- Hr.
    + apply ascii_strtod_floatvalue. eauto.
  - intros (l & b & r & -> & Hl & Hr & Hb).
    pose proof (floatvalue_nonspaces b Hb) as Hns.
    pose proof (floatvalue_nonempty b Hb) as Hne.
    apply ascii_strtod_floatvalue in Hb as [x Hx].
    destruct b as [|c b']; [done|]. apply Forall_cons in Hns as [Hc Hns].
    rewrite lstrip_app by done. simpl. rewrite Hc.
    rewrite (rstrip_app b' r Hns Hr), Hx. eauto.
Qed.

(** *** Underscores *)

Lemma copy_without_underscores_spec t prev dup :
  copy_without_underscores prev t = Some dup <->
  underscores_ok prev t /\ dup = without_underscores t.
Proof.
  revert prev dup. induction t as [|c r IH]; intros prev dup; simpl.
  - destruct (N.eqb_spec prev c_underscore) as [Hp|Hp].
    + split; [done|]. by intros [? _].
    + split; [by intros [= <-]|by intros [_ ->]].
  - destruct (N.eqb_spec c c_underscore) as [Hc|Hc]; simpl.
    + destruct (is_digit prev) eqn:Hd.
      * rewrite IH. split.
        -- intros [Hok ->]. repeat split; try done.
           intros Hp. by apply digit_not_underscore in Hd.
        -- by intros [(_ & _ & Hok) ->].
      * split; [done|]. intros [(H & _) _]. by specialize (H Hc).
    + destruct (N.eqb_spec prev c_underscore) as [Hp|Hp]; simpl.
      * destruct (is_digit c) eqn:Hd; simpl.
        -- destruct (copy_without_underscores c r) as [d'|] eqn:Hcopy; simpl.
           ++ apply IH in Hcopy as [Hok ->]. split.
              ** by intros [= <-].
              ** by intros [_ ->].
           ++ split; [done|]. intros [(_ & _ & Hok) ->].
              assert (copy_without_underscores c r = Some (without_underscores r))
                as Habs by (by apply IH). by rewrite Hcopy in Habs.
        -- split; [done|]. intros [(_ & H & _) _]. by specialize (H Hp).
      * destruct (copy_without_underscores c r) as [d'|] eqn:Hcopy; simpl.
        -- apply IH in Hcopy as [Hok ->]. split.
           ++ by intros [= <-].
           ++ by intros [_ ->].
        -- split; [done|]. intros [(_ & _ & Hok) ->].
           assert (copy_without_underscores c r = Some (without_underscores r))
             as Habs by (by apply IH). by rewrite Hcopy in Habs.
Qed.

Lemma last_cons (c : N) p prev : List.last (c :: p) prev = List.last p c.
Proof.
  revert c prev. induction p as [|a p IH]; intros c prev; [done|].
  change (List.last (c :: a :: p) prev) with (List.last (a :: p) prev).
  by rewrite (IH a prev), (IH a c).
Qed.

Lemma underscores_ok_spec t prev :
  underscores_ok prev t <->
  underscores_after prev t /\ (prev = c_underscore -> digit_ahead t).
Proof.
  revert prev. induction t as [|c r IH]; intros prev; simpl.
  - split.
    + intros Hp. split; [|done]. intros p q Hpq. by destruct p.
    + intros [_ H] Hp. by destruct (H Hp) as (? & ? & ? & _).
  - rewrite IH. split.
    + intros (H1 & H2 & H3 & H4). split.
      * intros p q Hpq. destruct p as [|c' p].
        -- injection Hpq as -> <-. split; [by apply H1|by apply H4].
        -- injection Hpq as <- ->. rewrite last_cons. by apply H3.
      * intros Hp. exists c, r. split; [done|by apply H2].
    + intros [H1 H2]. split; [|split; [|split]].
      * intros ->. by destruct (H1 [] r eq_refl).
      * intros Hp. destruct (H2 Hp) as (b & q' & [= <- <-] & Hb). done.
      * intros p q ->. destruct (H1 (c :: p) q eq_refl) as [Hl Hq].
        by rewrite last_cons in Hl.
      * intros ->. by destruct (H1 [] r eq_refl).
Qed.

Lemma underscores_between_digits_spec t :
  underscores_between_digits t <-> underscores_ok 0 t.
Proof.
  rewrite underscores_ok_spec. split.
  - intros H. split; [|done]. intros p q Hpq.
    destruct (H p q Hpq) as [(p' & a & -> & Ha) Hq]. split; [|done].
    by rewrite last_last.
  - intros [H _] p q Hpq. destruct (H p q Hpq) as [Hl Hq]. split; [|done].
    destruct p as [|c p]; [done|].
    exists (removelast (c :: p)), (List.last (c :: p) 0). split; [|done].
    by apply app_removelast_last.
Qed.

Lemma no_underscore t :
  existsb (N.eqb c_underscore) t = false ->
  without_underscores t = t /\ underscores_between_digits t.
Proof.
  intros H. split.
  - induction t as [|c t IH]; [done|]. cbn [existsb] in H.
    apply orb_false_iff in H as [Hc Ht].
    unfold without_underscores in *. cbn [List.filter].
    rewrite N.eqb_sym, Hc. cbn [negb]. by rewrite IH.
  - intros p q ->. rewrite existsb_app in H. cbn [existsb] in H.
    rewrite N.eqb_refl, orb_true_r in H. done.
Qed.

Lemma string_to_number_with_underscores_spec t :
  (exists x, string_to_number_with_underscores t = Ok x) <->
  underscores_between_digits t /\
  exists l b r, without_underscores t = l ++ b ++ r /\
    spaces l /\ spaces r /\ floatvalue b.
Proof.
  unfold string_to_number_with_underscores.
  destruct (existsb (N.eqb c_underscore) t) eqn:Hex.
  - rewrite underscores_between_digits_spec, <- float_from_string_inner_spec.
    destruct (copy_without_underscores 0 t) as [dup|] eqn:Hcopy.
    + apply copy_without_underscores_spec in Hcopy as [Hok ->]. tauto.
    + split; [by intros [? ?]|]. intros [Hok _].
      assert (copy_without_underscores 0 t = Some (without_underscores t))
        as Habs by (by apply copy_without_underscores_spec).
      by rewrite Hcopy in Habs.
  - destruct (no_underscore t Hex) as [-> Hu].
    rewrite float_from_string_inner_spec. tauto.
Qed.

(** [is_number] answers [True] exactly when [float()] returns. *)
Lemma is_number_true_iff v :
  is_number v = Ok true <-> exists x, PyFloat.float v = Ok x.
Proof.
  unfold is_number, try_except. destruct (PyFloat.float v); split; eauto.
  - done.
  - by intros [? ?].
Qed.

Lemma is_number_float_text s :
  is_number (PStr s) = Ok true <-> float_text s.
Proof.
  rewrite is_number_true_iff. apply string_to_number_with_underscores_spec.
Qed.

End Scanning.

(** ** The conversation, one update at a time *)

(** Project a configuration without computing its maps. *)
Ltac simpl_config := cbn [fst snd user_data effects with_effects].

(** Run a handler: unfold the monad and compute. *)
Ltac run_handler :=
  unfold cash, card, uber, deliveroo, app_amount, cancel, start,
    update_message_text, update_message_reply_text,
    update_message_from_user_full_name, update_message,
    try_except_Exception, sheet_append_row, strftime_now, user_data_clear,
    get_item, set_item, emit, lift, bind, ret, with_effects.

Section Steps.

Variables (u : Update) (env : Env) (w : World).

Lemma is_number_total v : exists b, is_number v = Ok b.
Proof.
  unfold is_number, try_except. destruct (PyFloat.float v); eauto.
Qed.

Lemma is_number_empty : is_number (PStr []) = Ok false.
Proof. reflexivity. Qed.

Lemma is_number_None : is_number PNone = Ok false.
Proof. reflexivity. Qed.

(** An accepted text is the text of a message. *)
Lemma accepted_has_message :
  is_number (message_text u) = Ok true -> message u <> None.
Proof. unfold message_text. by destruct (message u). Qed.

Lemma amount_has_message : is_amount_message u = true -> message u <> None.
Proof. unfold is_amount_message. by destruct (message u). Qed.

Lemma start_has_message : is_start u = true -> message u <> None.
Proof. unfold is_start. by destruct (message u). Qed.

Lemma cancel_has_message : is_cancel u = true -> message u <> None.
Proof. unfold is_cancel. by destruct (message u). Qed.

Lemma edited_cancel_has_no_message : is_edited_cancel u = true -> message u = None.
Proof. unfold is_edited_cancel. by destruct (message u). Qed.

Lemma states_CASH :
  states conv_handler !! CASH = Some [MessageHandler filters_TEXT_and_not_COMMAND cash].
Proof. reflexivity. Qed.

Lemma states_CARD :
  states conv_handler !! CARD = Some [MessageHandler filters_TEXT_and_not_COMMAND card].
Proof. reflexivity. Qed.

Lemma states_UBER :
  states conv_handler !! UBER = Some [MessageHandler filters_TEXT_and_not_COMMAND uber].
Proof. reflexivity. Qed.

Lemma states_DELIVEROO :
  states conv_handler !! DELIVEROO
  = Some [MessageHandler filters_TEXT_and_not_COMMAND deliveroo].
Proof. reflexivity. Qed.

Lemma states_APP :
  states conv_handler !! APP
  = Some [MessageHandler filters_TEXT_and_not_COMMAND app_amount].
Proof. reflexivity. Qed.

Lemma cash_invalid :
  message u <> None ->
  is_number (message_text u) = Ok false ->
  cash u env w
  = (Ok CASH, with_effects w (user_data w)
                [reply_text "❌ Please enter a valid number for Cash."]).
Proof. intros Hm H. run_handler. destruct (message u); [|done]. by rewrite H. Qed.

Lemma card_invalid :
  message u <> None ->
  is_number (message_text u) = Ok false ->
  card u env w
  = (Ok CARD, with_effects w (user_data w)
                [reply_text "❌ Please enter a valid number for Card."]).
Proof. intros Hm H. run_handler. destruct (message u); [|done]. by rewrite H. Qed.

Lemma uber_invalid :
  message u <> None ->
  is_number (message_text u) = Ok false ->
  uber u env w
  = (Ok UBER, with_effects w (user_data w)
                [reply_text "❌ Please enter a valid number for Uber."]).
Proof. intros Hm H. run_handler. destruct (message u); [|done]. by rewrite H. Qed.

Lemma deliveroo_invalid :
  message u <> None ->
  is_number (message_text u) = Ok false ->
  deliveroo u env w
  = (Ok DELIVEROO, with_effects w (user_data w)
                     [reply_text "❌ Please enter a valid number for Deliveroo."]).
Proof. intros Hm H. run_handler. destruct (message u); [|done]. by rewrite H. Qed.

Lemma app_amount_invalid :
  message u <> None ->
  is_number (message_text u) = Ok false ->
  app_amount u env w
  = (Ok APP, with_effects w (user_data w)
               [reply_text "❌ Please enter a valid number for App."]).
Proof. intros Hm H. run_handler. destruct (message u); [|done]. by rewrite H. Qed.

Lemma cash_valid :
  is_number (message_text u) = Ok true ->
  cash u env w
  = (Ok CARD, with_effects w (<["Cash" := message_text u]> (user_data w))
                [reply_text "Enter Card amount:"]).
Proof. intros H. pose proof (accepted_has_message H) as Hm.
  run_handler. destruct (message u); [|done]. by rewrite H. Qed.

Lemma card_valid :
  is_number (message_text u) = Ok true ->
  card u env w
  = (Ok UBER, with_effects w (<["Card" := message_text u]> (user_data w))
                [reply_text "Enter Uber amount:"]).
Proof. intros H. pose proof (accepted_has_message H) as Hm.
  run_handler. destruct (message u); [|done]. by rewrite H. Qed.

Lemma uber_valid :
  is_number (message_text u) = Ok true ->
  uber u env w
  = (Ok DELIVEROO, with_effects w (<["Uber" := message_text u]> (user_data w))
                     [reply_text "Enter Deliveroo amount:"]).
Proof. intros H. pose proof (accepted_has_message H) as Hm.
  run_handler. destruct (message u); [|done]. by rewrite H. Qed.

Lemma deliveroo_valid :
  is_number (message_text u) = Ok true ->
  deliveroo u env w
  = (Ok APP, with_effects w (<["Deliveroo" := message_text u]> (user_data w))
               [reply_text "Enter App amount:"]).
Proof. intros H. pose proof (accepted_has_message H) as Hm.
  run_handler. destruct (message u); [|done]. by rewrite H. Qed.

Lemma app_amount_valid v1 v2 v3 v4 :
  is_number (message_text u) = Ok true ->
  user_data w !! "Cash" = Some v1 ->
  user_data w !! "Card" = Some v2 ->
  user_data w !! "Uber" = Some v3 ->
  user_data w !! "Deliveroo" = Some v4 ->
  app_amount u env w
  = (Ok END,
     with_effects w ∅
       ([print "DEBUG: Writing to sheet:"
           [PStr (now env); PStr (sender_name u);
            v1; v2; v3; v4; message_text u];
         append_row
           [now env; sender_name u;
            py_str v1; py_str v2; py_str v3; py_str v4;
            py_str (message_text u)]
           (append_row_raises env)]
        ++ after_append (append_row_raises env))).
Proof.
  intros H H1 H2 H3 H4. pose proof (accepted_has_message H) as Hm.
  run_handler. destruct (message u); [|done]. rewrite H. simpl.
  repeat (first [ rewrite lookup_insert_eq
                | rewrite lookup_insert_ne by done
                | rewrite H1 | rewrite H2 | rewrite H3 | rewrite H4 ]; simpl).
  unfold after_append. destruct (append_row_raises env); simpl;
    by rewrite <- !app_assoc.
Qed.

(** *** Updates without a message *)

(** On an update without a message every handler raises at its first
    [update.message]: at once, but for [cancel], which has emptied
    [user_data] by then. *)
Lemma handlers_without_message :
  message u = None ->
  start u env w = (Raise AttributeError, w) /\
  cash u env w = (Raise AttributeError, w) /\
  card u env w = (Raise AttributeError, w) /\
  uber u env w = (Raise AttributeError, w) /\
  deliveroo u env w = (Raise AttributeError, w) /\
  app_amount u env w = (Raise AttributeError, w) /\
  cancel u env w
  = (Raise AttributeError, {| user_data := ∅; effects := effects w |}).
Proof. intros Hm. run_handler. by rewrite Hm. Qed.

(** *** Dispatch *)

Lemma step_idle :
  conv_handle_update conv_handler (None, w) u env
  = if is_start u
    then (Some CASH, with_effects w (user_data w) [reply_text "Enter Cash amount:"])
    else (None, w).
Proof.
  unfold conv_handle_update, conv_check_update, first_match, is_start.
  cbn [fst snd entry_points conv_handler List.find check_update CommandHandler
       callback].
  unfold effective_message.
  destruct (message u) as [m|] eqn:Hm.
  - destruct (is_command "start" m); [|done].
    cbn [callback CommandHandler MessageHandler]. run_handler. by rewrite Hm.
  - destruct (edited_message u) as [m|]; [|done].
    destruct (is_command "start" m); [|done].
    cbn [callback CommandHandler MessageHandler]. by rewrite (proj1 (handlers_without_message Hm)).
Qed.

Lemma step_amount s h :
  states conv_handler !! s = Some [MessageHandler filters_TEXT_and_not_COMMAND h] ->
  is_amount_message u = true ->
  conv_handle_update conv_handler (Some s, w) u env
  = match h u env w with
    | (Ok new_state, w') => (if (new_state =? END)%Z then None else Some new_state, w')
    | (Raise _, w') => (Some s, w')
    end.
Proof.
  intros Hs Hu. unfold conv_handle_update, conv_check_update, first_match.
  cbn [fst snd]. rewrite Hs. unfold is_amount_message in Hu. revert Hu.
  simpl. unfold effective_message.
  destruct (message u) as [m|]; [|done]. by intros ->.
Qed.

Lemma awaiting_states_handler s :
  In s awaiting_states ->
  exists h, states conv_handler !! s
            = Some [MessageHandler filters_TEXT_and_not_COMMAND h] /\
            (message u = None -> h u env w = (Raise AttributeError, w)).
Proof.
  intros [<- | [<- | [<- | [<- | [<- | []]]]]]; eexists;
    (split; [reflexivity|]); intros Hm;
    apply (handlers_without_message Hm).
Qed.

Lemma amount_is_no_command m :
  filters_TEXT_and_not_COMMAND m = true -> is_command "cancel" m = false.
Proof.
  unfold filters_TEXT_and_not_COMMAND, filters_COMMAND, is_command.
  destruct (leading_command m); [|done]. by rewrite andb_false_r.
Qed.

Lemma step_other s :
  In s awaiting_states ->
  is_amount_message u = false ->
  conv_handle_update conv_handler (Some s, w) u env
  = if is_cancel u
    then (None, with_effects w ∅ [reply_text "Entry cancelled."])
    else if is_edited_cancel u
    then (Some s, {| user_data := ∅; effects := effects w |})
    else (Some s, w).
Proof.
  intros Hs Hu. destruct (awaiting_states_handler s Hs) as (h & Hh & Hraise).
  unfold conv_handle_update, conv_check_update, first_match, is_cancel,
    is_edited_cancel.
  cbn [fst snd]. rewrite Hh. unfold is_amount_message in Hu. revert Hu.
  simpl. unfold effective_message.
  destruct (message u) as [m|] eqn:Hm; intros Hu.
  - rewrite Hu. destruct (is_command "cancel" m); [|done].
    cbn [callback CommandHandler MessageHandler]. run_handler. by rewrite Hm.
  - destruct (edited_message u) as [m|]; [|done].
    destruct (filters_TEXT_and_not_COMMAND m) eqn:Hf.
    + cbn [callback CommandHandler MessageHandler]. by rewrite (Hraise eq_refl), (amount_is_no_command m Hf).
    + destruct (is_command "cancel" m); [|done].
      cbn [callback CommandHandler MessageHandler].
      by rewrite (proj2 (proj2 (proj2 (proj2 (proj2 (proj2
                   (handlers_without_message Hm))))))).
Qed.

Lemma cancel_not_amount : is_cancel u = true -> is_amount_message u = false.
Proof.
  unfold is_cancel, is_amount_message, is_command,
    filters_TEXT_and_not_COMMAND, filters_COMMAND.
  destruct (message u) as [m|]; [|done].
  destruct (leading_command m); [|done]. intros _. apply andb_false_r.
Qed.

Lemma start_not_amount : is_start u = true -> is_amount_message u = false.
Proof.
  unfold is_start, is_amount_message, is_command,
    filters_TEXT_and_not_COMMAND, filters_COMMAND.
  destruct (message u) as [m|]; [|done].
  destruct (leading_command m); [|done]. intros _. apply andb_false_r.
Qed.

Lemma start_not_cancel : is_start u = true -> is_cancel u = false.
Proof.
  unfold is_start, is_cancel, is_command.
  destruct (message u) as [m|]; [|done].
  destruct (leading_command m) as [c|]; [|done].
  intros H. apply andb_true_iff in H as [_ H]. apply String.eqb_eq in H.
  rewrite H. apply andb_false_r.
Qed.

Lemma start_not_edited_cancel : is_start u = true -> is_edited_cancel u = false.
Proof. unfold is_start, is_edited_cancel. by destruct (message u). Qed.

Lemma edited_cancel_not_amount :
  is_edited_cancel u = true -> is_amount_message u = false.
Proof. unfold is_edited_cancel, is_amount_message. by destruct (message u). Qed.

Lemma edited_cancel_not_cancel :
  is_edited_cancel u = true -> is_cancel u = false.
Proof. unfold is_edited_cancel, is_cancel. by destruct (message u). Qed.

(** *** The five awaiting states, one update at a time *)

Lemma step_cash_valid :
  is_amount_message u = true ->
  is_number (message_text u) = Ok true ->
  conv_handle_update conv_handler (Some CASH, w) u env
  = (Some CARD, with_effects w (<["Cash" := message_text u]> (user_data w))
                 [reply_text "Enter Card amount:"]).
Proof.
  intros Hu Hb. by rewrite (step_amount CASH cash states_CASH Hu), ((cash_valid) Hb).
Qed.

Lemma step_card_valid :
  is_amount_message u = true ->
  is_number (message_text u) = Ok true ->
  conv_handle_update conv_handler (Some CARD, w) u env
  = (Some UBER, with_effects w (<["Card" := message_text u]> (user_data w))
                 [reply_text "Enter Uber amount:"]).
Proof.
  intros Hu Hb. by rewrite (step_amount CARD card states_CARD Hu), ((card_valid) Hb).
Qed.

Lemma step_uber_valid :
  is_amount_message u = true ->
  is_number (message_text u) = Ok true ->
  conv_handle_update conv_handler (Some UBER, w) u env
  = (Some DELIVEROO, with_effects w (<["Uber" := message_text u]> (user_data w))
                 [reply_text "Enter Deliveroo amount:"]).
Proof.
  intros Hu Hb. by rewrite (step_amount UBER uber states_UBER Hu), ((uber_valid) Hb).
Qed.

Lemma step_deliveroo_valid :
  is_amount_message u = true ->
  is_number (message_text u) = Ok true ->
  conv_handle_update conv_handler (Some DELIVEROO, w) u env
  = (Some APP, with_effects w (<["Deliveroo" := message_text u]> (user_data w))
                 [reply_text "Enter App amount:"]).
Proof.
  intros Hu Hb. by rewrite (step_amount DELIVEROO deliveroo states_DELIVEROO Hu), ((deliveroo_valid) Hb).
Qed.

Lemma step_cash_invalid :
  is_amount_message u = true ->
  is_number (message_text u) = Ok false ->
  conv_handle_update conv_handler (Some CASH, w) u env
  = (Some CASH, with_effects w (user_data w)
                 [reply_text "❌ Please enter a valid number for Cash."]).
Proof.
  intros Hu Hb. by rewrite (step_amount CASH cash states_CASH Hu), ((cash_invalid) (amount_has_message Hu) Hb).
Qed.

Lemma step_card_invalid :
  is_amount_message u = true ->
  is_number (message_text u) = Ok false ->
  conv_handle_update conv_handler (Some CARD, w) u env
  = (Some CARD, with_effects w (user_data w)
                 [reply_text "❌ Please enter a valid number for Card."]).
Proof.
  intros Hu Hb. by rewrite (step_amount CARD card states_CARD Hu), ((card_invalid) (amount_has_message Hu) Hb).
Qed.

Lemma step_uber_invalid :
  is_amount_message u = true ->
  is_number (message_text u) = Ok false ->
  conv_handle_update conv_handler (Some UBER, w) u env
  = (Some UBER, with_effects w (user_data w)
                 [reply_text "❌ Please enter a valid number for Uber."]).
Proof.
  intros Hu Hb. by rewrite (step_amount UBER uber states_UBER Hu), ((uber_invalid) (amount_has_message Hu) Hb).
Qed.

Lemma step_deliveroo_invalid :
  is_amount_message u = true ->
  is_number (message_text u) = Ok false ->
  conv_handle_update conv_handler (Some DELIVEROO, w) u env
  = (Some DELIVEROO, with_effects w (user_data w)
                 [reply_text "❌ Please enter a valid number for Deliveroo."]).
Proof.
  intros Hu Hb. by rewrite (step_amount DELIVEROO deliveroo states_DELIVEROO Hu), ((deliveroo_invalid) (amount_has_message Hu) Hb).
Qed.

Lemma step_app_amount_invalid :
  is_amount_message u = true ->
  is_number (message_text u) = Ok false ->
  conv_handle_update conv_handler (Some APP, w) u env
  = (Some APP, with_effects w (user_data w)
                 [reply_text "❌ Please enter a valid number for App."]).
Proof.
  intros Hu Hb. by rewrite (step_amount APP app_amount states_APP Hu), ((app_amount_invalid) (amount_has_message Hu) Hb).
Qed.

Lemma step_app_amount_valid v1 v2 v3 v4 :
  is_amount_message u = true ->
  is_number (message_text u) = Ok true ->
  user_data w !! "Cash" = Some v1 ->
  user_data w !! "Card" = Some v2 ->
  user_data w !! "Uber" = Some v3 ->
  user_data w !! "Deliveroo" = Some v4 ->
  conv_handle_update conv_handler (Some APP, w) u env
  = (None,
     with_effects w ∅
       ([print "DEBUG: Writing to sheet:"
           [PStr (now env); PStr (sender_name u);
            v1; v2; v3; v4; message_text u];
         append_row
           [now env; sender_name u;
            py_str v1; py_str v2; py_str v3; py_str v4;
            py_str (message_text u)]
           (append_row_raises env)]
        ++ after_append (append_row_raises env))).
Proof.
  intros Hu Hb H1 H2 H3 H4.
  by rewrite (step_amount APP app_amount states_APP Hu),
    (app_amount_valid v1 v2 v3 v4 Hb H1 H2 H3 H4).
Qed.

(** *** The session invariant *)

Lemma sink_calls_app es1 es2 :
  sink_calls (es1 ++ es2) = sink_calls es1 ++ sink_calls es2.
Proof. apply flat_map_app. Qed.

Lemma sink_calls_after_append raised : sink_calls (after_append raised) = [].
Proof. by destruct raised. Qed.








End Steps.

(** *** The transition table *)

Lemma app_amount_missing u env w k :
  In k earlier_fields ->
  user_data w !! k = None ->
  is_number (message_text u) = Ok true ->
  app_amount u env w
  = (Raise KeyError,
     {| user_data := <["App" := message_text u]> (user_data w);
        effects := effects w |}).
Proof.
  intros Hk Hnone Hb. pose proof (accepted_has_message u Hb) as Hm.
  run_handler. destruct (message u); [|done].
  rewrite Hb. cbn [negb fst snd user_data effects].
  assert (forall k', k' <> "App" ->
            <["App" := message_text u]> (user_data w) !! k' = user_data w !! k')
    as Hother by (intros k' Hk'; by rewrite lookup_insert_ne).
  rewrite (Hother "Cash") by done.
  destruct (user_data w !! "Cash") as [v1|] eqn:H1; [|done].
  cbn [fst snd user_data effects]. rewrite (Hother "Card") by done.
  destruct (user_data w !! "Card") as [v2|] eqn:H2; [|done].
  cbn [fst snd user_data effects]. rewrite (Hother "Uber") by done.
  destruct (user_data w !! "Uber") as [v3|] eqn:H3; [|done].
  cbn [fst snd user_data effects]. rewrite (Hother "Deliveroo") by done.
  destruct (user_data w !! "Deliveroo") as [v4|] eqn:H4; [|done].
  destruct Hk as [<- | [<- | [<- | [<- | []]]]]; congruence.
Qed.

(** The four earlier fields are all there, or one is missing. *)
Lemma earlier_fields_cases (ud : gmap string pyval) :
  (exists v1 v2 v3 v4,
     ud !! "Cash" = Some v1 /\ ud !! "Card" = Some v2 /\
     ud !! "Uber" = Some v3 /\ ud !! "Deliveroo" = Some v4) \/
  (exists k, In k earlier_fields /\ ud !! k = None).
Proof.
  unfold earlier_fields.
  destruct (ud !! "Cash") as [v1|] eqn:H1;
    [|right; exists "Cash"; split; [by left|done]].
  destruct (ud !! "Card") as [v2|] eqn:H2;
    [|right; exists "Card"; split; [right; by left|done]].
  destruct (ud !! "Uber") as [v3|] eqn:H3;
    [|right; exists "Uber"; split; [do 2 right; by left|done]].
  destruct (ud !! "Deliveroo") as [v4|] eqn:H4;
    [|right; exists "Deliveroo"; split; [do 3 right; by left|done]].
  left. by exists v1, v2, v3, v4.
Qed.

(** Whatever the session holds, one update does one row of the table. *)
Lemma step_transition u env st w :
  known_state st ->
  transition u env (st, w) (conv_handle_update conv_handler (st, w) u env).
Proof.
  intros [-> | (s & -> & Hs)].
  - rewrite step_idle. destruct (is_start u) eqn:Hu.
    + exact (transition_start u env w Hu).
    + exact (transition_idle u env w Hu).
  - destruct (is_amount_message u) eqn:Hu.
    + destruct (is_number_total (message_text u)) as [[|] Hb].
      * destruct Hs as [<- | [<- | [<- | [<- | [<- | []]]]]].
        -- rewrite (step_cash_valid u env w Hu Hb).
           refine (transition_accepted u env CASH w _ Hu Hb). by left.
        -- rewrite (step_card_valid u env w Hu Hb).
           refine (transition_accepted u env CARD w _ Hu Hb). right; by left.
        -- rewrite (step_uber_valid u env w Hu Hb).
           refine (transition_accepted u env UBER w _ Hu Hb). do 2 right; by left.
        -- rewrite (step_deliveroo_valid u env w Hu Hb).
           refine (transition_accepted u env DELIVEROO w _ Hu Hb).
           do 3 right; by left.
        -- destruct (earlier_fields_cases (user_data w))
             as [(v1 & v2 & v3 & v4 & H1 & H2 & H3 & H4) | (k & Hk & Hnone)].
           ++ rewrite (step_app_amount_valid u env w v1 v2 v3 v4 Hu Hb H1 H2 H3 H4).
              exact (transition_flush u env w v1 v2 v3 v4 Hu Hb H1 H2 H3 H4).
           ++ rewrite (step_amount u env w APP app_amount states_APP Hu),
                (app_amount_missing u env w k Hk Hnone Hb).
              exact (transition_missing u env w k Hu Hb Hk Hnone).
      * assert (conv_handle_update conv_handler (Some s, w) u env
                = (Some s, with_effects w (user_data w)
                             [reply_text (refusal_prompt s)])) as ->.
        { destruct Hs as [<- | [<- | [<- | [<- | [<- | []]]]]].
          - exact (step_cash_invalid u env w Hu Hb).
          - exact (step_card_invalid u env w Hu Hb).
          - exact (step_uber_invalid u env w Hu Hb).
          - exact (step_deliveroo_invalid u env w Hu Hb).
          - exact (step_app_amount_invalid u env w Hu Hb). }
        exact (transition_refused u env s w Hs Hu Hb).
    + rewrite (step_other u env w s Hs Hu). destruct (is_cancel u) eqn:Hc.
      * exact (transition_cancel u env s w Hs Hc).
      * destruct (is_edited_cancel u) eqn:He.
        -- exact (transition_edited_cancel u env s w Hs He).
        -- exact (transition_ignored u env s w Hs Hu Hc He).
Qed.

(** What every row of the table keeps: the state stays a known one, and
    a conversation that has ended, or has not begun, leaves either an empty
    session or the world as it was. *)
Lemma transition_known_state u env c c' :
  transition u env c c' -> known_state (fst c').
Proof.
  intros [w Hu | w Hu | s w Hs Hu Hb | s w Hs Hu Hb
         | w v1 v2 v3 v4 Hu Hb H1 H2 H3 H4 | w k Hu Hb Hk Hnone
         | s w Hs Hc | s w Hs He | s w Hs Hu Hc He]; cbn [fst];
    try (by left); right.
  - exists CASH. split; [done|by left].
  - by exists s.
  - exists (s + 1)%Z. split; [done|].
    destruct Hs as [<- | [<- | [<- | [<- | []]]]].
    + right; by left.
    + do 2 right; by left.
    + do 3 right; by left.
    + do 4 right; by left.
  - exists APP. split; [done|]. do 4 right; by left.
  - by exists s.
  - by exists s.
Qed.

Lemma transition_ended u env c c' :
  transition u env c c' ->
  fst c' = None ->
  user_data (snd c') = ∅ \/ c' = c.
Proof.
  intros [w Hu | w Hu | s w Hs Hu Hb | s w Hs Hu Hb
         | w v1 v2 v3 v4 Hu Hb H1 H2 H3 H4 | w k Hu Hb Hk Hnone
         | s w Hs Hc | s w Hs He | s w Hs Hu Hc He]; cbn [fst snd];
    simpl_config; try done; auto.
Qed.

(** *** The bot and its conversations *)

Lemma world_eta w : {| user_data := user_data w; effects := effects w |} = w.
Proof. by destruct w. Qed.

Lemma process_update_no_key b u env :
  conversation_key u = None -> process_update b u env = b.
Proof. intros H. unfold process_update. by rewrite H. Qed.

(** The chat and the user of an update find the bot as the
    [ConversationHandler] has left it for them. *)
Lemma view_process_update b u env k :
  conversation_key u = Some k ->
  view (process_update b u env) k
  = conv_handle_update conv_handler (view b k) u env.
Proof.
  intros Hk. unfold process_update. rewrite Hk.
  destruct (conv_check_update conv_handler (conversations b !! k) u) as [h|] eqn:Hh.
  - unfold view at 1. cbn [conversations users_data log].
    set (c := conv_handle_update conv_handler (view b k) u env).
    unfold user_data_of. cbn [users_data]. rewrite lookup_insert_eq. cbn [default].
    destruct c as [[s|] w]; cbn [fst snd].
    + rewrite lookup_insert_eq. by destruct w.
    + rewrite lookup_delete_eq. by destruct w.
  - unfold conv_handle_update, view at 2. cbn [fst]. by rewrite Hh.
Qed.

Lemma process_update_other_key b u env k k' :
  conversation_key u = Some k -> k' <> k ->
  conversations (process_update b u env) !! k' = conversations b !! k'.
Proof.
  intros Hk Hne. unfold process_update. rewrite Hk.
  destruct (conv_check_update conv_handler (conversations b !! k) u); [|done].
  cbn [conversations].
  destruct (fst (conv_handle_update conv_handler (view b k) u env)).
  - by rewrite lookup_insert_ne.
  - by rewrite lookup_delete_ne.
Qed.

Lemma process_update_other_user b u env k user :
  conversation_key u = Some k -> user <> snd k ->
  user_data_of (process_update b u env) user = user_data_of b user.
Proof.
  intros Hk Hne. unfold process_update. rewrite Hk.
  destruct (conv_check_update conv_handler (conversations b !! k) u); [|done].
  unfold user_data_of. cbn [users_data]. by rewrite lookup_insert_ne.
Qed.

Lemma process_update_state b u env k :
  conversation_key u = Some k ->
  conversations (process_update b u env) !! k
  = fst (conv_handle_update conv_handler (view b k) u env).
Proof. intros Hk. by rewrite <- (view_process_update b u env k Hk). Qed.

Lemma process_update_user_data b u env k :
  conversation_key u = Some k ->
  user_data_of (process_update b u env) (snd k)
  = user_data (snd (conv_handle_update conv_handler (view b k) u env)).
Proof. intros Hk. by rewrite <- (view_process_update b u env k Hk). Qed.

Lemma process_update_log b u env k :
  conversation_key u = Some k ->
  log (process_update b u env)
  = effects (snd (conv_handle_update conv_handler (view b k) u env)).
Proof. intros Hk. by rewrite <- (view_process_update b u env k Hk). Qed.

(** Every conversation of the bot is in one of the five awaiting states. *)
Lemma reachable_known_state b k :
  reachable b -> known_state (conversations b !! k).
Proof.
  intros Hb. revert k. induction Hb as [|b u env Hb IH]; intros k.
  - left. apply lookup_empty.
  - destruct (conversation_key u) as [k0|] eqn:Hk;
      [|by rewrite (process_update_no_key b u env Hk)].
    destruct (decide (k = k0)) as [->|Hne].
    + rewrite (process_update_state b u env k0 Hk).
      apply (transition_known_state u env (view b k0)).
      apply step_transition, IH.
    + rewrite (process_update_other_key b u env k0 k Hk Hne). apply IH.
Qed.

(** A user whose session holds something has a conversation in progress in
    some chat. *)
Lemma reachable_session_owner b user :
  reachable b ->
  user_data_of b user <> ∅ ->
  exists c, conversations b !! (c, user) <> None.
Proof.
  intros Hb. revert user. induction Hb as [|b u env Hb IH]; intros user Hud.
  - by destruct Hud.
  - destruct (conversation_key u) as [[c0 user0]|] eqn:Hk;
      [|rewrite (process_update_no_key b u env Hk) in Hud |- *; by apply IH].
    pose proof (process_update_user_data b u env _ Hk) as Hdata.
    pose proof (process_update_state b u env _ Hk) as Hstate.
    cbn [snd] in Hdata.
    destruct (decide (user = user0)) as [->|Hne].
    + rewrite Hdata in Hud.
      assert (transition u env (view b (c0, user0))
                (conv_handle_update conv_handler (view b (c0, user0)) u env))
        as Ht by apply step_transition, reachable_known_state, Hb.
      destruct (fst (conv_handle_update conv_handler (view b (c0, user0)) u env))
        as [s|] eqn:Hst.
      * exists c0. by rewrite Hstate.
      * destruct (transition_ended u env _ _ Ht Hst) as [Hempty | Hsame];
          [done|].
        rewrite Hsame in Hud, Hst. cbn [view fst snd user_data] in Hud, Hst.
        destruct (IH user0 Hud) as [c Hc]. exists c.
        rewrite (process_update_other_key b u env _ _ Hk); [done|].
        intros [= ->]. by rewrite Hst in Hc.
    + rewrite (process_update_other_user b u env _ user Hk Hne) in Hud.
      destruct (IH user Hud) as [c Hc]. exists c.
      rewrite (process_update_other_key b u env _ _ Hk); [done|].
      by intros [= _ ->].
Qed.

(** ** Properties of the numeric validator *)

Section Validator.

Import PyFloat FloatSyntax.

Lemma spec_real_number_chars s : spec_real_number s -> Forall plain_char s.
Proof.
  intros (sg & m & -> & Hsg & ip & fp & Hip & Hfp & Hm).
  assert (forall d, digits d -> Forall plain_char d) as Hd.
  { intros d Hd. eapply Forall_impl; [exact Hd|]. intros c Hc. by left. }
  apply Forall_app. split.
  - destruct Hsg as [-> | [-> | ->]].
    + constructor.
    + constructor; [unfold plain_char; auto|constructor].
    + constructor; [unfold plain_char; auto|constructor].
  - destruct Hm as [[-> _] | [-> _]]; [by apply Hd|].
    apply Forall_app. split; [by apply Hd|].
    constructor; [unfold plain_char; auto|by apply Hd].
Qed.

Lemma plain_char_ascii c : plain_char c -> (c <? 128) = true /\ (c_underscore =? c) = false.
Proof.
  unfold plain_char, is_digit, c_zero, c_nine, c_dot, c_plus, c_minus, c_underscore.
  intros H. split.
  - apply N.ltb_lt. destruct H as [H | [-> | [-> | ->]]]; [|lia..].
    apply andb_true_iff in H as [_ H]. apply N.leb_le in H. lia.
  - apply N.eqb_neq. destruct H as [H | [-> | [-> | ->]]]; [|lia..].
    apply andb_true_iff in H as [_ H]. apply N.leb_le in H. lia.
Qed.

(** A number as the specification describes it is a text [float()] converts. *)
Lemma spec_real_number_float_text s : spec_real_number s -> float_text s.
Proof.
  intros Hs. pose proof (spec_real_number_chars s Hs) as Hchars.
  assert (forallb (fun c => c <? 128) s = true) as Hascii.
  { apply forallb_forall. intros c Hc. rewrite Forall_forall in Hchars.
    apply plain_char_ascii, Hchars. by apply list_elem_of_In. }
  assert (existsb (N.eqb c_underscore) s = false) as Hus.
  { apply not_true_is_false. intros Hex. apply existsb_exists in Hex as (c & Hc & Hcu).
    rewrite Forall_forall in Hchars.
    destruct (plain_char_ascii c) as [_ Hne]; [by apply Hchars, list_elem_of_In|].
    by rewrite Hne in Hcu. }
  unfold float_text, TransformDecimalAndSpaceToASCII. rewrite Hascii. cbn zeta.
  destruct (no_underscore s Hus) as [-> Hbetween]. split; [done|].
  exists [], s, []. rewrite app_nil_r. split; [done|].
  split; [constructor|]. split; [constructor|].
  destruct Hs as (sg & m & -> & Hsg & Hm). exists sg, m.
  split; [done|]. split; [done|]. left. exists m, [].
  rewrite app_nil_r. auto.
Qed.

(** C1 (as amended). [is_number] answers [True] exactly on the texts that
    [float()] converts: after non-ASCII spaces and decimal digits are written
    in ASCII, underscores stand only between digits and the rest is, between
    white space, an optionally signed numeral (digits, an optional point, an
    optional exponent) or one of inf, infinity, nan in any letter case. So it
    accepts every optionally signed integer or decimal the specification
    means, among them "12", "12.5" and "-3.2", and refuses "", "abc" and
    "12x"; on every other text it answers [False]. *)
Theorem is_number_accepts_float_texts :
  (forall s, is_number (PStr s) = Ok true <-> float_text s) /\
  (forall s, is_number (PStr s) = Ok false <-> ~ float_text s) /\
  (forall s, spec_real_number s -> is_number (PStr s) = Ok true) /\
  is_number (PStr (str_of "12")) = Ok true /\
  is_number (PStr (str_of "12.5")) = Ok true /\
  is_number (PStr (str_of "-3.2")) = Ok true /\
  is_number (PStr (str_of "")) = Ok false /\
  is_number (PStr (str_of "abc")) = Ok false /\
  is_number (PStr (str_of "12x")) = Ok false.
Proof.
  split; [exact is_number_float_text|].
  split.
  - intros s. rewrite <- is_number_float_text.
    destruct (is_number_total (PStr s)) as [[|] ->]; split; congruence.
  - split; [|by repeat split].
    intros s Hs. by apply is_number_float_text, spec_real_number_float_text.
Qed.

(** C1, as stated, fails: [is_number] accepts "nan" and "inf", which are no
    finite real numbers and no optionally signed integers or decimals. *)
Lemma is_number_accepts_nan_and_inf :
  is_number (PStr (str_of "nan")) = Ok true /\ ~ spec_real_number (str_of "nan") /\
  is_number (PStr (str_of "inf")) = Ok true /\ ~ spec_real_number (str_of "inf").
Proof.
  assert (forall c q, is_digit c = false -> c <> c_dot -> c <> c_plus ->
            c <> c_minus -> ~ spec_real_number (c :: q)) as Hletter.
  { intros c q H1 H2 H3 H4 Hs. apply spec_real_number_chars in Hs.
    apply Forall_cons in Hs as [[H | [H | [H | H]]] _]; congruence. }
  split; [reflexivity|]. split; [by apply Hletter|].
  split; [reflexivity|]. by apply Hletter.
Qed.

(** C9. [is_number] never raises: on every value it returns a boolean,
    [True] when [float()] returns and [False] when [float()] raises, whatever
    the exception: a [TypeError] on [None], a [ValueError] on the empty text
    or on "abc", an [OverflowError] on an integer beyond the doubles. *)
Theorem is_number_never_raises :
  (forall v, exists b, is_number v = Ok b /\
     (b = true <-> exists x, PyFloat.float v = Ok x) /\
     (b = false <-> exists e, PyFloat.float v = Raise e)) /\
  (PyFloat.float PNone = Raise TypeError /\ is_number PNone = Ok false) /\
  (PyFloat.float (PStr []) = Raise ValueError /\ is_number (PStr []) = Ok false) /\
  (PyFloat.float (PStr (str_of "abc")) = Raise ValueError /\
   is_number (PStr (str_of "abc")) = Ok false) /\
  (PyFloat.float (PInt (10 ^ 400)) = Raise OverflowError /\
   is_number (PInt (10 ^ 400)) = Ok false) /\
  is_number (PInt 12) = Ok true /\
  is_number (PBool true) = Ok true.
Proof.
  split; [|by repeat split].
  intros v. unfold is_number, try_except.
  destruct (PyFloat.float v) as [x|e].
  - exists true. split; [done|]. split; split; eauto; try done. by intros [? ?].
  - exists false. split; [done|]. split; split; eauto; try done. by intros [? ?].
Qed.

End Validator.

(** ** Properties of the conversation *)

Lemma valid_text_is_amount t sender :
  is_number (PStr t) = Ok true -> is_amount_message (text_message t sender) = true.
Proof.
  destruct t as [|c t]; [by rewrite is_number_empty|done].
Qed.

(** C3. When [is_number] refuses the text of a message, each of the five
    amount handlers returns its own state and leaves [user_data] as it is;
    its only effect is its error prompt. So does the conversation in each of
    the five awaiting states. An update without a message, an edited message,
    changes neither the state nor the session either, whatever its text: the
    amount handler raises before it has done anything. *)
Theorem refused_amount_changes_nothing (u : Update) (env : Env) (w : World) :
  is_number (message_text u) = Ok false ->
  (message u <> None ->
   cash u env w
   = (Ok CASH, with_effects w (user_data w)
                 [reply_text "❌ Please enter a valid number for Cash."]) /\
   card u env w
   = (Ok CARD, with_effects w (user_data w)
                 [reply_text "❌ Please enter a valid number for Card."]) /\
   uber u env w
   = (Ok UBER, with_effects w (user_data w)
                 [reply_text "❌ Please enter a valid number for Uber."]) /\
   deliveroo u env w
   = (Ok DELIVEROO, with_effects w (user_data w)
                      [reply_text "❌ Please enter a valid number for Deliveroo."]) /\
   app_amount u env w
   = (Ok APP, with_effects w (user_data w)
                [reply_text "❌ Please enter a valid number for App."])) /\
  (is_amount_message u = true ->
   forall s, In s awaiting_states ->
     conv_handle_update conv_handler (Some s, w) u env
     = (Some s, with_effects w (user_data w) [reply_text (refusal_prompt s)])) /\
  (message u = None ->
   (cash u env w = (Raise AttributeError, w) /\
    card u env w = (Raise AttributeError, w) /\
    uber u env w = (Raise AttributeError, w) /\
    deliveroo u env w = (Raise AttributeError, w) /\
    app_amount u env w = (Raise AttributeError, w)) /\
   (is_edited_cancel u = false ->
    forall s, In s awaiting_states ->
      conv_handle_update conv_handler (Some s, w) u env = (Some s, w))).
Proof.
  intros Hb. split; [|split].
  - intros Hm.
    split; [by apply cash_invalid|]. split; [by apply card_invalid|].
    split; [by apply uber_invalid|]. split; [by apply deliveroo_invalid|].
    by apply app_amount_invalid.
  - intros Hu s [<- | [<- | [<- | [<- | [<- | []]]]]].
    + by rewrite (step_cash_invalid u env w Hu Hb).
    + by rewrite (step_card_invalid u env w Hu Hb).
    + by rewrite (step_uber_invalid u env w Hu Hb).
    + by rewrite (step_deliveroo_invalid u env w Hu Hb).
    + by rewrite (step_app_amount_invalid u env w Hu Hb).
  - intros Hm. split.
    + destruct (handlers_without_message u env w Hm)
        as (_ & H1 & H2 & H3 & H4 & H5 & _). done.
    + intros Hedit s Hs.
      assert (is_amount_message u = false) as Hu.
      { unfold is_amount_message. by rewrite Hm. }
      assert (is_cancel u = false) as Hc.
      { unfold is_cancel. by rewrite Hm. }
      by rewrite (step_other u env w s Hs Hu), Hc, Hedit.
Qed.

(** "abc" while Card is awaited, with Cash already entered. *)
Lemma refused_amount_example :
  conv_handle_update conv_handler
    (Some CARD, {| user_data := {["Cash" := PStr (str_of "50")]}; effects := [] |})
    (text_message (str_of "abc") ann) noon
  = (Some CARD,
     {| user_data := {["Cash" := PStr (str_of "50")]};
        effects := [reply_text "❌ Please enter a valid number for Card."] |}).
Proof.
  pose proof (refused_amount_changes_nothing (text_message (str_of "abc") ann) noon
                {| user_data := {["Cash" := PStr (str_of "50")]}; effects := [] |}
                eq_refl) as (_ & Hconv & _).
  rewrite (Hconv eq_refl CARD); [reflexivity|]. right. by left.
Defined.

(** X17. The cancel command sent as a new message, in each of the five
    awaiting states and whatever the session holds, empties [user_data], is
    answered "Entry cancelled." and ends the conversation;
    [sheet.append_row] is not called. *)
Theorem cancel_clears_and_ends (s : Z) (u : Update) (env : Env) (w : World) :
  In s awaiting_states ->
  is_cancel u = true ->
  cancel u env w = (Ok END, with_effects w ∅ [reply_text "Entry cancelled."]) /\
  conv_handle_update conv_handler (Some s, w) u env
  = (None, with_effects w ∅ [reply_text "Entry cancelled."]) /\
  sink_calls (effects (snd (conv_handle_update conv_handler (Some s, w) u env)))
  = sink_calls (effects w).
Proof.
  intros Hs Hu. split.
  { pose proof (cancel_has_message u Hu) as Hm. run_handler.
    by destruct (message u). }
  assert (conv_handle_update conv_handler (Some s, w) u env
          = (None, with_effects w ∅ [reply_text "Entry cancelled."])) as Hstep.
  { rewrite (step_other u env w s Hs), Hu; [done|].
    by apply cancel_not_amount. }
  split; [done|]. rewrite Hstep. simpl_config.
  by rewrite sink_calls_app, app_nil_r.
Qed.

(** /cancel while Uber is awaited. *)
Lemma cancel_example :
  conv_handle_update conv_handler
    (Some UBER, {| user_data := {["Cash" := PStr (str_of "50")]}; effects := [] |})
    (command_message "cancel" ann) noon
  = (None, {| user_data := ∅; effects := [reply_text "Entry cancelled."] |}).
Proof.
  refine (proj1 (proj2 (cancel_clears_and_ends UBER (command_message "cancel" ann)
                          noon _ _ eq_refl))).
  do 2 right. by left.
Defined.

(** C6 fails for a message edited into the cancel command, in each of the
    five awaiting states and whatever the session holds. The fallback takes
    the update as it takes a new message; [cancel] empties [user_data] and
    then raises at [update.message], which is [None]: nothing is replied and
    the conversation is not ended, it stays in its state with an empty
    session. *)
Theorem edited_cancel_does_not_end (s : Z) (u : Update) (env : Env) (w : World) :
  In s awaiting_states ->
  is_edited_cancel u = true ->
  conv_check_update conv_handler (Some s) u = Some (CommandHandler "cancel" cancel) /\
  cancel u env w
  = (Raise AttributeError, {| user_data := ∅; effects := effects w |}) /\
  conv_handle_update conv_handler (Some s, w) u env
  = (Some s, {| user_data := ∅; effects := effects w |}).
Proof.
  intros Hs Hu. pose proof (edited_cancel_has_no_message u Hu) as Hm.
  split; [|split].
  - destruct (awaiting_states_handler u env w s Hs) as (h & Hh & _).
    unfold conv_check_update, first_match. rewrite Hh. simpl.
    unfold is_edited_cancel in Hu. revert Hu. unfold effective_message.
    rewrite Hm. destruct (edited_message u) as [m|]; [|done]. intros Hu.
    assert (filters_TEXT_and_not_COMMAND m = false) as ->; [|by rewrite Hu].
    unfold filters_TEXT_and_not_COMMAND, filters_COMMAND.
    unfold is_command in Hu. destruct (leading_command m); [|done].
    apply andb_false_r.
  - apply (handlers_without_message u env w Hm).
  - rewrite (step_other u env w s Hs (edited_cancel_not_amount u Hu)).
    by rewrite (edited_cancel_not_cancel u Hu), Hu.
Qed.

(** After /start and "50": a message edited into /cancel while Card is
    awaited. Cash is gone and Card is still awaited. *)
Lemma edited_cancel_example :
  conv_handle_update conv_handler
    (Some CARD, {| user_data := {["Cash" := PStr (str_of "50")]}; effects := [] |})
    (edited (command_text "cancel" ann (private_chat ann))) noon
  = (Some CARD, {| user_data := ∅; effects := [] |}).
Proof.
  refine (proj2 (proj2 (edited_cancel_does_not_end CARD
                          (edited (command_text "cancel" ann (private_chat ann)))
                          noon _ _ eq_refl))).
  right. by left.
Defined.

(** C10. In each of the five awaiting states the amount handler is chosen
    exactly for the messages, new or edited, with a text and no leading
    command. A message that starts with a command is therefore never
    validated or stored: it either is the cancel command, handled by the
    fallback, or it is not handled and changes nothing. *)
Theorem commands_never_reach_amount_handlers (s : Z) (u : Update) (env : Env)
    (w : World) :
  In s awaiting_states ->
  (first_match (default [] (states conv_handler !! s)) u <> None <->
   exists m, effective_message u = Some m /\
             filters_TEXT m = true /\ filters_COMMAND m = false) /\
  (forall m, effective_message u = Some m -> filters_COMMAND m = true ->
   first_match (default [] (states conv_handler !! s)) u = None /\
   conv_handle_update conv_handler (Some s, w) u env
   = if is_cancel u
     then (None, with_effects w ∅ [reply_text "Entry cancelled."])
     else if is_edited_cancel u
     then (Some s, {| user_data := ∅; effects := effects w |})
     else (Some s, w)).
Proof.
  intros Hs. destruct (awaiting_states_handler u env w s Hs) as (h & Hh & _).
  assert (first_match (default [] (states conv_handler !! s)) u
          = match effective_message u with
            | Some m =>
                if filters_TEXT_and_not_COMMAND m
                then Some (MessageHandler filters_TEXT_and_not_COMMAND h)
                else None
            | None => None
            end) as Hfirst.
  { rewrite Hh. unfold first_match. simpl.
    destruct (effective_message u) as [m|]; [|done].
    by destruct (filters_TEXT_and_not_COMMAND m). }
  rewrite Hfirst. split.
  - destruct (effective_message u) as [m|].
    + unfold filters_TEXT_and_not_COMMAND.
      destruct (filters_TEXT m) eqn:Ht, (filters_COMMAND m) eqn:Hc; simpl;
        split; try done.
      * by intros (m' & [= <-] & _ & ?); congruence.
      * intros _. by exists m.
      * by intros (m' & [= <-] & ? & _); congruence.
      * by intros (m' & [= <-] & ? & _); congruence.
    + split; [done|]. by intros (m & ? & _).
  - intros m Hm Hc. rewrite Hm.
    assert (filters_TEXT_and_not_COMMAND m = false) as Hf.
    { unfold filters_TEXT_and_not_COMMAND. rewrite Hc. apply andb_false_r. }
    rewrite Hf. split; [done|]. apply step_other; [done|].
    unfold is_amount_message. unfold effective_message in Hm.
    destruct (message u) as [m'|]; [|done]. by injection Hm as ->.
Qed.

(** /start while Card is awaited: not handled. *)
Lemma command_in_conversation_example :
  conv_handle_update conv_handler
    (Some CARD, {| user_data := {["Cash" := PStr (str_of "50")]}; effects := [] |})
    (command_message "start" ann) noon
  = (Some CARD, {| user_data := {["Cash" := PStr (str_of "50")]}; effects := [] |}).
Proof.
  refine (proj2 (proj2 (commands_never_reach_amount_handlers CARD
                          (command_message "start" ann) noon _ _)
                   _ eq_refl eq_refl)).
  right. by left.
Defined.

(** C5. When the last amount is accepted and the four earlier fields are
    set, [sheet.append_row] is called once, with the row, whether it raises
    or not; then [user_data] is emptied and the conversation ends. When the
    call raises, the exception is printed and the user is told
    "Error saving to Google Sheet. Check logs."; the call is not repeated. *)
Theorem append_failure_ends_conversation (u : Update) (env : Env) (w : World)
    (v1 v2 v3 v4 : pyval) :
  is_amount_message u = true ->
  is_number (message_text u) = Ok true ->
  user_data w !! "Cash" = Some v1 ->
  user_data w !! "Card" = Some v2 ->
  user_data w !! "Uber" = Some v3 ->
  user_data w !! "Deliveroo" = Some v4 ->
  fst (conv_handle_update conv_handler (Some APP, w) u env) = None /\
  user_data (snd (conv_handle_update conv_handler (Some APP, w) u env)) = ∅ /\
  sink_calls (effects (snd (conv_handle_update conv_handler (Some APP, w) u env)))
  = sink_calls (effects w)
    ++ [([now env; sender_name u;
          py_str v1; py_str v2; py_str v3; py_str v4; py_str (message_text u)],
         append_row_raises env)] /\
  effects (snd (conv_handle_update conv_handler (Some APP, w) u env))
  = effects w
    ++ [print "DEBUG: Writing to sheet:"
          [PStr (now env); PStr (sender_name u);
           v1; v2; v3; v4; message_text u];
        append_row
          [now env; sender_name u;
           py_str v1; py_str v2; py_str v3; py_str v4; py_str (message_text u)]
          (append_row_raises env)]
    ++ (if append_row_raises env
        then [print_exception "Error saving to sheet:" SheetError;
              reply_text "❌ Error saving to Google Sheet. Check logs."]
        else [reply_text "✅ All values saved successfully!"]).
Proof.
  intros Hu Hb H1 H2 H3 H4.
  rewrite (step_app_amount_valid u env w v1 v2 v3 v4 Hu Hb H1 H2 H3 H4).
  simpl_config. split; [done|]. split; [done|]. split.
  - rewrite !sink_calls_app, sink_calls_after_append. by rewrite app_nil_r.
  - unfold after_append. by rewrite app_assoc.
Qed.

(** "15" as the last amount while the sheet cannot be reached. *)
Lemma append_failure_example :
  effects (snd (conv_handle_update conv_handler
                  (Some APP, {| user_data := four_amounts; effects := [] |})
                  (text_message (str_of "15") ann) sheet_down))
  = [print "DEBUG: Writing to sheet:"
       [PStr (str_of "2024-05-01 12:00:00"); PStr (str_of "Ann");
        PStr (str_of "50"); PStr (str_of "20"); PStr (str_of "10");
        PStr (str_of "5"); PStr (str_of "15")];
     append_row
       [str_of "2024-05-01 12:00:00"; str_of "Ann"; str_of "50"; str_of "20";
        str_of "10"; str_of "5"; str_of "15"] true;
     print_exception "Error saving to sheet:" SheetError;
     reply_text "❌ Error saving to Google Sheet. Check logs."].
Proof.
  refine (proj2 (proj2 (proj2
    (append_failure_ends_conversation (text_message (str_of "15") ann) sheet_down
       {| user_data := four_amounts; effects := [] |}
       (PStr (str_of "50")) (PStr (str_of "20")) (PStr (str_of "10"))
       (PStr (str_of "5")) eq_refl eq_refl _ _ _ _)))); vm_compute; reflexivity.
Defined.

(** C4. Five texts that [is_number] accepts, sent as plain text messages one
    after the other from AWAITING_CASH, take the conversation through
    AWAITING_CARD, AWAITING_UBER, AWAITING_DELIVEROO and AWAITING_APP to its
    end, whatever the session held before; [sheet.append_row] is called once,
    with the time of the last message, the name of its sender and the five
    texts in the order they were entered, and [user_data] ends empty. *)
Theorem five_amounts_append_one_row (w : World) (a1 a2 a3 a4 a5 : entry) :
  is_number (PStr (entry_text a1)) = Ok true ->
  is_number (PStr (entry_text a2)) = Ok true ->
  is_number (PStr (entry_text a3)) = Ok true ->
  is_number (PStr (entry_text a4)) = Ok true ->
  is_number (PStr (entry_text a5)) = Ok true ->
  run_states (Some CASH, w) (map entry_event [a1; a2; a3; a4; a5])
  = [Some CARD; Some UBER; Some DELIVEROO; Some APP; None] /\
  user_data (snd (run (Some CASH, w) (map entry_event [a1; a2; a3; a4; a5]))) = ∅ /\
  sink_calls (effects (snd (run (Some CASH, w) (map entry_event [a1; a2; a3; a4; a5]))))
  = sink_calls (effects w)
    ++ [([now (entry_env a5); full_name (entry_sender a5);
          entry_text a1; entry_text a2; entry_text a3; entry_text a4;
          entry_text a5],
         append_row_raises (entry_env a5))].
Proof.
  intros H1 H2 H3 H4 H5.
  pose proof (valid_text_is_amount _ (entry_sender a1) H1) as U1.
  pose proof (valid_text_is_amount _ (entry_sender a2) H2) as U2.
  pose proof (valid_text_is_amount _ (entry_sender a3) H3) as U3.
  pose proof (valid_text_is_amount _ (entry_sender a4) H4) as U4.
  pose proof (valid_text_is_amount _ (entry_sender a5) H5) as U5.
  cbn [map entry_event run run_states].
  rewrite (step_cash_valid _ (entry_env a1) w U1 H1).
  rewrite (step_card_valid _ (entry_env a2) _ U2 H2).
  rewrite (step_uber_valid _ (entry_env a3) _ U3 H3).
  rewrite (step_deliveroo_valid _ (entry_env a4) _ U4 H4).
  rewrite (step_app_amount_valid _ (entry_env a5) _
             (PStr (entry_text a1)) (PStr (entry_text a2))
             (PStr (entry_text a3)) (PStr (entry_text a4)) U5 H5).
  - simpl_config. split; [done|]. split; [done|].
    rewrite <- !app_assoc, !sink_calls_app, sink_calls_after_append.
    by rewrite app_nil_r.
  - simpl_config. repeat (rewrite lookup_insert_ne by done).
    by rewrite lookup_insert_eq.
  - simpl_config. repeat (rewrite lookup_insert_ne by done).
    by rewrite lookup_insert_eq.
  - simpl_config. repeat (rewrite lookup_insert_ne by done).
    by rewrite lookup_insert_eq.
  - simpl_config. by rewrite lookup_insert_eq.
Qed.

(** The scenario "50", "20", "10", "5", "15". *)
Lemma five_amounts_example :
  sink_calls (effects (snd (run (Some CASH, empty_world)
    (map entry_event
       [ {| entry_text := str_of "50"; entry_sender := ann; entry_env := noon |};
         {| entry_text := str_of "20"; entry_sender := ann; entry_env := noon |};
         {| entry_text := str_of "10"; entry_sender := ann; entry_env := noon |};
         {| entry_text := str_of "5"; entry_sender := ann; entry_env := noon |};
         {| entry_text := str_of "15"; entry_sender := ann; entry_env := noon |} ]))))
  = [([str_of "2024-05-01 12:00:00"; str_of "Ann"; str_of "50"; str_of "20";
       str_of "10"; str_of "5"; str_of "15"], false)].
Proof.
  exact (proj2 (proj2 (five_amounts_append_one_row empty_world
    {| entry_text := str_of "50"; entry_sender := ann; entry_env := noon |}
    {| entry_text := str_of "20"; entry_sender := ann; entry_env := noon |}
    {| entry_text := str_of "10"; entry_sender := ann; entry_env := noon |}
    {| entry_text := str_of "5"; entry_sender := ann; entry_env := noon |}
    {| entry_text := str_of "15"; entry_sender := ann; entry_env := noon |}
    eq_refl eq_refl eq_refl eq_refl eq_refl))).
Defined.










Lemma start_has_key u :
  is_start u = true -> conversation_key u = Some (key_of u).
Proof.
  unfold is_start, key_of, conversation_key, effective_message.
  by destruct (message u).
Qed.

Lemma check_start_in_conversation u s :
  In s awaiting_states -> is_start u = true ->
  conv_check_update conv_handler (Some s) u = None.
Proof.
  intros Hs Hu.
  destruct (awaiting_states_handler u noon empty_world s Hs) as (h & Hh & _).
  unfold conv_check_update, first_match. rewrite Hh. simpl.
  pose proof (start_not_amount u Hu) as Ha.
  pose proof (start_not_cancel u Hu) as Hc.
  unfold is_amount_message in Ha. unfold is_cancel in Hc.
  unfold is_start in Hu. unfold effective_message.
  destruct (message u) as [m|]; [|done]. by rewrite Ha, Hc.
Qed.

(** C2 (as amended). The start command, sent as a new message in a chat
    where its sender has no conversation in progress, begins one in
    AWAITING_CASH and is answered "Enter Cash amount:". [start] does not
    touch [user_data]: the user's session stays as it is. It is empty when
    the user has no conversation in progress in any other chat either. Where
    the sender has a conversation in progress the start command is not
    handled, and nothing changes. *)
Theorem start_begins_conversation_when_idle (b : Bot) (u : Update) (env : Env)
    (w : World) :
  is_start u = true ->
  start u env w
  = (Ok CASH, with_effects w (user_data w) [reply_text "Enter Cash amount:"]) /\
  (conversations b !! key_of u = None ->
   conversations (process_update b u env) !! key_of u = Some CASH /\
   user_data_of (process_update b u env) (snd (key_of u))
   = user_data_of b (snd (key_of u)) /\
   log (process_update b u env) = log b ++ [reply_text "Enter Cash amount:"] /\
   (reachable b -> idle_everywhere b (snd (key_of u)) ->
    user_data_of (process_update b u env) (snd (key_of u)) = ∅)) /\
  (reachable b -> conversations b !! key_of u <> None ->
   process_update b u env = b).
Proof.
  intros Hu. pose proof (start_has_key u Hu) as Hk. split; [|split].
  - pose proof (start_has_message u Hu) as Hm. run_handler.
    by destruct (message u).
  - intros Hidle.
    pose proof (view_process_update b u env _ Hk) as Hview.
    unfold view at 2 in Hview. rewrite Hidle, step_idle, Hu in Hview.
    assert (user_data_of (process_update b u env) (snd (key_of u))
            = user_data_of b (snd (key_of u))) as Hsame.
    { change (user_data (snd (view (process_update b u env) (key_of u)))
              = user_data_of b (snd (key_of u))). by rewrite Hview. }
    split; [|split; [exact Hsame|split]].
    + change (fst (view (process_update b u env) (key_of u)) = Some CASH).
      by rewrite Hview.
    + change (effects (snd (view (process_update b u env) (key_of u)))
              = log b ++ [reply_text "Enter Cash amount:"]). by rewrite Hview.
    + intros Hb Hall. rewrite Hsame.
      destruct (decide (user_data_of b (snd (key_of u)) = ∅)) as [|Hne]; [done|].
      destruct (reachable_session_owner b _ Hb Hne) as [c Hc].
      by destruct (Hc (Hall c)).
  - intros Hb Hbusy. unfold process_update. rewrite Hk.
    destruct (reachable_known_state b (key_of u) Hb) as [Hnone | (s & Hs & Hin)];
      [done|].
    by rewrite Hs, (check_start_in_conversation u s Hin Hu).
Qed.

(** /start from Ann when the bot has just come up. *)
Lemma start_example :
  conversations (process_update bot_initial (command_message "start" ann) noon)
    !! key_of (command_message "start" ann) = Some CASH.
Proof.
  exact (proj1 (proj1 (proj2 (start_begins_conversation_when_idle bot_initial
                                (command_message "start" ann) noon empty_world
                                eq_refl))
                  eq_refl)).
Defined.

(** C2, as stated, fails. After /start and "50" from Ann the conversation
    awaits Card with Cash set; a second /start leaves it there, state and
    session unchanged, and [start] run on that session would not clear it
    either. Sent in another chat, /start begins a conversation there and
    still finds Cash set. *)
Lemma start_does_not_reset_a_conversation :
  reachable cash_entered /\
  conversations cash_entered !! key_of (command_message "start" ann) = Some CARD /\
  conversations (process_update cash_entered (command_message "start" ann) noon)
    !! key_of (command_message "start" ann) = Some CARD /\
  user_data_of (process_update cash_entered (command_message "start" ann) noon)
    (user_id ann) !! "Cash"
  = Some (PStr (str_of "50")) /\
  user_data (snd (start (command_message "start" ann) noon
                    (snd (view cash_entered (key_of (command_message "start" ann))))))
    !! "Cash"
  = Some (PStr (str_of "50")) /\
  conversations started_in_kitchen !! (chat_id kitchen, user_id ann) = Some CASH /\
  user_data_of started_in_kitchen (user_id ann) !! "Cash"
  = Some (PStr (str_of "50")).
Proof.
  split.
  - unfold cash_entered. cbn [run_bot]. do 2 apply reachable_update.
    apply reachable_initial.
  - repeat split; vm_compute; reflexivity.
Qed.

(** ** Properties of the health check server *)

(** C8. A GET request to [/], [/health] or [/healthz] is answered by the same
    view function, [health], with status 200 and body "OK". *)
Theorem health_routes_answer_ok :
  Forall (fun path =>
            Health.dispatch_request Health.health_app Health.GET path
            = Health.view_response "OK" 200 /\
            Health.view_func <$> Health.match_rule Health.health_app path
            = Some Health.health /\
            Health.endpoint <$> Health.match_rule Health.health_app path
            = Some "health")
         ["/"; "/health"; "/healthz"].
Proof. repeat constructor. Qed.

(** ** Further properties of the conversation *)

(** *** The code follows the transition table *)

(** X1. In every state the bot can reach, whoever sends an update and in
    whatever chat, what the update does to the conversation of that chat and
    user and to the user's session is one row of the transition table: start
    when idle, a refused or an accepted amount, the last amount that writes
    the row and ends the conversation, the last amount that finds a field
    missing, cancel, a message edited into cancel, or nothing at all. *)
Theorem reachable_steps_follow_the_table (b : Bot) (u : Update) (env : Env)
    (k : Z * Z) :
  reachable b ->
  conversation_key u = Some k ->
  transition u env (view b k) (view (process_update b u env) k).
Proof.
  intros Hb Hk. rewrite (view_process_update b u env k Hk).
  apply step_transition. by apply reachable_known_state.
Qed.

(** "20" after /start and "50": the accepted amount of AWAITING_CARD. *)
Lemma table_example :
  transition (text_message (str_of "20") ann) noon
    (view cash_entered (user_id ann, user_id ann))
    (view (process_update cash_entered (text_message (str_of "20") ann) noon)
       (user_id ann, user_id ann)).
Proof.
  apply reachable_steps_follow_the_table; [|reflexivity].
  unfold cash_entered. cbn [run_bot]. do 2 apply reachable_update.
  apply reachable_initial.
Defined.

(** *** The handler that is chosen *)

(** Only the five awaiting states have handlers. *)
Lemma states_cases s :
  In s awaiting_states \/ states conv_handler !! s = None.
Proof.
  destruct (decide (s = CASH)) as [->|H0]; [left; by left|].
  destruct (decide (s = CARD)) as [->|H1]; [left; right; by left|].
  destruct (decide (s = UBER)) as [->|H2]; [left; do 2 right; by left|].
  destruct (decide (s = DELIVEROO)) as [->|H3]; [left; do 3 right; by left|].
  destruct (decide (s = APP)) as [->|H4]; [left; do 4 right; by left|].
  right. unfold conv_handler. cbn [states].
  rewrite !lookup_insert_ne by congruence. apply lookup_empty.
Qed.

(** The handler the [ConversationHandler] chooses is [start] when idle and,
    in a conversation, the amount handler of the state or [cancel]. *)
Lemma chosen_handler_cases st u h :
  conv_check_update conv_handler st u = Some h ->
  check_update h u = true /\
  (st = None /\ h = CommandHandler "start" start \/
   st = Some CASH /\ h = MessageHandler filters_TEXT_and_not_COMMAND cash \/
   st = Some CARD /\ h = MessageHandler filters_TEXT_and_not_COMMAND card \/
   st = Some UBER /\ h = MessageHandler filters_TEXT_and_not_COMMAND uber \/
   st = Some DELIVEROO /\
     h = MessageHandler filters_TEXT_and_not_COMMAND deliveroo \/
   st = Some APP /\ h = MessageHandler filters_TEXT_and_not_COMMAND app_amount \/
   st <> None /\ h = CommandHandler "cancel" cancel).
Proof.
  unfold conv_check_update, first_match. destruct st as [s|].
  - assert (forall h0,
              match List.find (fun h' => check_update h' u) [h0] with
              | Some h' => Some h'
              | None => List.find (fun h' => check_update h' u) (fallbacks conv_handler)
              end = Some h ->
              check_update h u = true /\
              (h = h0 \/ h = CommandHandler "cancel" cancel)) as Hone.
    { intros h0. cbn [List.find]. destruct (check_update h0 u) eqn:H0.
      - intros [= <-]. auto.
      - intros Hh. apply find_some in Hh as [[<- | []] Hc]. auto. }
    assert (List.find (fun h' => check_update h' u) (fallbacks conv_handler) = Some h ->
            check_update h u = true /\ h = CommandHandler "cancel" cancel) as Hnone.
    { intros Hh. apply find_some in Hh as [[<- | []] Hc]. auto. }
    destruct (states_cases s) as [[<- | [<- | [<- | [<- | [<- | []]]]]] | Hs].
    + rewrite states_CASH. intros [Hc [-> | ->]]%Hone; (split; [done|]);
        [right; left|do 6 right]; done.
    + rewrite states_CARD. intros [Hc [-> | ->]]%Hone; (split; [done|]);
        [do 2 right; left|do 6 right]; done.
    + rewrite states_UBER. intros [Hc [-> | ->]]%Hone; (split; [done|]);
        [do 3 right; left|do 6 right]; done.
    + rewrite states_DELIVEROO. intros [Hc [-> | ->]]%Hone; (split; [done|]);
        [do 4 right; left|do 6 right]; done.
    + rewrite states_APP. intros [Hc [-> | ->]]%Hone; (split; [done|]);
        [do 5 right; left|do 6 right]; done.
    + rewrite Hs. cbn [default List.find]. intros [Hc ->]%Hnone.
      split; [done|]. do 6 right. done.
  - intros Hh. apply find_some in Hh as [[<- | []] Hc]. split; [done|]. by left.
Qed.

(** *** One reply for an update that is handled *)

Lemma replies_app es1 es2 : replies (es1 ++ es2) = replies es1 ++ replies es2.
Proof. apply flat_map_app. Qed.

Lemma start_answers_once : answers_once start.
Proof.
  intros u env w. destruct (message u) as [m|] eqn:Hm.
  - left. exists CASH. do 2 eexists. split.
    + run_handler. rewrite Hm. reflexivity.
    + cbn [effects]. by rewrite replies_app.
  - right. do 2 eexists. split; [apply (handlers_without_message u env w Hm)|done].
Qed.

Lemma cancel_answers_once : answers_once cancel.
Proof.
  intros u env w. destruct (message u) as [m|] eqn:Hm.
  - left. exists END. do 2 eexists. split.
    + run_handler. rewrite Hm. reflexivity.
    + cbn [effects]. by rewrite replies_app.
  - right. do 2 eexists. split; [apply (handlers_without_message u env w Hm)|done].
Qed.

(** The shape of the first four amount handlers. *)
Lemma amount_handler_answers_once (f : Update -> M Z) s s' ud' p1 p2 :
  (forall u env w, message u = None -> f u env w = (Raise AttributeError, w)) ->
  (forall u env w, message u <> None -> is_number (message_text u) = Ok false ->
     f u env w = (Ok s, with_effects w (user_data w) [reply_text p1])) ->
  (forall u env w, is_number (message_text u) = Ok true ->
     f u env w = (Ok s', with_effects w (ud' u w) [reply_text p2])) ->
  answers_once f.
Proof.
  intros Hnone Hno Hyes u env w. destruct (message u) as [m|] eqn:Hm.
  - left. destruct (is_number_total (message_text u)) as [[|] Hb].
    + do 3 eexists. split; [by apply Hyes|].
      simpl_config. by rewrite replies_app.
    + do 3 eexists. split; [apply Hno; [by rewrite Hm|done]|].
      simpl_config. by rewrite replies_app.
  - right. do 2 eexists. split; [by apply Hnone|done].
Qed.

Lemma cash_answers_once : answers_once cash.
Proof.
  apply (amount_handler_answers_once cash CASH CARD
           (fun u w => <["Cash" := message_text u]> (user_data w))
           "❌ Please enter a valid number for Cash." "Enter Card amount:").
  - intros u env w Hm. apply (handlers_without_message u env w Hm).
  - intros u env w. apply cash_invalid.
  - intros u env w. apply cash_valid.
Qed.

Lemma card_answers_once : answers_once card.
Proof.
  apply (amount_handler_answers_once card CARD UBER
           (fun u w => <["Card" := message_text u]> (user_data w))
           "❌ Please enter a valid number for Card." "Enter Uber amount:").
  - intros u env w Hm. apply (handlers_without_message u env w Hm).
  - intros u env w. apply card_invalid.
  - intros u env w. apply card_valid.
Qed.

Lemma uber_answers_once : answers_once uber.
Proof.
  apply (amount_handler_answers_once uber UBER DELIVEROO
           (fun u w => <["Uber" := message_text u]> (user_data w))
           "❌ Please enter a valid number for Uber." "Enter Deliveroo amount:").
  - intros u env w Hm. apply (handlers_without_message u env w Hm).
  - intros u env w. apply uber_invalid.
  - intros u env w. apply uber_valid.
Qed.

Lemma deliveroo_answers_once : answers_once deliveroo.
Proof.
  apply (amount_handler_answers_once deliveroo DELIVEROO APP
           (fun u w => <["Deliveroo" := message_text u]> (user_data w))
           "❌ Please enter a valid number for Deliveroo." "Enter App amount:").
  - intros u env w Hm. apply (handlers_without_message u env w Hm).
  - intros u env w. apply deliveroo_invalid.
  - intros u env w. apply deliveroo_valid.
Qed.

Lemma replies_after_append raised :
  exists msg, replies (after_append raised) = [msg].
Proof. destruct raised; by eexists. Qed.

Lemma app_amount_answers_once : answers_once app_amount.
Proof.
  intros u env w. destruct (message u) as [m|] eqn:Hm.
  - assert (message u <> None) as Hsome by (by rewrite Hm).
    destruct (is_number_total (message_text u)) as [[|] Hb].
    + destruct (earlier_fields_cases (user_data w))
        as [(v1 & v2 & v3 & v4 & H1 & H2 & H3 & H4) | (k & Hk & Hmiss)].
      * left. destruct (replies_after_append (append_row_raises env)) as [msg Hmsg].
        exists END. do 2 eexists. split.
        -- exact (app_amount_valid u env w v1 v2 v3 v4 Hb H1 H2 H3 H4).
        -- simpl_config. rewrite !replies_app, Hmsg. cbn [replies flat_map app].
           reflexivity.
      * right. do 2 eexists. split.
        -- exact (app_amount_missing u env w k Hk Hmiss Hb).
        -- done.
    + left. do 3 eexists. split; [exact (app_amount_invalid u env w Hsome Hb)|].
      simpl_config. by rewrite replies_app.
  - right. do 2 eexists. split; [apply (handlers_without_message u env w Hm)|done].
Qed.

(** X5. Whatever the state and the session, an update that is not handled
    changes nothing, and the handler chosen for one that is handled replies
    exactly once when it returns and not at all when it raises. *)
Theorem one_reply_per_handled_update (c : config) (u : Update) (env : Env) :
  (conv_check_update conv_handler (fst c) u = None ->
   conv_handle_update conv_handler c u env = c) /\
  (forall h, conv_check_update conv_handler (fst c) u = Some h ->
     (exists s w' msg,
        callback h u env (snd c) = (Ok s, w') /\
        replies (effects w') = replies (effects (snd c)) ++ [msg]) \/
     (exists e w',
        callback h u env (snd c) = (Raise e, w') /\
        replies (effects w') = replies (effects (snd c)))).
Proof.
  split.
  - intros Hnone. unfold conv_handle_update. by rewrite Hnone.
  - intros h Hh.
    destruct (chosen_handler_cases _ _ _ Hh)
      as [_ [[_ ->] | [[_ ->] | [[_ ->] | [[_ ->] | [[_ ->] | [[_ ->] | [_ ->]]]]]]]];
      cbn [callback CommandHandler MessageHandler].
    + apply start_answers_once.
    + apply cash_answers_once.
    + apply card_answers_once.
    + apply uber_answers_once.
    + apply deliveroo_answers_once.
    + apply app_amount_answers_once.
    + apply cancel_answers_once.
Qed.

(** /cancel while Card is awaited is answered once. *)
Lemma one_reply_example :
  (exists s w' msg,
     cancel (command_message "cancel" ann) noon
       {| user_data := {["Cash" := PStr (str_of "50")]}; effects := [] |}
     = (Ok s, w') /\
     replies (effects w') = [] ++ [msg]) \/
  (exists e w',
     cancel (command_message "cancel" ann) noon
       {| user_data := {["Cash" := PStr (str_of "50")]}; effects := [] |}
     = (Raise e, w') /\
     replies (effects w') = []).
Proof.
  exact (proj2 (one_reply_per_handled_update
                  (Some CARD,
                   {| user_data := {["Cash" := PStr (str_of "50")]};
                      effects := [] |})
                  (command_message "cancel" ann) noon)
           (CommandHandler "cancel" cancel) eq_refl).
Defined.

(** *** The handlers raise in two ways only *)




(** *** The effects so far are not read *)

Section Uniform.

Ltac unfold_uniform :=
  intros env w; unfold forget; cbn [fst snd user_data effects app].

Lemma uniform_ret {A : Type} (a : A) : uniform (ret a).
Proof. unfold_uniform. unfold ret. cbn [fst snd user_data effects]. by rewrite app_nil_r; destruct w. Qed.

Lemma uniform_lift {A : Type} (r : result A) : uniform (lift r).
Proof. unfold_uniform. unfold lift. cbn [fst snd user_data effects]. by rewrite app_nil_r; destruct w. Qed.

Lemma uniform_emit e : uniform (emit e).
Proof. unfold_uniform. unfold emit. by cbn [fst snd user_data effects app]. Qed.

Lemma uniform_set_item k v : uniform (set_item k v).
Proof. unfold_uniform. unfold set_item. cbn [fst snd user_data effects]. by rewrite app_nil_r. Qed.

Lemma uniform_get_item k : uniform (get_item k).
Proof.
  unfold_uniform. unfold get_item. cbn [user_data].
  destruct (user_data w !! k); cbn [fst snd user_data effects];
    by rewrite app_nil_r; destruct w.
Qed.

Lemma uniform_user_data_clear : uniform user_data_clear.
Proof. unfold_uniform. unfold user_data_clear. cbn [fst snd user_data effects]. by rewrite app_nil_r. Qed.

Lemma uniform_strftime_now : uniform strftime_now.
Proof. unfold_uniform. unfold strftime_now. cbn [fst snd user_data effects]. by rewrite app_nil_r; destruct w. Qed.

Lemma uniform_sheet_append_row row : uniform (sheet_append_row row).
Proof.
  unfold_uniform. unfold sheet_append_row. cbn [user_data effects app].
  by destruct (append_row_raises env).
Qed.

Lemma uniform_bind {A B : Type} (c : M A) (k : A -> M B) :
  uniform c -> (forall a, uniform (k a)) -> uniform (bind c k).
Proof.
  intros Hc Hk env w. unfold bind. rewrite (Hc env w).
  destruct (c env (forget w)) as [[a|e] [ud0 es0]]; cbn [fst snd user_data effects].
  - rewrite (Hk a env). unfold forget at 1 2 3. cbn [user_data effects].
    rewrite (Hk a env {| user_data := ud0; effects := es0 |}).
    unfold forget. cbn [fst snd user_data effects]. by rewrite app_assoc.
  - done.
Qed.

Lemma uniform_try_except {A : Type} (body : M A) (handler : exn -> M A) :
  uniform body -> (forall e, uniform (handler e)) ->
  uniform (try_except_Exception body handler).
Proof.
  intros Hb Hh env w. unfold try_except_Exception. rewrite (Hb env w).
  destruct (body env (forget w)) as [[a|e] [ud0 es0]]; cbn [fst snd user_data effects].
  - done.
  - rewrite (Hh e env). unfold forget at 1 2 3. cbn [user_data effects].
    rewrite (Hh e env {| user_data := ud0; effects := es0 |}).
    unfold forget. cbn [fst snd user_data effects]. by rewrite app_assoc.
Qed.

Lemma uniform_update_message u : uniform (update_message u).
Proof.
  unfold update_message. destruct (message u); [apply uniform_ret|apply uniform_lift].
Qed.

(** Decompose a handler into the primitives above. *)
Ltac uniform_handler :=
  unfold update_message_text, update_message_reply_text,
    update_message_from_user_full_name;
  repeat first
    [ apply uniform_ret | apply uniform_lift | apply uniform_emit
    | apply uniform_update_message
    | apply uniform_set_item | apply uniform_get_item
    | apply uniform_user_data_clear | apply uniform_strftime_now
    | apply uniform_sheet_append_row
    | apply uniform_bind; [|intros ?]
    | apply uniform_try_except; [|intros ?]
    | match goal with |- uniform (if ?b then _ else _) => destruct b end ].

Lemma start_uniform u : uniform (start u).
Proof. unfold start. uniform_handler. Qed.

Lemma cash_uniform u : uniform (cash u).
Proof. unfold cash. cbv zeta. uniform_handler. Qed.

Lemma card_uniform u : uniform (card u).
Proof. unfold card. cbv zeta. uniform_handler. Qed.

Lemma uber_uniform u : uniform (uber u).
Proof. unfold uber. cbv zeta. uniform_handler. Qed.

Lemma deliveroo_uniform u : uniform (deliveroo u).
Proof. unfold deliveroo. cbv zeta. uniform_handler. Qed.

Lemma app_amount_uniform u : uniform (app_amount u).
Proof. unfold app_amount. cbv zeta. uniform_handler. Qed.

Lemma cancel_uniform u : uniform (cancel u).
Proof. unfold cancel. uniform_handler. Qed.

End Uniform.

Lemma chosen_handler_uniform st u h :
  conv_check_update conv_handler st u = Some h ->
  forall u', uniform (callback h u').
Proof.
  intros Hh u'.
  destruct (chosen_handler_cases _ _ _ Hh)
    as [_ [[_ ->] | [[_ ->] | [[_ ->] | [[_ ->] | [[_ ->] | [[_ ->] | [_ ->]]]]]]]];
    cbn [callback CommandHandler MessageHandler].
  - apply start_uniform.
  - apply cash_uniform.
  - apply card_uniform.
  - apply uber_uniform.
  - apply deliveroo_uniform.
  - apply app_amount_uniform.
  - apply cancel_uniform.
Qed.

Lemma step_uniform c u env :
  conv_handle_update conv_handler c u env
  = (fst (conv_handle_update conv_handler (fst c, forget (snd c)) u env),
     {| user_data :=
          user_data (snd (conv_handle_update conv_handler (fst c, forget (snd c)) u env));
        effects :=
          effects (snd c)
          ++ effects (snd (conv_handle_update conv_handler (fst c, forget (snd c)) u env)) |}).
Proof.
  destruct c as [st w]. unfold conv_handle_update. cbn [fst snd].
  destruct (conv_check_update conv_handler st u) as [h|] eqn:Hh.
  - rewrite (chosen_handler_uniform st u h Hh u env w).
    by destruct (callback h u env (forget w)) as [[new_state|e] w'].
  - unfold forget. cbn [fst snd user_data effects].
    rewrite app_nil_r. by destruct w.
Qed.


(** *** Refused texts leave no trace *)

Lemma amount_not_start u : is_amount_message u = true -> is_start u = false.
Proof.
  intros Hu. destruct (is_start u) eqn:Hs; [|done].
  apply start_not_amount in Hs. congruence.
Qed.

Lemma amount_not_cancel u : is_amount_message u = true -> is_cancel u = false.
Proof.
  intros Hu. destruct (is_cancel u) eqn:Hs; [|done].
  apply cancel_not_amount in Hs. congruence.
Qed.

(** In a state without handlers a new message is handled only when it is
    the cancel command. *)
Lemma step_no_handlers u env w s :
  states conv_handler !! s = None ->
  message u <> None ->
  conv_handle_update conv_handler (Some s, w) u env
  = if is_cancel u
    then (None, with_effects w ∅ [reply_text "Entry cancelled."])
    else (Some s, w).
Proof.
  intros Hs Hm. unfold conv_handle_update, conv_check_update, first_match, is_cancel.
  cbn [fst snd]. rewrite Hs. simpl. unfold effective_message.
  destruct (message u) as [m|] eqn:Hu; [|done].
  destruct (is_command "cancel" m); [|done].
  cbn [callback CommandHandler]. run_handler. by rewrite Hu.
Qed.

Lemma same_session_refl c : same_session c c.
Proof. by repeat split. Qed.

Lemma same_session_trans c1 c2 c3 :
  same_session c1 c2 -> same_session c2 c3 -> same_session c1 c3.
Proof.
  intros (H1 & H2 & H3) (H4 & H5 & H6). repeat split; congruence.
Qed.

Lemma step_same_session c1 c2 u env :
  same_session c1 c2 ->
  same_session (conv_handle_update conv_handler c1 u env)
               (conv_handle_update conv_handler c2 u env).
Proof.
  intros (Hst & Hud & Hcalls).
  rewrite (step_uniform c1 u env), (step_uniform c2 u env).
  assert (forget (snd c1) = forget (snd c2)) as -> by (unfold forget; by rewrite Hud).
  rewrite Hst. repeat split. cbn [fst snd effects].
  by rewrite !sink_calls_app, Hcalls.
Qed.

Lemma step_refused c u env :
  refused (u, env) = true ->
  same_session (conv_handle_update conv_handler c u env) c.
Proof.
  unfold refused. cbn [fst]. intros H. apply andb_true_iff in H as [Hu Hb].
  assert (is_number (message_text u) = Ok false) as Hno.
  { destruct (is_number (message_text u)) as [[|]|]; done. }
  clear Hb. destruct c as [[s|] w].
  - destruct (states_cases s) as [Hs | Hnone].
    + assert (conv_handle_update conv_handler (Some s, w) u env
              = (Some s, with_effects w (user_data w)
                           [reply_text (refusal_prompt s)])) as ->.
      { destruct Hs as [<- | [<- | [<- | [<- | [<- | []]]]]].
        - exact (step_cash_invalid u env w Hu Hno).
        - exact (step_card_invalid u env w Hu Hno).
        - exact (step_uber_invalid u env w Hu Hno).
        - exact (step_deliveroo_invalid u env w Hu Hno).
        - exact (step_app_amount_invalid u env w Hu Hno). }
      repeat split. simpl_config. by rewrite sink_calls_app, app_nil_r.
    + rewrite (step_no_handlers u env w s Hnone (amount_has_message u Hu)),
        (amount_not_cancel u Hu).
      apply same_session_refl.
  - rewrite step_idle, (amount_not_start u Hu). apply same_session_refl.
Qed.

Lemma run_without_refused c1 c2 events :
  same_session c1 c2 ->
  same_session (run c1 events)
               (run c2 (List.filter (fun e => negb (refused e)) events)).
Proof.
  revert c1 c2. induction events as [|[u env] events IH]; intros c1 c2 Hc; [done|].
  cbn [run List.filter]. destruct (refused (u, env)) eqn:Hr; cbn [negb run].
  - apply IH. eapply same_session_trans; [|exact Hc]. by apply step_refused.
  - apply IH. by apply step_same_session.
Qed.

(** X3. The amount messages that [is_number] refuses leave no trace but
    their error replies: from any configuration, a sequence of updates ends
    in the same state, with the same session and the same calls of
    [sheet.append_row], as the sequence without its refused messages. *)
Theorem refused_messages_leave_no_trace (c : config) (events : list (Update * Env)) :
  fst (run c events)
  = fst (run c (List.filter (fun e => negb (refused e)) events)) /\
  user_data (snd (run c events))
  = user_data (snd (run c (List.filter (fun e => negb (refused e)) events))) /\
  sink_calls (effects (snd (run c events)))
  = sink_calls (effects (snd (run c (List.filter (fun e => negb (refused e)) events)))).
Proof.
  apply (run_without_refused c c events), same_session_refl.
Qed.

(** *** A missing field *)

Lemma accepted_is_text u :
  is_number (message_text u) = Ok true -> exists t, message_text u = PStr t.
Proof.
  unfold message_text. destruct (message u) as [m|]; [|done].
  destruct (text m) as [t|]; [eauto|done].
Qed.

(** X4. When an earlier field is missing from [user_data], [app_amount] on an
    accepted amount stores it under "App" and then raises [KeyError]: nothing
    is replied, printed or sent to the sheet, and the conversation stays in
    AWAITING_APP with the field still missing. *)
Theorem missing_field_raises_KeyError (u : Update) (env : Env) (w : World)
    (k : string) :
  In k ["Cash"; "Card"; "Uber"; "Deliveroo"] ->
  user_data w !! k = None ->
  is_amount_message u = true ->
  is_number (message_text u) = Ok true ->
  app_amount u env w
  = (Raise KeyError,
     {| user_data := <["App" := message_text u]> (user_data w);
        effects := effects w |}) /\
  conv_handle_update conv_handler (Some APP, w) u env
  = (Some APP,
     {| user_data := <["App" := message_text u]> (user_data w);
        effects := effects w |}) /\
  <["App" := message_text u]> (user_data w) !! k = None.
Proof.
  intros Hk Hnone Hu Hb.
  pose proof (app_amount_missing u env w k Hk Hnone Hb) as Hraise.
  split; [done|]. split.
  - by rewrite (step_amount u env w APP app_amount states_APP Hu), Hraise.
  - rewrite lookup_insert_ne; [done|].
    destruct Hk as [<- | [<- | [<- | [<- | []]]]]; done.
Qed.

(** "15" in AWAITING_APP with an empty session. *)
Lemma missing_field_example :
  fst (conv_handle_update conv_handler (Some APP, empty_world)
         (text_message (str_of "15") ann) noon) = Some APP /\
  effects (snd (conv_handle_update conv_handler (Some APP, empty_world)
                  (text_message (str_of "15") ann) noon)) = [].
Proof.
  destruct (missing_field_raises_KeyError (text_message (str_of "15") ann) noon
              empty_world "Cash" (or_introl eq_refl) eq_refl eq_refl eq_refl)
    as (_ & Hstep & _).
  rewrite Hstep. by split.
Defined.

(** *** What an update leaves in the session *)

Lemma transition_keeps_fields u env s w c' :
  transition u env (Some s, w) c' ->
  is_edited_cancel u = false ->
  fst c' <> None ->
  (forall k, k <> field_of s ->
     user_data (snd c') !! k = user_data w !! k) /\
  (user_data w !! field_of s = None -> user_data w ⊆ user_data (snd c')).
Proof.
  intros Ht Hedit Hgoes. inversion Ht as
    [w0 Hu | w0 Hu | s0 w0 Hs Hu Hb | s0 w0 Hs Hu Hb
    | w0 v1 v2 v3 v4 Hu Hb H1 H2 H3 H4 | w0 k0 Hu Hb Hk Hnone
    | s0 w0 Hs Hc | s0 w0 Hs He | s0 w0 Hs Hu Hc He]; subst;
    cbn [fst snd] in *; simpl_config; try done; try congruence.
  - split; [intros k Hk; by rewrite lookup_insert_ne|].
    intros Hnew. by apply insert_subseteq.
  - split; [intros k Hk'; by rewrite lookup_insert_ne|].
    intros Hnew. by apply insert_subseteq.
Qed.

(** X6. Unless a message was edited into the cancel command, an update that
    does not end the conversation leaves every field of the session as it
    is, but for the field of the current state; and where that field was not
    set, every amount entered before is still there afterwards. *)
Theorem entered_amounts_are_kept (s : Z) (w : World) (u : Update) (env : Env) :
  In s awaiting_states ->
  is_edited_cancel u = false ->
  fst (conv_handle_update conv_handler (Some s, w) u env) <> None ->
  (forall k, k <> field_of s ->
     user_data (snd (conv_handle_update conv_handler (Some s, w) u env)) !! k
     = user_data w !! k) /\
  (user_data w !! field_of s = None ->
   user_data w ⊆ user_data (snd (conv_handle_update conv_handler (Some s, w) u env))).
Proof.
  intros Hs Hedit Hgoes. apply (transition_keeps_fields u env); [|done..].
  apply step_transition. right. by exists s.
Qed.

(** "20" after "50" keeps Cash. *)
Lemma entered_amounts_example :
  user_data (snd (conv_handle_update conv_handler
                    (Some CARD, {| user_data := {["Cash" := PStr (str_of "50")]};
                                   effects := [] |})
                    (text_message (str_of "20") ann) noon)) !! "Cash"
  = Some (PStr (str_of "50")).
Proof.
  transitivity (user_data {| user_data := {["Cash" := PStr (str_of "50")]};
                             effects := [] |} !! "Cash");
    [|vm_compute; reflexivity].
  refine (proj1 (entered_amounts_are_kept CARD
                   {| user_data := {["Cash" := PStr (str_of "50")]}; effects := [] |}
                   (text_message (str_of "20") ann) noon _ eq_refl _) "Cash" _).
  - right. by left.
  - vm_compute. discriminate.
  - intros H. vm_compute in H. discriminate H.
Defined.

(** *** Only validated amounts reach the sheet *)

Lemma session_valid_lookup (ud : gmap string pyval) k v :
  session_valid ud -> ud !! k = Some v ->
  is_number (PStr (py_str v)) = Ok true.
Proof.
  intros Hud Hk. destruct (map_Forall_lookup_1 _ _ _ _ Hud Hk) as (t & -> & Ht).
  exact Ht.
Qed.

Lemma transition_rows u env c c' :
  transition u env c c' ->
  session_valid (user_data (snd c)) ->
  Forall row_ok (sink_calls (effects (snd c))) ->
  session_valid (user_data (snd c')) /\
  Forall row_ok (sink_calls (effects (snd c'))).
Proof.
  intros [w Hu | w Hu | s w Hs Hu Hb | s w Hs Hu Hb
         | w v1 v2 v3 v4 Hu Hb H1 H2 H3 H4 | w k Hu Hb Hk Hnone
         | s w Hs Hc | s w Hs He | s w Hs Hu Hc He]
    Hud Hrows; cbn [fst snd] in *; simpl_config;
    rewrite ?sink_calls_app, ?sink_calls_after_append, ?app_nil_r;
    try (split; [done|done]).
  - (* an accepted amount joins the session *)
    split; [|done]. apply map_Forall_insert_2; [|done].
    destruct (accepted_is_text u Hb) as [t Ht]. exists t. by rewrite <- Ht.
  - (* the row is made of accepted amounts *)
    split; [apply map_Forall_empty|]. apply Forall_app. split; [done|].
    constructor; [|constructor]. split; [done|]. cbn [fst drop].
    destruct (accepted_is_text u Hb) as [t Ht].
    repeat constructor.
    + exact (session_valid_lookup _ _ _ Hud H1).
    + exact (session_valid_lookup _ _ _ Hud H2).
    + exact (session_valid_lookup _ _ _ Hud H3).
    + exact (session_valid_lookup _ _ _ Hud H4).
    + rewrite Ht in Hb |- *. exact Hb.
  - (* the last amount is stored before a field is found missing *)
    split; [|done]. apply map_Forall_insert_2; [|done].
    destruct (accepted_is_text u Hb) as [t Ht]. exists t. by rewrite <- Ht.
Qed.

Lemma reachable_rows b :
  reachable b ->
  Forall row_ok (sink_calls (log b)) /\
  forall user, session_valid (user_data_of b user).
Proof.
  induction 1 as [|b u env Hb [Hrows Hud]].
  - split; [constructor|]. intros user. apply map_Forall_empty.
  - destruct (conversation_key u) as [k|] eqn:Hk;
      [|by rewrite (process_update_no_key b u env Hk)].
    destruct (transition_rows u env (view b k)
                (conv_handle_update conv_handler (view b k) u env))
      as [Hud' Hrows'].
    + apply step_transition. by apply reachable_known_state.
    + apply Hud.
    + exact Hrows.
    + split; [by rewrite (process_update_log b u env k Hk)|].
      intros user. destruct (decide (user = snd k)) as [->|Hne].
      * by rewrite (process_update_user_data b u env k Hk).
      * by rewrite (process_update_other_user b u env k user Hk Hne).
Qed.

(** X7. Whatever updates arrive, new or edited, from whatever users and
    chats, every row the bot has sent to the sheet has seven cells, and its
    five amounts are texts that [is_number] accepts, as is every value held
    in the session of any user. *)
Theorem only_validated_amounts_reach_the_sheet (b : Bot) :
  reachable b ->
  Forall row_ok (sink_calls (log b)) /\
  forall user, session_valid (user_data_of b user).
Proof. apply reachable_rows. Qed.

(** After one complete entry: one row. *)
Lemma validated_amounts_example :
  Forall row_ok (sink_calls (log one_entry)) /\
  forall user, session_valid (user_data_of one_entry user).
Proof.
  apply only_validated_amounts_reach_the_sheet.
  unfold one_entry. cbn [run_bot]. do 6 apply reachable_update.
  apply reachable_initial.
Defined.

(** ** Further properties of the numeric validator *)

Section Characters.

Import PyFloat FloatSyntax.

#[local] Arguments is_digit : simpl never.
#[local] Arguments Py_ISSPACE : simpl never.
#[local] Arguments Py_TOLOWER : simpl never.

Lemma str_letters : str_of "aefinty" = [97; 101; 102; 105; 110; 116; 121].
Proof. reflexivity. Qed.

(** Find a letter in the list of letters. *)
Ltac in_letters := cbn [In]; repeat (first [left; reflexivity | right]).

Lemma digit_float_ascii c : is_digit c = true -> float_ascii c.
Proof.
  intros Hc. split; [|by left]. unfold is_digit, c_nine in Hc.
  apply andb_true_iff in Hc as [_ Hc]. apply N.leb_le in Hc. lia.
Qed.

Lemma space_float_ascii c : Py_ISSPACE c = true -> float_ascii c.
Proof.
  intros Hc. split; [|by do 5 right; left].
  unfold Py_ISSPACE, c_space, c_tab, c_cr in Hc.
  apply orb_true_iff in Hc as [Hc | Hc].
  - apply N.eqb_eq in Hc. lia.
  - apply andb_true_iff in Hc as [_ Hc]. apply N.leb_le in Hc. lia.
Qed.

Lemma letter_float_ascii c x :
  Py_TOLOWER c = x -> In x [97; 101; 102; 105; 110; 116; 121] -> float_ascii c.
Proof.
  intros Hc Hx. split.
  - unfold Py_TOLOWER, c_upper_A, c_upper_Z in Hc.
    destruct ((65 <=? c) && (c <=? 90)) eqn:Hup.
    + apply andb_true_iff in Hup as [_ Hup]. apply N.leb_le in Hup. lia.
    + subst x. repeat (destruct Hx as [Hx | Hx]; [lia|]). done.
  - do 6 right. by rewrite str_letters, Hc.
Qed.

Lemma digits_float_ascii d : digits d -> Forall float_ascii d.
Proof.
  intros Hd. eapply Forall_impl; [exact Hd|]. intros c. apply digit_float_ascii.
Qed.

Lemma sign_float_ascii sg : sign sg -> Forall float_ascii sg.
Proof.
  intros [-> | [-> | ->]]; [constructor| |];
    (constructor; [|constructor]); (split; [done|]); auto.
Qed.

Lemma lower_letters_float_ascii a w :
  map Py_TOLOWER a = w ->
  Forall (fun x => In x [97; 101; 102; 105; 110; 116; 121]) w ->
  Forall float_ascii a.
Proof.
  revert w. induction a as [|c a IH]; intros w Hw Hall; [constructor|].
  destruct w as [|x w]; [done|]. injection Hw as Hc Ha.
  apply Forall_cons in Hall as [Hx Hall].
  constructor; [by eapply letter_float_ascii|by eapply IH].
Qed.

Lemma floatvalue_float_ascii b : floatvalue b -> Forall float_ascii b.
Proof.
  intros (sg & a & -> & Hsg & Ha). apply Forall_app.
  split; [by apply sign_float_ascii|].
  destruct Ha as [(m & e & -> & (ip & fp & Hip & Hfp & Hm) & He) | Ha].
  - apply Forall_app. split.
    + destruct Hm as [[-> _] | [-> _]]; [by apply digits_float_ascii|].
      apply Forall_app. split; [by apply digits_float_ascii|].
      constructor; [split; [done|auto]|by apply digits_float_ascii].
    + destruct He as [-> | (c & sg' & d & -> & Hc & Hsg' & Hd & _)]; [constructor|].
      constructor.
      * apply (letter_float_ascii c 101); [by destruct Hc as [-> | ->]|].
        right; by left.
      * apply Forall_app.
        split; [by apply sign_float_ascii|by apply digits_float_ascii].
  - unfold special in Ha. rewrite str_inf, str_infinity, str_nan in Ha.
    destruct Ha as [H | [H | H]]; apply (lower_letters_float_ascii _ _ H);
      repeat (constructor; [in_letters|]); constructor.
Qed.

Lemma without_underscores_float_ascii t :
  Forall float_ascii (without_underscores t) -> Forall float_ascii t.
Proof.
  unfold without_underscores. induction t as [|c t IH]; [done|].
  cbn [List.filter]. destruct (N.eqb_spec c c_underscore) as [->|Hc]; cbn [negb].
  - intros Ht. constructor; [|by apply IH]. split; [done|]. do 4 right. by left.
  - intros Ht. apply Forall_cons in Ht as [Hc' Ht]. constructor; [done|by apply IH].
Qed.

Lemma question_mark_not_float_ascii : ~ float_ascii c_question.
Proof.
  intros [_ H]. rewrite str_letters in H.
  repeat (destruct H as [H | H]; [done|]). cbn in H. intuition discriminate.
Qed.

Lemma transform_float_char s :
  Forall float_ascii (TransformDecimalAndSpaceToASCII s) -> Forall float_char s.
Proof.
  unfold TransformDecimalAndSpaceToASCII.
  destruct (forallb (fun c => c <? 128) s).
  - intros Hs. eapply Forall_impl; [exact Hs|]. intros c Hc. by left.
  - induction s as [|c s IH]; [constructor|]. cbn [transform_chars].
    destruct (N.ltb_spec c 127) as [Hlt|Hge].
    + intros Ht. apply Forall_cons in Ht as [Hc Ht].
      constructor; [by left|by apply IH].
    + destruct (Py_UNICODE_ISSPACE c) eqn:Hsp.
      * intros Ht. apply Forall_cons in Ht as [_ Ht].
        constructor; [right; auto|by apply IH].
      * destruct (Py_UNICODE_TODECIMAL c) as [d|] eqn:Hdec.
        -- intros Ht. apply Forall_cons in Ht as [_ Ht].
           constructor; [|by apply IH]. right. split; [done|]. right. congruence.
        -- intros Ht. apply Forall_cons in Ht as [Hq _].
           by apply question_mark_not_float_ascii in Hq.
Qed.

Lemma float_text_chars s : float_text s -> Forall float_char s.
Proof.
  intros (_ & l & b & r & Ht & Hl & Hr & Hb).
  apply transform_float_char, without_underscores_float_ascii. rewrite Ht.
  apply Forall_app. split; [|apply Forall_app; split].
  - eapply Forall_impl; [exact Hl|]. intros c. apply space_float_ascii.
  - by apply floatvalue_float_ascii.
  - eapply Forall_impl; [exact Hr|]. intros c. apply space_float_ascii.
Qed.

(** X9. A text that [is_number] accepts holds nothing but digits, signs,
    points, underscores, white space and the letters of the exponent and of
    inf, infinity and nan (beyond ASCII: Unicode spaces and decimal digits).
    So [is_number] refuses every text with a comma in it, as "1,000" or
    "12,5", and every text with a slash, as a command is. *)
Theorem is_number_refuses_other_characters :
  (forall s, is_number (PStr s) = Ok true -> Forall float_char s) /\
  (forall s c, In c s -> ~ float_char c -> is_number (PStr s) = Ok false) /\
  (forall s, In 44 s \/ In 47 s -> is_number (PStr s) = Ok false).
Proof.
  assert (forall s, is_number (PStr s) = Ok true -> Forall float_char s) as Hchars.
  { intros s Hs. by apply float_text_chars, is_number_float_text. }
  assert (forall s c, In c s -> ~ float_char c -> is_number (PStr s) = Ok false)
    as Hother.
  { intros s c Hin Hc. destruct (is_number_total (PStr s)) as [[|] Hb]; [|done].
    apply Hchars in Hb. rewrite Forall_forall in Hb.
    destruct Hc. by apply Hb, list_elem_of_In. }
  split; [done|]. split; [done|].
  assert (forall c, c = 44 \/ c = 47 -> ~ float_char c) as Hno.
  { intros c Hc [[_ H] | [H _]]; [|lia]. rewrite str_letters in H.
    destruct Hc as [-> | ->];
      repeat (destruct H as [H | H]; [done|]); cbn in H; intuition discriminate. }
  intros s [Hin | Hin]; eapply Hother; eauto.
Qed.

End Characters.

(** ** Properties of the start-up *)

Section StartupProperties.

Import Startup.

Lemma lookup_empty_or_deleted (environ : gmap string pystr) k k' :
  getenv (setenv k [] environ) k' = getenv (unsetenv k environ) k' \/
  (getenv (setenv k [] environ) k' = Some [] /\
   getenv (unsetenv k environ) k' = None).
Proof.
  unfold getenv, setenv, unsetenv. destruct (decide (k = k')) as [<-|Hk].
  - right. by rewrite lookup_insert_eq, lookup_delete_eq.
  - left. by rewrite lookup_insert_ne, lookup_delete_ne.
Qed.

Lemma get_google_credentials_empty L environ k :
  get_google_credentials L (setenv k [] environ)
  = get_google_credentials L (unsetenv k environ).
Proof.
  unfold get_google_credentials.
  destruct (lookup_empty_or_deleted environ k "GOOGLE_CREDENTIALS_BASE64")
    as [-> | [-> ->]];
    destruct (lookup_empty_or_deleted environ k "GOOGLE_CREDENTIALS")
      as [-> | [-> ->]]; try done.
Qed.

Lemma connect_empty L environ k name :
  connect L (setenv k [] environ) name = connect L (unsetenv k environ) name.
Proof. unfold connect. by rewrite get_google_credentials_empty. Qed.

(** X10. For the configuration a variable set to the empty text is a variable
    that is not set: the token, the sheet name and the two credential
    variables are tested for truth, so the start-up ends and prints the same
    with [VARIABLE=] as without the variable. *)
Theorem empty_variable_is_missing :
  forall L environ k,
    configuration L (setenv k [] environ) = configuration L (unsetenv k environ) /\
    get_google_credentials L (setenv k [] environ)
    = get_google_credentials L (unsetenv k environ).
Proof.
  intros L environ k. split; [|apply get_google_credentials_empty].
  unfold configuration.
  destruct (lookup_empty_or_deleted environ k "TELEGRAM_BOT_TOKEN")
    as [-> | [-> ->]]; [|done].
  destruct (getenv (unsetenv k environ) "TELEGRAM_BOT_TOKEN") as [[|c r]|];
    try done.
  destruct (lookup_empty_or_deleted environ k "SHEET_NAME")
    as [-> | [-> ->]]; [|done].
  destruct (getenv (unsetenv k environ) "SHEET_NAME") as [[|c' r']|]; try done.
  by rewrite connect_empty.
Qed.

(** X11. The base64 variable comes first and there is no second try: when
    [GOOGLE_CREDENTIALS_BASE64] is set and not empty, [GOOGLE_CREDENTIALS] is
    not read at all, and whatever decoding raises is printed and raised
    again, even if the other variable holds good credentials. Only when the
    base64 variable is unset or empty does the other one count. *)
Theorem base64_credentials_come_first L (environ1 environ2 : gmap string pystr) :
  getenv environ1 "GOOGLE_CREDENTIALS_BASE64" = getenv environ2 "GOOGLE_CREDENTIALS_BASE64" ->
  (truthy (getenv environ1 "GOOGLE_CREDENTIALS_BASE64") = false ->
   getenv environ1 "GOOGLE_CREDENTIALS" = getenv environ2 "GOOGLE_CREDENTIALS") ->
  get_google_credentials L environ1 = get_google_credentials L environ2 /\
  (forall encoded e,
     getenv environ1 "GOOGLE_CREDENTIALS_BASE64" = Some encoded ->
     encoded <> [] ->
     b64decode L encoded = Raised e ->
     get_google_credentials L environ2
     = (Raised (Library e),
        [say_error "❌ Error loading base64 credentials:" (Library e)])).
Proof.
  intros Hb64 Hjson. unfold get_google_credentials. rewrite <- Hb64. split.
  - destruct (getenv environ1 "GOOGLE_CREDENTIALS_BASE64") as [[|c r]|]; try done;
      by rewrite Hjson.
  - intros encoded e -> Hne Hraise. destruct encoded as [|c r]; [done|].
    cbn zeta. by rewrite Hraise.
Qed.

(** With the base64 variable set, the JSON variable makes no difference. *)
Lemma base64_first_example :
  get_google_credentials sample_libraries
    (setenv "GOOGLE_CREDENTIALS_BASE64" (str_of "e30=") ∅)
  = get_google_credentials sample_libraries
      (setenv "GOOGLE_CREDENTIALS" (str_of "{}")
         (setenv "GOOGLE_CREDENTIALS_BASE64" (str_of "e30=") ∅)).
Proof.
  apply base64_credentials_come_first.
  - vm_compute. reflexivity.
  - vm_compute. discriminate.
Defined.

(** X12. Listing the spreadsheets is only informative: whether
    [client.openall()] returns or raises, and whatever it returns, the
    connection ends the same way, with the same worksheet or the same
    exception. *)
Theorem listing_sheets_changes_nothing :
  forall L environ name f,
    fst (connect (with_openall L f) environ name) = fst (connect L environ name).
Proof.
  intros L environ name f. unfold connect.
  change (get_google_credentials (with_openall L f) environ)
    with (get_google_credentials L environ).
  destruct (get_google_credentials L environ) as [[creds|e] ls]; [|done].
  unfold try_print_raise, try_print, out_bind, out_print, out_ret, call.
  cbn [with_openall service_account_email authorize openall open_sheet1
       lib_exn worksheet gclient credentials].
  destruct (service_account_email L creds);
    destruct (authorize L creds) as [client|e]; try done;
    destruct (f client) as [[|t1 l1]|e1];
    destruct (openall L client) as [[|t2 l2]|e2];
    by destruct (open_sheet1 L client name).
Qed.

Lemma out_bind_returned {E A B : Type} (c : Out E A) (k : A -> Out E B) b ls :
  out_bind c k = (Returned b, ls) ->
  exists a, fst c = Returned a /\ fst (k a) = Returned b.
Proof.
  unfold out_bind. destruct c as [[a|e] l1]; [|done].
  destruct (k a) as [r l2] eqn:Hk. intros [= -> _]. exists a. by rewrite Hk.
Qed.

Lemma try_print_raise_returned {E A : Type} (body : Out E A) h a ls :
  try_print_raise body h = (Returned a, ls) -> fst body = Returned a.
Proof.
  unfold try_print_raise. destruct body as [[a'|e] l]; [|done]. by intros [= -> _].
Qed.

Lemma get_google_credentials_returned L environ creds ls :
  get_google_credentials L environ = (Returned creds, ls) ->
  truthy (getenv environ "GOOGLE_CREDENTIALS_BASE64") = true \/
  truthy (getenv environ "GOOGLE_CREDENTIALS") = true.
Proof.
  unfold get_google_credentials.
  destruct (getenv environ "GOOGLE_CREDENTIALS_BASE64") as [[|c r]|];
    try (by left);
    destruct (getenv environ "GOOGLE_CREDENTIALS") as [[|c' r']|]; try done;
    by right.
Qed.

Lemma connect_returned L environ name sheet ls :
  connect L environ name = (Returned sheet, ls) ->
  (truthy (getenv environ "GOOGLE_CREDENTIALS_BASE64") = true \/
   truthy (getenv environ "GOOGLE_CREDENTIALS") = true) /\
  exists creds client,
    fst (get_google_credentials L environ) = Returned creds /\
    authorize L creds = Returned client /\
    open_sheet1 L client name = Returned sheet.
Proof.
  unfold connect. intros H. apply try_print_raise_returned in H.
  destruct (get_google_credentials L environ) as [[creds|e] l0] eqn:Hcreds;
    [|done].
  split; [by eapply get_google_credentials_returned|].
  exists creds. revert H.
  unfold try_print_raise, try_print, out_bind, out_print, out_ret, call.
  destruct (service_account_email L creds);
    destruct (authorize L creds) as [client|e]; try done;
    destruct (openall L client) as [[|t l]|e1];
    destruct (open_sheet1 L client name) as [sh|e2] eqn:Hopen; try done;
    cbn [fst]; intros [= <-]; exists client; by repeat split.
Qed.

(** X13. The start-up succeeds only with a complete configuration: the token
    and the sheet name it returns are the non-empty values of
    [TELEGRAM_BOT_TOKEN] and [SHEET_NAME], one of the two credential
    variables is set and not empty, and the worksheet is the first sheet of
    the spreadsheet of that name, opened by a client authorized with the
    credentials read. *)
Theorem successful_startup_is_configured L environ token name sheet ls :
  configuration L environ = (Returned (token, name, sheet), ls) ->
  getenv environ "TELEGRAM_BOT_TOKEN" = Some token /\ token <> [] /\
  getenv environ "SHEET_NAME" = Some name /\ name <> [] /\
  (truthy (getenv environ "GOOGLE_CREDENTIALS_BASE64") = true \/
   truthy (getenv environ "GOOGLE_CREDENTIALS") = true) /\
  exists creds client,
    fst (get_google_credentials L environ) = Returned creds /\
    authorize L creds = Returned client /\
    open_sheet1 L client name = Returned sheet.
Proof.
  unfold configuration.
  destruct (getenv environ "TELEGRAM_BOT_TOKEN") as [[|c r]|]; try done.
  destruct (getenv environ "SHEET_NAME") as [[|c' r']|]; try done.
  cbn zeta. unfold out_bind, out_ret.
  destruct (connect L environ (c' :: r')) as [[sh|e] l0] eqn:Hconnect; [|done].
  intros [= <- <- <- _].
  destruct (connect_returned L environ _ _ _ Hconnect) as [Hvars Hlibs].
  repeat (split; [done|]). exact Hlibs.
Qed.

(** A complete configuration with the sample libraries. *)
Lemma successful_startup_example :
  getenv sample_environ "SHEET_NAME" = Some (str_of "Takings").
Proof.
  refine (proj1 (proj2 (proj2
    (successful_startup_is_configured sample_libraries sample_environ
       (str_of "123:abc") (str_of "Takings") (str_of "Takings")
       [say "✅ Using JSON credentials from env var";
        say_text "✅ Successfully connected to sheet:" (str_of "Takings")]
       _)))).
  vm_compute. reflexivity.
Defined.

End StartupProperties.

(** ** The port of the health server *)

Section ServerPort.

Import PyFloat PyInt FloatSyntax IntSyntax Startup Server.

#[local] Arguments is_digit : simpl never.
#[local] Arguments Py_ISSPACE : simpl never.

Lemma underscore_not_digit : is_digit c_underscore = false.
Proof. reflexivity. Qed.

Lemma underscore_not_space : Py_ISSPACE c_underscore = false.
Proof. reflexivity. Qed.

(** What the digit loop has read is a digit tail, or a digit and a digit tail
    when it started after an underscore. *)
Lemma scan_long_digits_spec s :
  forall prev d rest,
    scan_long_digits prev s = Some (d, rest) ->
    (prev <> c_underscore ->
     exists t, s = t ++ rest /\ digit_tail t /\ without_underscores t = d) /\
    (prev = c_underscore ->
     exists c t, s = c :: t ++ rest /\ is_digit c = true /\ digit_tail t /\
       without_underscores (c :: t) = d).
Proof.
  induction s as [|c s IH]; intros prev d rest; simpl.
  - destruct (N.eqb_spec prev c_underscore) as [->|Hp]; [done|].
    intros [= <- <-]. split; [|done]. intros _. exists []. repeat split. constructor.
  - destruct (N.eqb_spec c c_underscore) as [->|Hc].
    + destruct (N.eqb_spec prev c_underscore) as [->|Hp]; [done|].
      intros Hs. split; [|done]. intros _.
      destruct (IH _ _ _ Hs) as [_ H]. destruct (H eq_refl) as (c & t & -> & Hd & Ht & Hw).
      exists (c_underscore :: c :: t). repeat split; [by constructor|exact Hw].
    + destruct (is_digit c) eqn:Hd.
      * destruct (scan_long_digits c s) as [[d' t']|] eqn:Hs; [|done].
        intros [= <- <-]. destruct (IH _ _ _ Hs) as [H _].
        destruct (H Hc) as (t & -> & Ht & Hw).
        assert (without_underscores (c :: t) = c :: d') as Hw'.
        { unfold without_underscores in *. simpl.
          destruct (N.eqb_spec c c_underscore); [done|]. simpl. by rewrite Hw. }
        split; intros _.
        -- exists (c :: t). repeat split; [by constructor|done].
        -- exists c, t. by repeat split.
      * destruct (N.eqb_spec prev c_underscore) as [->|Hp]; [done|].
        intros [= <- <-]. split; [|done]. intros _. exists [].
        repeat split. constructor.
Qed.

Lemma scan_long_digits_app t rest :
  digit_tail t -> no_digit_or_underscore_ahead rest ->
  forall prev, prev <> c_underscore ->
    scan_long_digits prev (t ++ rest) = Some (without_underscores t, rest).
Proof.
  intros Ht Hr. induction Ht as [|c t Hc Ht IH|c t Hc Ht IH]; intros prev Hp.
  - simpl. destruct rest as [|c r].
    + simpl. by destruct (N.eqb_spec prev c_underscore).
    + destruct Hr as [Hd Hu]. simpl.
      destruct (N.eqb_spec c c_underscore); [done|]. rewrite Hd.
      by destruct (N.eqb_spec prev c_underscore).
  - pose proof (digit_not_underscore _ Hc) as Hu. simpl.
    destruct (N.eqb_spec c c_underscore); [done|]. rewrite Hc, (IH c Hu).
    unfold without_underscores. simpl.
    by destruct (N.eqb_spec c c_underscore).
  - pose proof (digit_not_underscore _ Hc) as Hu.
    change ((c_underscore :: c :: t) ++ rest) with (c_underscore :: c :: (t ++ rest)).
    cbn [scan_long_digits]. rewrite N.eqb_refl.
    destruct (N.eqb_spec prev c_underscore); [done|].
    destruct (N.eqb_spec c c_underscore); [done|]. rewrite Hc, (IH c Hu).
    unfold without_underscores. simpl.
    by destruct (N.eqb_spec c c_underscore).
Qed.

Lemma space_not_read c :
  Py_ISSPACE c = true -> is_digit c = false /\ c <> c_underscore.
Proof.
  unfold Py_ISSPACE, is_digit, c_space, c_tab, c_cr, c_zero, c_nine, c_underscore.
  intros H. split; [|intros ->; discriminate H].
  apply andb_false_iff. rewrite !N.leb_gt.
  apply orb_prop in H as [H|H].
  - apply N.eqb_eq in H. lia.
  - apply andb_prop in H as [H1 H2]. apply N.leb_le in H1, H2. lia.
Qed.

Lemma spaces_not_read r : spaces r -> no_digit_or_underscore_ahead r.
Proof. intros [|c r' Hc _]; simpl; [done|by apply space_not_read]. Qed.

Lemma lstrip_spaces r : spaces r -> lstrip r = [].
Proof. induction 1 as [|c r Hc _ IH]; simpl; [done|by rewrite Hc]. Qed.

Lemma lstrip_nil_spaces r : lstrip r = [] -> spaces r.
Proof.
  intros H. destruct (lstrip_spec r) as (l & Hr & Hl).
  rewrite H, app_nil_r in Hr. by subst.
Qed.

Lemma without_underscores_cons_digit c t :
  is_digit c = true ->
  without_underscores (c :: t) = c :: without_underscores t.
Proof.
  intros Hc. pose proof (digit_not_underscore _ Hc).
  unfold without_underscores. simpl. by destruct (N.eqb_spec c c_underscore).
Qed.

(** The sign read, with what it means. *)
Lemma scan_sign_value s neg r :
  scan_sign s = (neg, r) ->
  exists sg, s = sg ++ r /\ sign sg /\ neg = bool_decide (sg = [c_minus]).
Proof.
  unfold scan_sign, sign. destruct s as [|c s'].
  - intros [= <- <-]. exists []. auto.
  - destruct (N.eqb_spec c c_minus) as [->|].
    + intros [= <- <-]. exists [c_minus]. auto.
    + destruct (N.eqb_spec c c_plus) as [->|].
      * intros [= <- <-]. exists [c_plus]. auto.
      * intros [= <- <-]. exists []. auto.
Qed.

Lemma scan_sign_digit sg c x :
  sign sg -> is_digit c = true ->
  scan_sign (sg ++ c :: x) = (bool_decide (sg = [c_minus]), c :: x).
Proof.
  intros Hsg Hc. destruct (digit_not_sign _ Hc) as [H1 H2].
  destruct Hsg as [-> | [-> | ->]]; unfold scan_sign; simpl; try reflexivity.
  destruct (N.eqb_spec c c_minus); [done|].
  by destruct (N.eqb_spec c c_plus).
Qed.

Lemma lstrip_sign_digit sg c x :
  sign sg -> is_digit c = true -> lstrip (sg ++ c :: x) = sg ++ c :: x.
Proof.
  intros Hsg Hc. pose proof (digit_not_space _ Hc) as Hs.
  destruct Hsg as [-> | [-> | ->]]; simpl; [by rewrite Hs|done|done].
Qed.

Lemma integer_value_sign sg d :
  integer_value sg d
  = let z := Z.of_N (digits_value (without_underscores d)) in
    if bool_decide (sg = [c_minus]) then (- z)%Z else z.
Proof. unfold integer_value. by destruct (decide (sg = [c_minus])); simpl; [rewrite bool_decide_eq_true_2|rewrite bool_decide_eq_false_2]. Qed.

(** What [PyLong_FromString] converts is a sign and a digit part between
    white space, up to the end of the C string. *)
Lemma PyLong_FromString_spec max_str_digits s z rest :
  PyLong_FromString max_str_digits s = Ok (z, rest) ->
  exists l sg d r,
    s = l ++ sg ++ d ++ r ++ rest /\
    spaces l /\ sign sg /\ digitpart d /\ spaces r /\
    too_many_digits max_str_digits
      (Z.of_nat (length (without_underscores d))) = false /\
    z = integer_value sg d.
Proof.
  unfold PyLong_FromString.
  destruct (lstrip_spec s) as (l & Hs & Hl).
  destruct (scan_sign (lstrip s)) as [neg s1] eqn:Hsign.
  destruct (scan_sign_value _ _ _ Hsign) as (sg & Hsg & Hsign' & ->).
  destruct s1 as [|c s1']; [done|].
  destruct (N.eqb_spec c c_underscore) as [->|Hc]; [done|].
  destruct (scan_long_digits 0 (c :: s1')) as [[d rest']|] eqn:Hscan; [|done].
  destruct (scan_long_digits_spec _ _ _ _ Hscan) as [H _].
  destruct H as (t & Ht & Htail & Hw); [done|].
  destruct (too_many_digits _ _) eqn:Hmany; [done|].
  destruct d as [|c' d']; [done|].
  assert (digitpart t) as Hpart.
  { destruct Htail as [|c0 t0 Hc0 Ht0|c0 t0 Hc0 Ht0].
    - discriminate Hw.
    - by exists c0, t0.
    - by injection Ht as ->. }
  assert (forall r, lstrip rest' = r ->
            exists sp, rest' = sp ++ r /\ spaces sp) as Hrest.
  { intros r <-. apply lstrip_spec. }
  destruct (lstrip rest') as [|c2 r2] eqn:Hstrip.
  - intros [= <- <-]. destruct (Hrest _ eq_refl) as (sp & -> & Hsp).
    exists l, sg, t, sp. rewrite Hs at 1. rewrite Hsg, Ht, app_nil_r, Hw.
    repeat split; try done. by rewrite integer_value_sign, Hw.
  - destruct (N.eqb_spec c2 0) as [->|]; [|done].
    intros [= <- <-]. destruct (Hrest _ eq_refl) as (sp & -> & Hsp).
    exists l, sg, t, sp. rewrite Hs at 1. rewrite Hsg, Ht, Hw.
    repeat split; try done. by rewrite integer_value_sign, Hw.
Qed.

Lemma PyLong_FromString_app max_str_digits l sg d r :
  spaces l -> sign sg -> digitpart d -> spaces r ->
  too_many_digits max_str_digits
    (Z.of_nat (length (without_underscores d))) = false ->
  PyLong_FromString max_str_digits (l ++ sg ++ d ++ r)
  = Ok (integer_value sg d, []).
Proof.
  intros Hl Hsg (c & t & -> & Hc & Ht) Hr Hmany.
  unfold PyLong_FromString.
  change ((c :: t) ++ r) with (c :: (t ++ r)).
  rewrite lstrip_app, lstrip_sign_digit, scan_sign_digit by done.
  destruct (N.eqb_spec c c_underscore) as [->|Hu]; [done|].
  change (c :: (t ++ r)) with ((c :: t) ++ r).
  rewrite (scan_long_digits_app (c :: t) r (tail_digit c t Hc Ht)
             (spaces_not_read r Hr) 0) by done.
  rewrite Hmany, integer_value_sign.
  rewrite without_underscores_cons_digit by done.
  by rewrite lstrip_spaces.
Qed.

(** [int()] on a text converts exactly the integer texts. *)
Lemma PyLong_FromUnicodeObject_spec max_str_digits s z :
  PyLong_FromUnicodeObject max_str_digits s = Ok z
  <-> integer_text max_str_digits s z.
Proof.
  unfold PyLong_FromUnicodeObject, integer_text. split.
  - destruct (PyLong_FromString _ _) as [[z' [|c rest]]|e] eqn:H; [|done..].
    intros [= ->]. apply PyLong_FromString_spec in H as (l & sg & d & r & H).
    rewrite app_nil_r in H. by exists l, sg, d, r.
  - intros (l & sg & d & r & -> & Hl & Hsg & Hd & Hr & Hmany & ->).
    by rewrite PyLong_FromString_app.
Qed.

Lemma PyLong_FromUnicodeObject_raises max_str_digits s e :
  PyLong_FromUnicodeObject max_str_digits s = Raise e -> e = ValueError.
Proof.
  unfold PyLong_FromUnicodeObject, PyLong_FromString.
  destruct (scan_sign _) as [neg [|c s1]]; [by intros [= <-]|].
  destruct (c =? c_underscore); [by intros [= <-]|].
  destruct (scan_long_digits _ _) as [[d rest]|]; [|by intros [= <-]].
  destruct (too_many_digits _ _); [by intros [= <-]|].
  destruct d; [by intros [= <-]|].
  destruct (lstrip rest) as [|c' r']; [done|].
  destruct (c' =? 0); by intros [= <-].
Qed.

Lemma run_health_server_text max_str_digits environ text :
  getenv environ "PORT" = Some text ->
  run_health_server max_str_digits environ
  = match PyLong_FromUnicodeObject max_str_digits text with
    | Ok port => served port
    | Raise e => (Raise e, [])
    end.
Proof. intros H. unfold run_health_server, environ_get_PORT. by rewrite H. Qed.

Lemma served_inj p q : served p = served q -> p = q.
Proof. unfold served. by intros [= _ ->]. Qed.

(** X14. With [PORT] set, the health server starts exactly when the text is
    one [int()] converts: a sign and digits, with single underscores between
    digits, between white space, and no more digits than the interpreter
    allows. It then announces and serves the integer the text stands for,
    whatever it is; otherwise [run_health_server] raises [ValueError] before
    it has printed anything, and no server is started. *)
Theorem health_server_starts_on_integer_texts max_str_digits environ text :
  getenv environ "PORT" = Some text ->
  (forall port,
     integer_text max_str_digits text port
     <-> run_health_server max_str_digits environ = served port) /\
  ((forall port, ~ integer_text max_str_digits text port) ->
   run_health_server max_str_digits environ = (Raise ValueError, [])).
Proof.
  intros H. rewrite (run_health_server_text _ _ _ H). split.
  - intros port. rewrite <- PyLong_FromUnicodeObject_spec.
    destruct (PyLong_FromUnicodeObject _ _) as [z|e].
    + split; [by intros [= ->]|by intros ->%served_inj].
    + split; [done|]. unfold served. discriminate.
  - intros Hno. destruct (PyLong_FromUnicodeObject _ _) as [z|e] eqn:Hint.
    + apply PyLong_FromUnicodeObject_spec in Hint. by destruct (Hno z).
    + by apply PyLong_FromUnicodeObject_raises in Hint as ->.
Qed.

(** A port written with a sign, an underscore and spaces around it. *)
Lemma integer_text_example :
  integer_text 4300 (str_of " +8_080 ") 8080%Z.
Proof.
  refine (proj2 (proj1 (health_server_starts_on_integer_texts 4300
                          (setenv "PORT" (str_of " +8_080 ") ∅)
                          (str_of " +8_080 ") _) 8080%Z) _);
    vm_compute; reflexivity.
Defined.

(** *** Numerals *)

Lemma pretty_N_char_code x :
  x < 10 -> N_of_ascii (pretty_N_char x) = c_zero + x.
Proof.
  intros Hx.
  assert (x = 0 \/ x = 1 \/ x = 2 \/ x = 3 \/ x = 4 \/ x = 5 \/ x = 6 \/
          x = 7 \/ x = 8 \/ x = 9) as H by lia.
  repeat (destruct H as [-> | H]; [reflexivity|]). by subst.
Qed.

Lemma digits_value_snoc p c :
  digits_value (p ++ [c]) = 10 * digits_value p + (c - c_zero).
Proof. unfold digits_value. by rewrite fold_left_app. Qed.

Lemma pretty_N_go_digits n :
  forall s, exists p,
    str_of (pretty_N_go n s) = p ++ str_of s /\ digits p /\
    digits_value p = n /\ (0 < n -> p <> []).
Proof.
  induction n as [n IH] using (well_founded_induction N.lt_wf_0). intros s.
  destruct (decide (n = 0)) as [->|Hn].
  - exists []. rewrite pretty_N_go_0. repeat split; [constructor|lia].
  - rewrite pretty_N_go_step by lia.
    destruct (IH (n `div` 10)) with
      (s := String (pretty_N_char (n `mod` 10)) s) as (p & Hp & Hd & Hv & _).
    { apply N.div_lt; lia. }
    pose proof (N.mod_lt n 10 ltac:(lia)) as Hlt.
    pose proof (N.div_mod' n 10) as Hdiv.
    set (m := n `mod` 10) in *. set (q := n `div` 10) in *.
    clearbody m q.
    exists (p ++ [c_zero + m]). repeat split.
    + rewrite Hp. unfold str_of at 1. simpl.
      rewrite pretty_N_char_code by done. by rewrite <- app_assoc.
    + apply Forall_app. split; [done|]. constructor; [|constructor].
      unfold is_digit, c_zero, c_nine. apply andb_true_intro.
      split; apply N.leb_le; lia.
    + rewrite digits_value_snoc, Hv. unfold c_zero. lia.
    + intros _. by destruct p.
Qed.

(** The numeral of [n] is a run of digits that reads back as [n]. *)
Lemma numeral_spec n :
  digits (numeral n) /\ numeral n <> [] /\ digits_value (numeral n) = n.
Proof.
  unfold numeral, pretty, pretty_N.
  destruct (decide (n = 0)) as [->|Hn].
  - repeat split; [|done]. by repeat constructor.
  - destruct (pretty_N_go_digits n "") as (p & Hp & Hd & Hv & Hne).
    rewrite Hp. change (str_of "") with (@nil N). rewrite app_nil_r.
    repeat split; [done| |done]. apply Hne. lia.
Qed.

Lemma digits_ascii d : digits d -> TransformDecimalAndSpaceToASCII d = d.
Proof.
  intros Hd. unfold TransformDecimalAndSpaceToASCII.
  replace (forallb (fun c => c <? 128) d) with true; [done|].
  symmetry. apply forallb_forall. intros c Hc%list_elem_of_In.
  eapply Forall_forall in Hd; [|done].
  unfold is_digit, c_zero, c_nine in Hd. apply andb_prop in Hd as [_ H].
  apply N.leb_le in H. apply N.ltb_lt. lia.
Qed.

Lemma digits_digit_tail d :
  digits d -> digit_tail d /\ without_underscores d = d.
Proof.
  induction 1 as [|c d Hc _ [IH1 IH2]]; [by split; [constructor|]|].
  split; [by constructor|]. by rewrite without_underscores_cons_digit, IH2.
Qed.

Lemma numeral_integer_text max_str_digits n :
  (length (numeral n) <= 640)%nat ->
  integer_text max_str_digits (numeral n) (Z.of_N n).
Proof.
  intros Hlen. destruct (numeral_spec n) as (Hd & Hne & Hv).
  destruct (digits_digit_tail _ Hd) as [Ht Hw].
  exists [], [], (numeral n), []. rewrite digits_ascii, app_nil_r by done.
  split; [done|]. split; [constructor|]. split; [by left|].
  split; [|split; [constructor|split]].
  - destruct (numeral n) as [|c t] eqn:Hn; [done|].
    exists c, t. inversion Hd; subst. inversion Ht; subst; by repeat split.
  - rewrite Hw. unfold too_many_digits, PY_LONG_MAX_STR_DIGITS_THRESHOLD.
    replace (640 <? Z.of_nat (length (numeral n)))%Z with false; [done|].
    symmetry. apply Z.ltb_ge. lia.
  - unfold integer_value. rewrite Hw, Hv. by destruct (decide _).
Qed.

Lemma py_str_of_N n : py_str (PInt (Z.of_N n)) = numeral n.
Proof. by destruct n. Qed.

(** X15. A port written as a plain numeral goes through unchanged: with
    [PORT] set to the decimal numeral of a natural number (of at most 640
    digits, so that no interpreter setting refuses it), the server is started
    on that number and the line printed shows the numeral as it was given.
    Without [PORT] the port is 10000, whatever the interpreter's limit. *)
Theorem health_port_round_trip max_str_digits environ n :
  (length (numeral n) <= 640)%nat ->
  run_health_server max_str_digits (setenv "PORT" (numeral n) environ)
  = served (Z.of_N n) /\
  starting_line (Z.of_N n)
  = str_of "Starting health check server on port " ++ numeral n ++ str_of "..." /\
  run_health_server max_str_digits (unsetenv "PORT" environ) = served 10000.
Proof.
  intros Hlen. repeat split.
  - rewrite (run_health_server_text _ _ (numeral n)).
    + apply (numeral_integer_text max_str_digits) in Hlen.
      apply PyLong_FromUnicodeObject_spec in Hlen. by rewrite Hlen.
    + unfold getenv, setenv. apply lookup_insert_eq.
  - unfold starting_line. by rewrite py_str_of_N.
  - unfold run_health_server, environ_get_PORT, getenv, unsetenv.
    by rewrite lookup_delete_eq.
Qed.

(** The port 8080. *)
Lemma port_8080_example :
  run_health_server 4300 (setenv "PORT" (numeral 8080) ∅) = served 8080.
Proof.
  refine (proj1 (health_port_round_trip 4300 ∅ 8080 _)).
  vm_compute. lia.
Defined.

(** *** Texts without a digit *)

Lemma digit_decimal c : is_digit c = true -> Py_UNICODE_TODECIMAL c <> None.
Proof.
  intros H. unfold Py_UNICODE_TODECIMAL, unicode_decimal_zeros.
  cbn [List.find].
  assert ((0x30 <=? c) && (c <? 0x30 + 10) = true) as ->; [|done].
  unfold is_digit, c_zero, c_nine in H. apply andb_prop in H as [H1 H2].
  apply N.leb_le in H1, H2. apply andb_true_intro.
  split; [apply N.leb_le|apply N.ltb_lt]; lia.
Qed.

Lemma transform_chars_digit s c :
  In c (transform_chars s) -> is_digit c = true ->
  exists c0, In c0 s /\ Py_UNICODE_TODECIMAL c0 <> None.
Proof.
  intros Hin Hc. induction s as [|c0 s IH]; simpl in Hin; [done|].
  assert (In c (transform_chars s) ->
          exists c1, In c1 (c0 :: s) /\ Py_UNICODE_TODECIMAL c1 <> None) as Hrest.
  { intros (c1 & H1 & H2)%IH. exists c1. split; [by right|done]. }
  destruct (c0 <? 127).
  - destruct Hin as [<-|Hin]; [|by apply Hrest].
    exists c0. split; [by left|by apply digit_decimal].
  - destruct (Py_UNICODE_ISSPACE c0).
    + destruct Hin as [<-|Hin]; [done|by apply Hrest].
    + destruct (Py_UNICODE_TODECIMAL c0) as [d|] eqn:Hd.
      * destruct Hin as [<-|Hin]; [|by apply Hrest].
        exists c0. split; [by left|]. by rewrite Hd.
      * destruct Hin as [<-|[]]. done.
Qed.

Lemma transform_digit s c :
  In c (TransformDecimalAndSpaceToASCII s) -> is_digit c = true ->
  exists c0, In c0 s /\ Py_UNICODE_TODECIMAL c0 <> None.
Proof.
  unfold TransformDecimalAndSpaceToASCII. destruct (forallb _ s).
  - intros Hin Hc. exists c. split; [done|by apply digit_decimal].
  - apply transform_chars_digit.
Qed.

(** Every integer text holds a decimal digit. *)
Lemma integer_text_digit max_str_digits s z :
  integer_text max_str_digits s z ->
  exists c, In c s /\ Py_UNICODE_TODECIMAL c <> None.
Proof.
  intros (l & sg & d & r & Hs & _ & _ & (c & t & -> & Hc & _) & _).
  apply (transform_digit s c); [|done].
  rewrite Hs. apply in_or_app. right. apply in_or_app. right. by left.
Qed.

(** X16. [PORT] is not tested for truth as the other variables are: a text
    with no decimal digit in it, the empty text for one, is no port, and
    [run_health_server] raises [ValueError] on it without having printed
    anything or started a server. *)
Theorem port_without_digit_raises max_str_digits environ text :
  getenv environ "PORT" = Some text ->
  Forall (fun c => Py_UNICODE_TODECIMAL c = None) text ->
  run_health_server max_str_digits environ = (Raise ValueError, []).
Proof.
  intros Hport Hnone. rewrite (run_health_server_text _ _ _ Hport).
  destruct (PyLong_FromUnicodeObject _ _) as [z|e] eqn:Hint.
  - apply PyLong_FromUnicodeObject_spec, integer_text_digit in Hint
      as (c & Hin%list_elem_of_In & Hc).
    eapply Forall_forall in Hnone; [|done]. done.
  - by apply PyLong_FromUnicodeObject_raises in Hint as ->.
Qed.

(** A port that is a word. *)
Lemma word_port_example :
  run_health_server 4300 (setenv "PORT" (str_of "auto") ∅)
  = (Raise ValueError, []).
Proof.
  apply (port_without_digit_raises 4300 (setenv "PORT" (str_of "auto") ∅)
           (str_of "auto")).
  - vm_compute. reflexivity.
  - repeat (constructor; [vm_compute; reflexivity|]). constructor.
Defined.

End ServerPort.
